(** * Recursive filesystem copy: the blocking, callback and promise dialects

    A shallow embedding of [lib/internal/fs/copy/copy.js] (the promise
    dialect), [lib/internal/fs/copy/copy-sync.js] (the blocking dialect) and
    of the callback dialect, over an abstract ambient filesystem and an
    abstract [path] module.  Every ambient call threads an explicit state;
    mutating calls are recorded in a trace. *)

From Stdlib Require Import String Ascii List ZArith Bool Lia Arith.
From Stdlib Require Import FunctionalExtensionality.
Import ListNotations.

Local Open Scope string_scope.
Local Open Scope list_scope.

(** ** JavaScript values used by the copy engine *)

(** [Boolean(s)] on a string: only the empty string is falsy. *)
Definition Boolean (s : string) : bool := negb (s =? "").

(** [StringPrototypeSplit(s, sep)] for a one-character separator. *)
Fixpoint StringPrototypeSplit (s : string) (sep : ascii) : list string :=
  match s with
  | EmptyString => [EmptyString]
  | String a s' =>
      if Ascii.eqb a sep then EmptyString :: StringPrototypeSplit s' sep
      else match StringPrototypeSplit s' sep with
           | [] => [String a EmptyString]
           | w :: ws => String a w :: ws
           end
  end.

Definition ArrayPrototypeFilter {A} (l : list A) (f : A -> bool) : list A :=
  filter f l.

(** [arr.every((cur, i) => ...)]: the callback sees the element and its
    index. *)
Fixpoint every_from {A} (f : A -> nat -> bool) (i : nat) (l : list A) : bool :=
  match l with
  | [] => true
  | x :: t => f x i && every_from f (S i) t
  end.

Definition ArrayPrototypeEvery {A} (l : list A) (f : A -> nat -> bool) : bool :=
  every_from f 0 l.

(** [arr.reduce((acc, cur, i) => ..., init)]. *)
Fixpoint reduce_from {A B} (f : B -> A -> nat -> B) (i : nat) (l : list A)
  (acc : B) : B :=
  match l with
  | [] => acc
  | x :: t => reduce_from f (S i) t (f acc x i)
  end.

Definition ArrayPrototypeReduce {A B} (l : list A) (f : B -> A -> nat -> B)
  (init : B) : B :=
  reduce_from f 0 l init.

(** [arr[i] === cur] for an array of strings: an index out of range reads
    [undefined], which is never strictly equal to a string. *)
Definition index_is (arr : list string) (i : nat) (cur : string) : bool :=
  match nth_error arr i with
  | Some d => d =? cur
  | None => false
  end.

(** ** The [path] module

    The copy engine imports [dirname], [isAbsolute], [join], [parse],
    [resolve] and [sep] from [path]; they are ambient and taken as an
    interface. *)

Class PathApi := {
  sep : ascii;
  resolve : list string -> string;      (* path.resolve(...paths) *)
  dirname : string -> string;
  join : string -> string -> string;
  isAbsolute : string -> bool;
  parse_root : string -> string         (* path.parse(p).root *)
}.

(** The fields of [process] the engine reads. *)
Class ProcessEnv := {
  process_cwd : string;                 (* process.cwd() *)
  process_arch : string                 (* process.arch *)
}.

(** ** Stat records and errors *)

Inductive Kind :=
| KFile | KDirectory | KSymbolicLink | KBlockDevice | KCharacterDevice
| KSocket | KFIFO | KUnknown.

Record Stats := mkStats {
  st_kind : Kind;
  mode : Z;
  atime : Z;
  mtime : Z;
  dev : Z;
  ino : Z
}.

Definition isDirectory (s : Stats) : bool :=
  match st_kind s with KDirectory => true | _ => false end.
Definition isFile (s : Stats) : bool :=
  match st_kind s with KFile => true | _ => false end.
Definition isCharacterDevice (s : Stats) : bool :=
  match st_kind s with KCharacterDevice => true | _ => false end.
Definition isBlockDevice (s : Stats) : bool :=
  match st_kind s with KBlockDevice => true | _ => false end.
Definition isSymbolicLink (s : Stats) : bool :=
  match st_kind s with KSymbolicLink => true | _ => false end.
Definition isSocket (s : Stats) : bool :=
  match st_kind s with KSocket => true | _ => false end.
Definition isFIFO (s : Stats) : bool :=
  match st_kind s with KFIFO => true | _ => false end.

(** The [codes] of [internal/errors] the engine raises. *)
Inductive ErrCode :=
| ERR_FS_COPY_DIR_TO_NON_DIR
| ERR_FS_COPY_EEXIST
| ERR_FS_COPY_FIFO_PIPE
| ERR_FS_COPY_NON_DIR_TO_DIR
| ERR_FS_COPY_SOCKET
| ERR_FS_COPY_SYMLINK_TO_SUBDIRECTORY
| ERR_FS_COPY_TO_SUBDIRECTORY
| ERR_FS_COPY_UNKNOWN.

(** The [os.errno] constants the engine reads from [internalBinding]. *)
Inductive Errno := EEXIST | EISDIR | EINVAL | ENOTDIR.

(** The object literal passed to an error constructor. *)
Record ErrInfo := mkInfo {
  info_code : string;
  info_message : string;
  info_path : string;
  info_syscall : string;
  info_errno : Errno
}.

Inductive Error :=
| NodeError (c : ErrCode) (i : ErrInfo)   (* new ERR_FS_COPY_...({...}) *)
| SystemError (code : string).            (* raised by an ambient fs call *)

Definition ErrCode_name (c : ErrCode) : string :=
  match c with
  | ERR_FS_COPY_DIR_TO_NON_DIR => "ERR_FS_COPY_DIR_TO_NON_DIR"
  | ERR_FS_COPY_EEXIST => "ERR_FS_COPY_EEXIST"
  | ERR_FS_COPY_FIFO_PIPE => "ERR_FS_COPY_FIFO_PIPE"
  | ERR_FS_COPY_NON_DIR_TO_DIR => "ERR_FS_COPY_NON_DIR_TO_DIR"
  | ERR_FS_COPY_SOCKET => "ERR_FS_COPY_SOCKET"
  | ERR_FS_COPY_SYMLINK_TO_SUBDIRECTORY => "ERR_FS_COPY_SYMLINK_TO_SUBDIRECTORY"
  | ERR_FS_COPY_TO_SUBDIRECTORY => "ERR_FS_COPY_TO_SUBDIRECTORY"
  | ERR_FS_COPY_UNKNOWN => "ERR_FS_COPY_UNKNOWN"
  end.

(** [err.code] *)
Definition err_code (e : Error) : string :=
  match e with
  | NodeError c _ => ErrCode_name c
  | SystemError code => code
  end.


(** List prefix, the relation the subdirectory test decides. *)
Definition is_prefix {A} (l1 l2 : list A) : Prop := exists r, l2 = l1 ++ r.

(** ** The ambient filesystem

    [stat], [lstat], [readlink] and [readdir] read the world; the other
    calls may change it, also when they fail.  An ambient failure carries
    its [code] ('ENOENT', 'EINVAL', ...). *)

Definition Fd := Z.

Inductive Sys (A : Type) :=
| SysOk (a : A)
| SysErr (code : string).
Arguments SysOk {A} a.
Arguments SysErr {A} code.

Class FsApi (World : Type) := {
  fs_stat : string -> World -> Sys Stats;
  fs_lstat : string -> World -> Sys Stats;
  fs_readlink : string -> World -> Sys string;
  fs_readdir : string -> World -> Sys (list string);
  fs_mkdir : string -> bool -> World -> Sys unit * World;
  fs_unlink : string -> World -> Sys unit * World;
  fs_copyFile : string -> string -> World -> Sys unit * World;
  fs_chmod : string -> Z -> World -> Sys unit * World;
  fs_symlink : string -> string -> World -> Sys unit * World;
  fs_open : string -> string -> World -> Sys Fd * World;
  fs_futimes : Fd -> Z -> Z -> World -> Sys unit * World;
  fs_close : Fd -> World -> Sys unit * World
}.

(** Every mutating call that is issued, in order, with its arguments. *)
Inductive Event :=
| EvWarning (msg name : string)
| EvMkdir (path : string) (recursive : bool)
| EvUnlink (path : string)
| EvCopyFile (src dest : string)
| EvChmod (path : string) (mode : Z)
| EvSymlink (target path : string)
| EvOpen (path flags : string)
| EvFutimes (fd : Fd) (atime mtime : Z)
| EvClose (fd : Fd).

Record St (World : Type) := mkSt {
  world : World;
  trace : list Event
}.
Arguments mkSt {World} world trace.
Arguments world {World} s.
Arguments trace {World} s.

(** The options bag.  [filter] may read the filesystem (the tests' filter
    calls [statSync]). *)
Record Opts (World : Type) := mkOpts {
  dereference : bool;
  preserveTimestamps : bool;
  force : bool;
  overwrite : bool;
  errorOnExist : bool;
  filter : option (string -> string -> World -> bool)
}.
Arguments mkOpts {World}.
Arguments dereference {World} o.
Arguments preserveTimestamps {World} o.
Arguments force {World} o.
Arguments overwrite {World} o.
Arguments errorOnExist {World} o.
Arguments filter {World} o.

(** ** Direct style: the blocking and the awaited calls

    A call returns a value, throws, or (only for the bounded recursions) runs
    out of fuel. *)

Inductive Res (A : Type) :=
| Ok (a : A)
| Throw (e : Error)
| OutOfFuel.
Arguments Ok {A} a.
Arguments Throw {A} e.
Arguments OutOfFuel {A}.

Definition M (World A : Type) : Type := St World -> Res A * St World.

Definition ret {W A} (a : A) : M W A := fun st => (Ok a, st).

Definition throw {W A} (e : Error) : M W A := fun st => (Throw e, st).

Definition bind {W A B} (m : M W A) (k : A -> M W B) : M W B :=
  fun st =>
    match m st with
    | (Ok a, st') => k a st'
    | (Throw e, st') => (Throw e, st')
    | (OutOfFuel, st') => (OutOfFuel, st')
    end.

(** [try { m } catch (err) { h err }] *)
Definition catch {W A} (m : M W A) (h : Error -> M W A) : M W A :=
  fun st =>
    match m st with
    | (Throw e, st') => h e st'
    | r => r
    end.

(** [try { m } finally { f }]: the exception of [f], if any, replaces the
    outcome of [m]. *)
Definition finally {W A} (m : M W A) (f : M W unit) : M W A :=
  fun st =>
    match m st with
    | (OutOfFuel, st') => (OutOfFuel, st')
    | (r, st') =>
        match f st' with
        | (Ok _, st'') => (r, st'')
        | (Throw e, st'') => (Throw e, st'')
        | (OutOfFuel, st'') => (OutOfFuel, st'')
        end
    end.

Definition out_of_fuel {W A} : M W A := fun st => (OutOfFuel, st).

Declare Scope copy_scope.
Delimit Scope copy_scope with copy.
Notation "x <- m ;; k" := (bind m (fun x => k))
  (at level 100, m at next level, right associativity) : copy_scope.
Notation "' pat <- m ;; k" := (bind m (fun x => match x with pat => k end))
  (at level 100, pat pattern, m at next level, right associativity)
  : copy_scope.
Notation "m ;; k" := (bind m (fun _ => k))
  (at level 100, right associativity) : copy_scope.
Local Open Scope copy_scope.

Definition of_sys {A} (r : Sys A) : Res A :=
  match r with
  | SysOk a => Ok a
  | SysErr code => Throw (SystemError code)
  end.

(** [forEach]: the items in array order, stopping at the first throw. *)
Fixpoint forEach {W A} (items : list A) (f : A -> M W unit) : M W unit :=
  match items with
  | [] => ret tt
  | item :: rest => f item;; forEach rest f
  end.

(** JavaScript's [ToInt32], applied to the operands of [&] and [|]. *)
Definition ToInt32 (z : Z) : Z :=
  ((z + 2147483648) mod 4294967296 - 2147483648)%Z.

Module Fs.
Section Calls.
Context {World : Type} {FS : FsApi World}.

Definition read {A} (f : World -> Sys A) : M World A :=
  fun st => (of_sys (f (world st)), st).

Definition mutate {A} (ev : Event) (f : World -> Sys A * World)
  : M World A :=
  fun st =>
    let (r, w') := f (world st) in
    (of_sys r, mkSt w' (trace st ++ [ev])).

Definition stat (path : string) : M World Stats := read (fs_stat path).
Definition lstat (path : string) : M World Stats := read (fs_lstat path).
Definition readlink (path : string) : M World string :=
  read (fs_readlink path).
Definition readdir (path : string) : M World (list string) :=
  read (fs_readdir path).

Definition mkdir (path : string) (recursive : bool) : M World unit :=
  mutate (EvMkdir path recursive) (fs_mkdir path recursive).
Definition unlink (path : string) : M World unit :=
  mutate (EvUnlink path) (fs_unlink path).
Definition copyFile (src dest : string) : M World unit :=
  mutate (EvCopyFile src dest) (fs_copyFile src dest).
Definition chmod (path : string) (mode : Z) : M World unit :=
  mutate (EvChmod path mode) (fs_chmod path mode).
Definition symlink (target path : string) : M World unit :=
  mutate (EvSymlink target path) (fs_symlink target path).
Definition open (path flags : string) : M World Fd :=
  mutate (EvOpen path flags) (fs_open path flags).
Definition futimes (fd : Fd) (atime mtime : Z) : M World unit :=
  mutate (EvFutimes fd atime mtime) (fs_futimes fd atime mtime).
Definition close (fd : Fd) : M World unit :=
  mutate (EvClose fd) (fs_close fd).

(** [existsSync] never throws: any failure reads as "does not exist". *)
Definition existsSync (path : string) : M World bool :=
  fun st =>
    match fs_stat path (world st) with
    | SysOk _ => (Ok true, st)
    | SysErr _ => (Ok false, st)
    end.

(** [process.emitWarning(warning, name)] *)
Definition emitWarning (warning name : string) : M World unit :=
  fun st => (Ok tt, mkSt (world st) (trace st ++ [EvWarning warning name])).

(** [opts.filter(src, dest)] *)
Definition call_filter (f : string -> string -> World -> bool)
  (src dest : string) : M World bool :=
  fun st => (Ok (f src dest (world st)), st).
End Calls.
End Fs.

(** ** The promise dialect: [lib/internal/fs/copy/copy.js]

    Every [await] is a sequencing point.  [getStats] starts both stat calls
    before awaiting them; they only read, and the model reports a failure of
    the source first. *)

Module Copy.
Section Dialect.
Context {World : Type} {FS : FsApi World} {P : PathApi} {E : ProcessEnv}.
#[local] Abbreviation M := (M World).
#[local] Abbreviation Opts := (Opts World).

Definition areIdentical (srcStat destStat : Stats) : bool :=
  negb (ino destStat =? 0)%Z && negb (dev destStat =? 0)%Z &&
  (ino destStat =? ino srcStat)%Z && (dev destStat =? dev srcStat)%Z.

Definition getStats (src dest : string) (opts : Opts)
  : M (Stats * option Stats) :=
  let statFunc := if dereference opts then Fs.stat else Fs.lstat in
  srcStat <- statFunc src;;
  destStat <- catch (d <- statFunc dest;; ret (Some d))
                (fun err => if err_code err =? "ENOENT" then ret None
                            else throw err);;
  ret (srcStat, destStat).

Definition normalizePathToArray (path : string) : list string :=
  ArrayPrototypeFilter (StringPrototypeSplit (resolve [path]) sep) Boolean.

(** Return true if dest is a subdir of src, otherwise false.
    It only checks the path strings. *)
Definition isSrcSubdir (src dest : string) : bool :=
  let srcArr := normalizePathToArray src in
  let destArr := normalizePathToArray dest in
  ArrayPrototypeEvery srcArr (fun cur i => index_is destArr i cur).

Definition checkPaths (src dest : string) (opts : Opts)
  : M (Stats * option Stats) :=
  '(srcStat, destStat) <- getStats src dest opts;;
  (match destStat with
   | Some destStat =>
       if areIdentical srcStat destStat then
         throw (NodeError ERR_FS_COPY_TO_SUBDIRECTORY
                  (mkInfo "EINVAL" "src and dest cannot be the same directory"
                     dest "copy" EINVAL))
       else if isDirectory srcStat && negb (isDirectory destStat) then
         throw (NodeError ERR_FS_COPY_DIR_TO_NON_DIR
                  (mkInfo "EISDIR"
                     ("cannot overwrite directory " ++ src ++
                      " with non-directory " ++ dest)
                     dest "copy" EISDIR))
       else if negb (isDirectory srcStat) && isDirectory destStat then
         throw (NodeError ERR_FS_COPY_NON_DIR_TO_DIR
                  (mkInfo "ENOTDIR"
                     ("cannot overwrite non-directory " ++ src ++
                      " with directory " ++ dest)
                     dest "copy" ENOTDIR))
       else ret tt
   | None => ret tt
   end);;
  if isDirectory srcStat && isSrcSubdir src dest then
    throw (NodeError ERR_FS_COPY_TO_SUBDIRECTORY
             (mkInfo "EINVAL"
                ("cannot copy " ++ src ++ " to a subdirectory of self " ++
                 dest)
                dest "copy" EINVAL))
  else ret (srcStat, destStat).

Definition pathExists (dest : string) : M bool :=
  catch (Fs.stat dest;; ret true)
    (fun err => if err_code err =? "ENOENT" then ret false else throw err).

(** Recursively check if dest parent is a subdirectory of src.
    It works for all file types including symlinks since it
    checks the src and dest inodes. It starts from the deepest
    parent and stops once it reaches the src parent or the root path. *)
Fixpoint checkParentPaths (fuel : nat) (src : string) (srcStat : Stats)
  (dest : string) : M unit :=
  match fuel with
  | O => out_of_fuel
  | S fuel' =>
      let srcParent := resolve [dirname src] in
      let destParent := resolve [dirname dest] in
      if (destParent =? srcParent) || (destParent =? parse_root destParent)
      then ret tt
      else
        destStat <- catch (d <- Fs.stat destParent;; ret (Some d))
                      (fun err => if err_code err =? "ENOENT" then ret None
                                  else throw err);;
        match destStat with
        | None => ret tt
        | Some destStat =>
            if areIdentical srcStat destStat then
              throw (NodeError ERR_FS_COPY_TO_SUBDIRECTORY
                       (mkInfo "EINVAL"
                          ("cannot copy " ++ src ++
                           " to a subdirectory of self " ++ dest)
                          dest "copy" EINVAL))
            else checkParentPaths fuel' src srcStat destParent
        end
  end.

Definition fileIsNotWritable (srcMode : Z) : bool :=
  (Z.land (ToInt32 srcMode) 128 =? 0)%Z.

Definition setDestMode (dest : string) (srcMode : Z) : M unit :=
  Fs.chmod dest srcMode.

Definition makeFileWritable (dest : string) (srcMode : Z) : M unit :=
  setDestMode dest (Z.lor (ToInt32 srcMode) 128).

Definition utimesMillis (path : string) (atime mtime : Z) : M unit :=
  fd <- Fs.open path "r+";;
  finally (Fs.futimes fd atime mtime) (Fs.close fd).

Definition setDestTimestamps (src dest : string) : M unit :=
  (* The initial srcStat.atime cannot be trusted
     because it is modified by the read(2) system call *)
  updatedSrcStat <- Fs.stat src;;
  utimesMillis dest (atime updatedSrcStat) (mtime updatedSrcStat).

Definition setDestTimestampsAndMode (srcMode : Z) (src dest : string)
  : M unit :=
  setDestTimestamps src dest;;
  setDestMode dest srcMode.

Definition handleTimestampsAndMode (srcMode : Z) (src dest : string)
  : M unit :=
  (* Make sure the file is writable before setting the timestamp
     otherwise open fails with EPERM when invoked with 'r+' *)
  if fileIsNotWritable srcMode then
    makeFileWritable dest srcMode;;
    setDestTimestampsAndMode srcMode src dest
  else setDestTimestampsAndMode srcMode src dest.

Definition _copyFile (srcStat : Stats) (src dest : string) (opts : Opts)
  : M unit :=
  Fs.copyFile src dest;;
  if preserveTimestamps opts then
    handleTimestampsAndMode (mode srcStat) src dest
  else setDestMode dest (mode srcStat).

Definition mayCopyFile (srcStat : Stats) (src dest : string) (opts : Opts)
  : M unit :=
  if force opts then
    Fs.unlink dest;;
    _copyFile srcStat src dest opts
  else if errorOnExist opts then
    throw (NodeError ERR_FS_COPY_EEXIST
             (mkInfo "EEXIST" (dest ++ " already exists") dest "copy" EEXIST))
  else ret tt.

Definition onFile (srcStat : Stats) (destStat : option Stats)
  (src dest : string) (opts : Opts) : M unit :=
  match destStat with
  | None => _copyFile srcStat src dest opts
  | Some _ => mayCopyFile srcStat src dest opts
  end.

Definition copyLink (resolvedSrc dest : string) : M unit :=
  Fs.unlink dest;;
  Fs.symlink resolvedSrc dest.

Definition onLink (destStat : option Stats) (src dest : string) : M unit :=
  resolvedSrc <- Fs.readlink src;;
  let resolvedSrc :=
    if negb (isAbsolute resolvedSrc) then resolve [dirname src; resolvedSrc]
    else resolvedSrc in
  match destStat with
  | None => Fs.symlink resolvedSrc dest
  | Some _ =>
      r <- catch (d <- Fs.readlink dest;; ret (Some d))
             (fun err =>
                (* Dest exists and is a regular file or directory,
                   Windows may throw UNKNOWN error. *)
                if (err_code err =? "EINVAL") || (err_code err =? "UNKNOWN")
                then ret None
                else throw err);;
      match r with
      | None => Fs.symlink resolvedSrc dest
      | Some resolvedDest =>
          let resolvedDest :=
            if negb (isAbsolute resolvedDest)
            then resolve [dirname dest; resolvedDest]
            else resolvedDest in
          if isSrcSubdir resolvedSrc resolvedDest then
            throw (NodeError ERR_FS_COPY_TO_SUBDIRECTORY
                     (mkInfo "EINVAL"
                        ("cannot copy " ++ resolvedSrc ++
                         " to a subdirectory of self " ++ resolvedDest)
                        dest "copy" EINVAL))
          else
            (* Do not copy if src is a subdir of dest since unlinking
               dest in this case would result in removing src contents
               and therefore a broken symlink would be created. *)
            srcStat <- Fs.stat src;;
            if isDirectory srcStat && isSrcSubdir resolvedDest resolvedSrc
            then
              throw (NodeError ERR_FS_COPY_SYMLINK_TO_SUBDIRECTORY
                       (mkInfo "EINVAL"
                          ("cannot overwrite " ++ resolvedDest ++ " with " ++
                           resolvedSrc)
                          dest "copy" EINVAL))
            else copyLink resolvedSrc dest
      end
  end.

Definition handleFilter
  (onInclude : option Stats -> string -> string -> Opts -> M unit)
  (f : string -> string -> World -> bool)
  (destStat : option Stats) (src dest : string) (opts : Opts) : M unit :=
  include <- Fs.call_filter f src dest;;
  if include then onInclude destStat src dest opts else ret tt.

(** The directory recursion, written against the recursive reference
    [getStatsForCopy_rec]; the knot is tied by [getStatsForCopy]. *)
Section Knot.
Variable getStatsForCopy_rec :
  option Stats -> string -> string -> Opts -> M unit.

Definition startCopy (destStat : option Stats) (src dest : string)
  (opts : Opts) : M unit :=
  match filter opts with
  | Some f => handleFilter getStatsForCopy_rec f destStat src dest opts
  | None => getStatsForCopy_rec destStat src dest opts
  end.

(** [for (let i = 0; i < dir.length; i++)]: [n] counts the iterations
    left, [dir.length - i]. *)
Fixpoint copyDir_loop (n i : nat) (dir : list string) (src dest : string)
  (opts : Opts) : M unit :=
  match n with
  | O => ret tt
  | S n' =>
      match nth_error dir i with
      | None => ret tt
      | Some item =>
          let srcItem := join src item in
          let destItem := join dest item in
          '(_, destStat) <- checkPaths srcItem destItem opts;;
          startCopy destStat srcItem destItem opts;;
          copyDir_loop n' (S i) dir src dest opts
      end
  end.

Definition copyDir (src dest : string) (opts : Opts) : M unit :=
  dir <- Fs.readdir src;;
  copyDir_loop (length dir) 0 dir src dest opts.

Definition mkDirAndCopy (srcMode : Z) (src dest : string) (opts : Opts)
  : M unit :=
  Fs.mkdir dest false;;
  copyDir src dest opts;;
  setDestMode dest srcMode.

Definition onDir (srcStat : Stats) (destStat : option Stats)
  (src dest : string) (opts : Opts) : M unit :=
  match destStat with
  | None => mkDirAndCopy (mode srcStat) src dest opts
  | Some _ => copyDir src dest opts
  end.

Definition getStatsForCopy_body (destStat : option Stats)
  (src dest : string) (opts : Opts) : M unit :=
  let statFn := if dereference opts then Fs.stat else Fs.lstat in
  srcStat <- statFn src;;
  if isDirectory srcStat then onDir srcStat destStat src dest opts
  else if isFile srcStat || isCharacterDevice srcStat ||
          isBlockDevice srcStat
  then onFile srcStat destStat src dest opts
  else if isSymbolicLink srcStat then onLink destStat src dest
  else if isSocket srcStat then
    throw (NodeError ERR_FS_COPY_SOCKET
             (mkInfo "EINVAL" ("cannot copy a socket file: " ++ dest)
                dest "copy" EINVAL))
  else if isFIFO srcStat then
    throw (NodeError ERR_FS_COPY_FIFO_PIPE
             (mkInfo "EINVAL" ("cannot copy a FIFO pipe: " ++ dest)
                dest "copy" EINVAL))
  else
    throw (NodeError ERR_FS_COPY_UNKNOWN
             (mkInfo "EINVAL" ("cannot copy a unknown file type: " ++ dest)
                dest "copy" EINVAL)).
End Knot.

Fixpoint getStatsForCopy (fuel : nat) (destStat : option Stats)
  (src dest : string) (opts : Opts) : M unit :=
  match fuel with
  | O => out_of_fuel
  | S fuel' =>
      getStatsForCopy_body (getStatsForCopy fuel') destStat src dest opts
  end.

Definition checkParentDir (fuel : nat) (destStat : option Stats)
  (src dest : string) (opts : Opts) : M unit :=
  let destParent := dirname dest in
  dirExists <- pathExists destParent;;
  if dirExists then getStatsForCopy fuel destStat src dest opts
  else
    Fs.mkdir destParent true;;
    getStatsForCopy fuel destStat src dest opts.

Definition copyFn (fuel : nat) (src dest : string) (opts : Opts) : M unit :=
  (* Warn about using preserveTimestamps on 32-bit node *)
  (if preserveTimestamps opts && (process_arch =? "ia32") then
     Fs.emitWarning
       ("Using the preserveTimestamps option in 32-bit" ++
        "node is not recommended")
       "TimestampPrecisionWarning"
   else ret tt);;
  '(srcStat, destStat) <- checkPaths src dest opts;;
  checkParentPaths fuel src srcStat dest;;
  match filter opts with
  | Some f => handleFilter (checkParentDir fuel) f destStat src dest opts
  | None => checkParentDir fuel destStat src dest opts
  end.
End Dialect.
End Copy.

(** ** The blocking dialect: [lib/internal/fs/copy/copy-sync.js]

    [areIdentical] and [isSrcSubdir] are the ones exported by [copy.js]. *)

Module CopySync.
Section Dialect.
Context {World : Type} {FS : FsApi World} {P : PathApi} {E : ProcessEnv}.
#[local] Abbreviation M := (M World).
#[local] Abbreviation Opts := (Opts World).

Definition getStatsSync (src dest : string) (opts : Opts)
  : M (Stats * option Stats) :=
  let statFunc := if dereference opts then Fs.stat else Fs.lstat in
  srcStat <- statFunc src;;
  catch (destStat <- statFunc dest;; ret (srcStat, Some destStat))
    (fun err => if err_code err =? "ENOENT" then ret (srcStat, None)
                else throw err).

Definition checkPathsSync (src dest : string) (opts : Opts)
  : M (Stats * option Stats) :=
  '(srcStat, destStat) <- getStatsSync src dest opts;;
  (match destStat with
   | Some destStat =>
       if Copy.areIdentical srcStat destStat then
         throw (NodeError ERR_FS_COPY_TO_SUBDIRECTORY
                  (mkInfo "EINVAL" "src and dest cannot be the same directory"
                     dest "copy" EINVAL))
       else if isDirectory srcStat && negb (isDirectory destStat) then
         throw (NodeError ERR_FS_COPY_DIR_TO_NON_DIR
                  (mkInfo "EISDIR"
                     ("cannot overwrite directory " ++ src ++
                      " with non-directory " ++ dest)
                     dest "copy" EISDIR))
       else if negb (isDirectory srcStat) && isDirectory destStat then
         throw (NodeError ERR_FS_COPY_NON_DIR_TO_DIR
                  (mkInfo "ENOTDIR"
                     ("cannot overwrite non-directory " ++ src ++
                      " with directory " ++ dest)
                     dest "copy" ENOTDIR))
       else ret tt
   | None => ret tt
   end);;
  if isDirectory srcStat && Copy.isSrcSubdir src dest then
    throw (NodeError ERR_FS_COPY_TO_SUBDIRECTORY
             (mkInfo "EINVAL"
                ("cannot copy " ++ src ++ " to a subdirectory of self " ++
                 dest)
                dest "copy" EINVAL))
  else ret (srcStat, destStat).

Fixpoint checkParentPathsSync (fuel : nat) (src : string) (srcStat : Stats)
  (dest : string) : M unit :=
  match fuel with
  | O => out_of_fuel
  | S fuel' =>
      let srcParent := resolve [dirname src] in
      let destParent := resolve [dirname dest] in
      if (destParent =? srcParent) || (destParent =? parse_root destParent)
      then ret tt
      else
        destStat <- catch (d <- Fs.stat destParent;; ret (Some d))
                      (fun err => if err_code err =? "ENOENT" then ret None
                                  else throw err);;
        match destStat with
        | None => ret tt
        | Some destStat =>
            if Copy.areIdentical srcStat destStat then
              throw (NodeError ERR_FS_COPY_TO_SUBDIRECTORY
                       (mkInfo "EINVAL"
                          ("cannot copy " ++ src ++
                           " to a subdirectory of self " ++ dest)
                          dest "copy" EINVAL))
            else checkParentPathsSync fuel' src srcStat destParent
        end
  end.

Definition fileIsNotWritable (srcMode : Z) : bool :=
  (Z.land (ToInt32 srcMode) 128 =? 0)%Z.

Definition setDestMode (dest : string) (srcMode : Z) : M unit :=
  Fs.chmod dest srcMode.

Definition makeFileWritable (dest : string) (srcMode : Z) : M unit :=
  setDestMode dest (Z.lor (ToInt32 srcMode) 128).

Definition utimesMillisSync (path : string) (atime mtime : Z) : M unit :=
  fd <- Fs.open path "r+";;
  Fs.futimes fd atime mtime;;
  Fs.close fd.

Definition setDestTimestamps (src dest : string) : M unit :=
  (* The initial srcStat.atime cannot be trusted
     because it is modified by the read(2) system call *)
  updatedSrcStat <- Fs.stat src;;
  utimesMillisSync dest (atime updatedSrcStat) (mtime updatedSrcStat).

Definition handleTimestamps (srcMode : Z) (src dest : string) : M unit :=
  (* Make sure the file is writable before setting the timestamp
     otherwise open fails with EPERM when invoked with 'r+' *)
  (if fileIsNotWritable srcMode then makeFileWritable dest srcMode
   else ret tt);;
  setDestTimestamps src dest.

Definition copyFile (srcStat : Stats) (src dest : string) (opts : Opts)
  : M unit :=
  Fs.copyFile src dest;;
  (if preserveTimestamps opts then handleTimestamps (mode srcStat) src dest
   else ret tt);;
  setDestMode dest (mode srcStat).

Definition mayCopyFile (srcStat : Stats) (src dest : string) (opts : Opts)
  : M unit :=
  if overwrite opts then
    Fs.unlink dest;;
    copyFile srcStat src dest opts
  else if errorOnExist opts then
    throw (NodeError ERR_FS_COPY_EEXIST
             (mkInfo "EEXIST" (dest ++ " already exists") dest "copy" EEXIST))
  else ret tt.

Definition onFile (srcStat : Stats) (destStat : option Stats)
  (src dest : string) (opts : Opts) : M unit :=
  match destStat with
  | None => copyFile srcStat src dest opts
  | Some _ => mayCopyFile srcStat src dest opts
  end.

Definition copyLink (resolvedSrc dest : string) : M unit :=
  Fs.unlink dest;;
  Fs.symlink resolvedSrc dest.

Definition onLink (destStat : option Stats) (src dest : string) (opts : Opts)
  : M unit :=
  resolvedSrc <- Fs.readlink src;;
  let resolvedSrc :=
    if dereference opts then resolve [process_cwd; resolvedSrc]
    else resolvedSrc in
  match destStat with
  | None => Fs.symlink resolvedSrc dest
  | Some _ =>
      r <- catch (d <- Fs.readlink dest;; ret (Some d))
             (fun err =>
                (* Dest exists and is a regular file or directory,
                   Windows may throw UNKNOWN error. *)
                if (err_code err =? "EINVAL") || (err_code err =? "UNKNOWN")
                then ret None
                else throw err);;
      match r with
      | None => Fs.symlink resolvedSrc dest
      | Some resolvedDest =>
          let resolvedDest :=
            if dereference opts then resolve [process_cwd; resolvedDest]
            else resolvedDest in
          if Copy.isSrcSubdir resolvedSrc resolvedDest then
            throw (NodeError ERR_FS_COPY_TO_SUBDIRECTORY
                     (mkInfo "EINVAL"
                        ("cannot copy " ++ resolvedSrc ++
                         " to a subdirectory of self " ++ resolvedDest)
                        dest "copy" EINVAL))
          else
            (* Prevent copy if src is a subdir of dest since unlinking
               dest in this case would result in removing src contents
               and therefore a broken symlink would be created. *)
            destTarget <- Fs.stat dest;;
            if isDirectory destTarget &&
               Copy.isSrcSubdir resolvedDest resolvedSrc
            then
              throw (NodeError ERR_FS_COPY_SYMLINK_TO_SUBDIRECTORY
                       (mkInfo "EINVAL"
                          ("cannot overwrite " ++ resolvedDest ++ " with " ++
                           resolvedSrc)
                          dest "copy" EINVAL))
            else copyLink resolvedSrc dest
      end
  end.

(** The directory recursion, written against the recursive reference
    [getStats_rec]; the knot is tied by [getStats]. *)
Section Knot.
Variable getStats_rec : option Stats -> string -> string -> Opts -> M unit.

Definition startCopy (destStat : option Stats) (src dest : string)
  (opts : Opts) : M unit :=
  match filter opts with
  | Some f =>
      include <- Fs.call_filter f src dest;;
      if negb include then ret tt
      else getStats_rec destStat src dest opts
  | None => getStats_rec destStat src dest opts
  end.

Definition copyDirItem (item src dest : string) (opts : Opts) : M unit :=
  let srcItem := join src item in
  let destItem := join dest item in
  '(_, destStat) <- checkPathsSync srcItem destItem opts;;
  startCopy destStat srcItem destItem opts.

Definition copyDir (src dest : string) (opts : Opts) : M unit :=
  items <- Fs.readdir src;;
  forEach items (fun item => copyDirItem item src dest opts).

Definition mkDirAndCopy (srcMode : Z) (src dest : string) (opts : Opts)
  : M unit :=
  Fs.mkdir dest false;;
  copyDir src dest opts;;
  setDestMode dest srcMode.

Definition onDir (srcStat : Stats) (destStat : option Stats)
  (src dest : string) (opts : Opts) : M unit :=
  match destStat with
  | None => mkDirAndCopy (mode srcStat) src dest opts
  | Some _ => copyDir src dest opts
  end.

Definition getStats_body (destStat : option Stats) (src dest : string)
  (opts : Opts) : M unit :=
  let statSyncFn := if dereference opts then Fs.stat else Fs.lstat in
  srcStat <- statSyncFn src;;
  if isDirectory srcStat then onDir srcStat destStat src dest opts
  else if isFile srcStat || isCharacterDevice srcStat ||
          isBlockDevice srcStat
  then onFile srcStat destStat src dest opts
  else if isSymbolicLink srcStat then onLink destStat src dest opts
  else if isSocket srcStat then
    throw (NodeError ERR_FS_COPY_SOCKET
             (mkInfo "EINVAL" ("cannot copy a socket file: " ++ dest)
                dest "copy" EINVAL))
  else if isFIFO srcStat then
    throw (NodeError ERR_FS_COPY_FIFO_PIPE
             (mkInfo "EINVAL" ("cannot copy a FIFO pipe: " ++ dest)
                dest "copy" EINVAL))
  else
    throw (NodeError ERR_FS_COPY_UNKNOWN
             (mkInfo "EINVAL" ("cannot copy a unknown file type: " ++ dest)
                dest "copy" EINVAL)).
End Knot.

Fixpoint getStats (fuel : nat) (destStat : option Stats) (src dest : string)
  (opts : Opts) : M unit :=
  match fuel with
  | O => out_of_fuel
  | S fuel' => getStats_body (getStats fuel') destStat src dest opts
  end.

Definition handleFilterAndCopy (fuel : nat) (destStat : option Stats)
  (src dest : string) (opts : Opts) : M unit :=
  skip <- match filter opts with
          | Some f => include <- Fs.call_filter f src dest;;
                      ret (negb include)
          | None => ret false
          end;;
  if (skip : bool) then ret tt
  else
    let destParent := dirname dest in
    parentExists <- Fs.existsSync destParent;;
    (if negb parentExists then Fs.mkdir destParent true else ret tt);;
    getStats fuel destStat src dest opts.

Definition copySyncFn (fuel : nat) (src dest : string) (opts : Opts)
  : M unit :=
  (* Warn about using preserveTimestamps on 32-bit node *)
  (if preserveTimestamps opts && (process_arch =? "ia32") then
     Fs.emitWarning
       ("Using the preserveTimestamps option in 32-bit" ++
        "node is not recommended")
       "TimestampPrecisionWarning"
   else ret tt);;
  '(srcStat, destStat) <- checkPathsSync src dest opts;;
  checkParentPathsSync fuel src srcStat dest;;
  handleFilterAndCopy fuel destStat src dest opts.
End Dialect.
End CopySync.

(** ** The callback dialect

    Continuation-passing: an operation takes the callback [cb] and the run
    ends when the outermost callback is called.  An exception thrown inside
    an ambient callback is not delivered to any [cb]: the run ends
    [Uncaught]. *)

(** The arguments of a Node callback: [cb(err)] or [cb(null, value)]. *)
Inductive CbArg (A : Type) :=
| CbErr (e : Error)
| CbOk (a : A).
Arguments CbErr {A} e.
Arguments CbOk {A} a.

Inductive Final (World : Type) :=
| Called (r : CbArg unit) (st : St World)
| Uncaught (msg : string) (st : St World)
| FuelOut.
Arguments Called {World} r st.
Arguments Uncaught {World} msg st.
Arguments FuelOut {World}.

Definition K (World : Type) : Type := St World -> Final World.
Definition Cb (World A : Type) : Type := CbArg A -> K World.

Definition arg_of_sys {A} (r : Sys A) : CbArg A :=
  match r with
  | SysOk a => CbOk a
  | SysErr code => CbErr (SystemError code)
  end.

(** [items.pop()]: removes and returns the last element, [undefined] on an
    empty array. *)
Definition pop {A} (items : list A) : option A * list A :=
  match rev items with
  | [] => (None, [])
  | x :: r => (Some x, rev r)
  end.

(** [!item] for an item that is a string or [undefined]. *)
Definition falsy (item : option string) : bool :=
  match item with
  | None => true
  | Some s => negb (Boolean s)
  end.

Module FsCb.
Section Calls.
Context {World : Type} {FS : FsApi World}.

Definition read {A} (f : World -> Sys A) (cb : Cb World A) : K World :=
  fun st => cb (arg_of_sys (f (world st))) st.

Definition mutate {A} (ev : Event) (f : World -> Sys A * World)
  (cb : Cb World A) : K World :=
  fun st =>
    let (r, w') := f (world st) in
    cb (arg_of_sys r) (mkSt w' (trace st ++ [ev])).

Definition stat (path : string) := read (fs_stat path).
Definition lstat (path : string) := read (fs_lstat path).
Definition readlink (path : string) := read (fs_readlink path).
Definition readdir (path : string) := read (fs_readdir path).
Definition mkdir (path : string) (recursive : bool) :=
  mutate (EvMkdir path recursive) (fs_mkdir path recursive).
Definition unlink (path : string) := mutate (EvUnlink path) (fs_unlink path).
Definition copyFile (src dest : string) :=
  mutate (EvCopyFile src dest) (fs_copyFile src dest).
Definition chmod (path : string) (mode : Z) :=
  mutate (EvChmod path mode) (fs_chmod path mode).
Definition symlink (target path : string) :=
  mutate (EvSymlink target path) (fs_symlink target path).
Definition open (path flags : string) :=
  mutate (EvOpen path flags) (fs_open path flags).
Definition futimes (fd : Fd) (atime mtime : Z) :=
  mutate (EvFutimes fd atime mtime) (fs_futimes fd atime mtime).
Definition close (fd : Fd) := mutate (EvClose fd) (fs_close fd).

(** [console.warn(msg)] *)
Definition console_warn (msg : string) (k : K World) : K World :=
  fun st => k (mkSt (world st) (trace st ++ [EvWarning msg "console.warn"])).
End Calls.
End FsCb.

Module CopyCb.
Section Dialect.
Context {World : Type} {FS : FsApi World} {P : PathApi} {E : ProcessEnv}.
#[local] Abbreviation K := (K World).
#[local] Abbreviation Cb := (Cb World).
#[local] Abbreviation Opts := (Opts World).

Definition areIdentical (srcStat destStat : Stats) : bool :=
  negb (ino destStat =? 0)%Z && negb (dev destStat =? 0)%Z &&
  (ino destStat =? ino srcStat)%Z && (dev destStat =? dev srcStat)%Z.

(** [callbackify(getStatsAsync)] *)
Definition getStats (src dest : string) (opts : Opts)
  (cb : Cb (Stats * option Stats)) : K :=
  let statFunc := if dereference opts then FsCb.stat else FsCb.lstat in
  statFunc src (fun r =>
    match r with
    | CbErr err => cb (CbErr err)
    | CbOk srcStat =>
        statFunc dest (fun r =>
          match r with
          | CbErr err =>
              if err_code err =? "ENOENT" then cb (CbOk (srcStat, None))
              else cb (CbErr err)
          | CbOk destStat => cb (CbOk (srcStat, Some destStat))
          end)
    end).

(** Return true if dest is a subdir of src, otherwise false.
    It only checks the path strings. *)
Definition isSrcSubdir (src dest : string) : bool :=
  let srcArr := List.filter (fun i => Boolean i)
                  (StringPrototypeSplit (resolve [src]) sep) in
  let destArr := List.filter (fun i => Boolean i)
                   (StringPrototypeSplit (resolve [dest]) sep) in
  ArrayPrototypeReduce srcArr
    (fun (acc : bool) cur i => acc && index_is destArr i cur) true.

Definition checkPaths (src dest : string) (opts : Opts)
  (cb : Cb (Stats * option Stats)) : K :=
  getStats src dest opts (fun r =>
    match r with
    | CbErr err => cb (CbErr err)
    | CbOk (srcStat, destStat) =>
        let tail :=
          if isDirectory srcStat && isSrcSubdir src dest then
            cb (CbErr (NodeError ERR_FS_COPY_TO_SUBDIRECTORY
                         (mkInfo "EINVAL"
                            ("cannot copy " ++ src ++
                             " to a subdirectory of self " ++ dest)
                            dest "copy" EINVAL)))
          else cb (CbOk (srcStat, destStat)) in
        match destStat with
        | Some destStat =>
            if areIdentical srcStat destStat then
              cb (CbErr (NodeError ERR_FS_COPY_TO_SUBDIRECTORY
                           (mkInfo "EINVAL"
                              "src and dest cannot be the same directory"
                              dest "copy" EINVAL)))
            else if isDirectory srcStat && negb (isDirectory destStat) then
              cb (CbErr (NodeError ERR_FS_COPY_DIR_TO_NON_DIR
                           (mkInfo "EISDIR"
                              ("cannot overwrite directory " ++ src ++
                               " with non-directory " ++ dest)
                              dest "copy" EISDIR)))
            else if negb (isDirectory srcStat) && isDirectory destStat then
              cb (CbErr (NodeError ERR_FS_COPY_NON_DIR_TO_DIR
                           (mkInfo "ENOTDIR"
                              ("cannot overwrite non-directory " ++ src ++
                               " with directory " ++ dest)
                              dest "copy" ENOTDIR)))
            else tail
        | None => tail
        end
    end).

Definition pathExists (dest : string) (cb : Cb bool) : K :=
  FsCb.stat dest (fun r =>
    match r with
    | CbErr err =>
        if err_code err =? "ENOENT" then cb (CbOk false) else cb (CbErr err)
    | CbOk _ => cb (CbOk true)
    end).

(** Recursively check if dest parent is a subdirectory of src.
    It works for all file types including symlinks since it
    checks the src and dest inodes. It starts from the deepest
    parent and stops once it reaches the src parent or the root path. *)
Fixpoint checkParentPaths (fuel : nat) (src : string) (srcStat : Stats)
  (dest : string) (cb : Cb unit) : K :=
  match fuel with
  | O => fun _ => FuelOut
  | S fuel' =>
      let srcParent := resolve [dirname src] in
      let destParent := resolve [dirname dest] in
      if (destParent =? srcParent) || (destParent =? parse_root destParent)
      then cb (CbOk tt)
      else
        FsCb.stat destParent (fun r =>
          match r with
          | CbErr err =>
              if err_code err =? "ENOENT" then cb (CbOk tt)
              else cb (CbErr err)
          | CbOk destStat =>
              if areIdentical srcStat destStat then
                cb (CbErr (NodeError ERR_FS_COPY_TO_SUBDIRECTORY
                             (mkInfo "EINVAL"
                                ("cannot copy " ++ src ++
                                 " to a subdirectory of self " ++ dest)
                                dest "copy" EINVAL)))
              else checkParentPaths fuel' src srcStat destParent cb
          end)
  end.

Definition fileIsNotWritable (srcMode : Z) : bool :=
  (Z.land (ToInt32 srcMode) 128 =? 0)%Z.

Definition setDestMode (dest : string) (srcMode : Z) (cb : Cb unit) : K :=
  FsCb.chmod dest srcMode cb.

Definition makeFileWritable (dest : string) (srcMode : Z) (cb : Cb unit)
  : K :=
  setDestMode dest (Z.lor (ToInt32 srcMode) 128) cb.

(** [callback(futimesErr || closeErr)] *)
Definition utimesMillis (path : string) (atime mtime : Z)
  (callback : Cb unit) : K :=
  FsCb.open path "r+" (fun r =>
    match r with
    | CbErr err => callback (CbErr err)
    | CbOk fd =>
        FsCb.futimes fd atime mtime (fun futimesErr =>
          FsCb.close fd (fun closeErr =>
            match futimesErr with
            | CbErr e => callback (CbErr e)
            | CbOk _ => callback closeErr
            end))
    end).

Definition setDestTimestamps (src dest : string) (cb : Cb unit) : K :=
  (* The initial srcStat.atime cannot be trusted
     because it is modified by the read(2) system call *)
  FsCb.stat src (fun r =>
    match r with
    | CbErr err => cb (CbErr err)
    | CbOk updatedSrcStat =>
        utimesMillis dest (atime updatedSrcStat) (mtime updatedSrcStat) cb
    end).

Definition setDestTimestampsAndMode (srcMode : Z) (src dest : string)
  (cb : Cb unit) : K :=
  setDestTimestamps src dest (fun r =>
    match r with
    | CbErr err => cb (CbErr err)
    | CbOk _ => setDestMode dest srcMode cb
    end).

Definition handleTimestampsAndMode (srcMode : Z) (src dest : string)
  (cb : Cb unit) : K :=
  (* Make sure the file is writable before setting the timestamp
     otherwise open fails with EPERM when invoked with 'r+' *)
  if fileIsNotWritable srcMode then
    makeFileWritable dest srcMode (fun r =>
      match r with
      | CbErr err => cb (CbErr err)
      | CbOk _ => setDestTimestampsAndMode srcMode src dest cb
      end)
  else setDestTimestampsAndMode srcMode src dest cb.

Definition _copyFile (srcStat : Stats) (src dest : string) (opts : Opts)
  (cb : Cb unit) : K :=
  FsCb.copyFile src dest (fun r =>
    match r with
    | CbErr err => cb (CbErr err)
    | CbOk _ =>
        if preserveTimestamps opts then
          handleTimestampsAndMode (mode srcStat) src dest cb
        else setDestMode dest (mode srcStat) cb
    end).

Definition mayCopyFile (srcStat : Stats) (src dest : string) (opts : Opts)
  (cb : Cb unit) : K :=
  if overwrite opts then
    FsCb.unlink dest (fun r =>
      match r with
      | CbErr err => cb (CbErr err)
      | CbOk _ => _copyFile srcStat src dest opts cb
      end)
  else if errorOnExist opts then
    cb (CbErr (NodeError ERR_FS_COPY_EEXIST
                 (mkInfo "EEXIST" (dest ++ " already exists") dest "copy"
                    EEXIST)))
  else cb (CbOk tt).

Definition onFile (srcStat : Stats) (destStat : option Stats)
  (src dest : string) (opts : Opts) (cb : Cb unit) : K :=
  match destStat with
  | None => _copyFile srcStat src dest opts cb
  | Some _ => mayCopyFile srcStat src dest opts cb
  end.

Definition copyLink (resolvedSrc dest : string) (cb : Cb unit) : K :=
  FsCb.unlink dest (fun r =>
    match r with
    | CbErr err => cb (CbErr err)
    | CbOk _ => FsCb.symlink resolvedSrc dest cb
    end).

(** The guard reads [stat.isSrcSubdir], a property the [stat] function does
    not have: once [destStat.isDirectory()] holds, calling it throws a
    [TypeError] inside the [readlink] callback. *)
Definition onLink (destStat : option Stats) (src dest : string) (opts : Opts)
  (cb : Cb unit) : K :=
  FsCb.readlink src (fun r =>
    match r with
    | CbErr err => cb (CbErr err)
    | CbOk resolvedSrc =>
        let resolvedSrc :=
          if dereference opts then resolve [process_cwd; resolvedSrc]
          else resolvedSrc in
        match destStat with
        | None => FsCb.symlink resolvedSrc dest cb
        | Some destStat =>
            FsCb.readlink dest (fun r =>
              match r with
              | CbErr err =>
                  (* Dest exists and is a regular file or directory,
                     Windows may throw UNKNOWN error. *)
                  if (err_code err =? "EINVAL") ||
                     (err_code err =? "UNKNOWN")
                  then FsCb.symlink resolvedSrc dest cb
                  else cb (CbErr err)
              | CbOk resolvedDest =>
                  let resolvedDest :=
                    if dereference opts
                    then resolve [process_cwd; resolvedDest]
                    else resolvedDest in
                  if isSrcSubdir resolvedSrc resolvedDest then
                    cb (CbErr (NodeError ERR_FS_COPY_TO_SUBDIRECTORY
                                 (mkInfo "EINVAL"
                                    ("cannot copy " ++ resolvedSrc ++
                                     " to a subdirectory of self " ++
                                     resolvedDest)
                                    dest "copy" EINVAL)))
                  else if isDirectory destStat then
                    Uncaught "TypeError: stat.isSrcSubdir is not a function"
                  else copyLink resolvedSrc dest cb
              end)
        end
    end).

Definition handleFilter
  (onInclude : option Stats -> string -> string -> Opts -> Cb unit -> K)
  (f : string -> string -> World -> bool)
  (destStat : option Stats) (src dest : string) (opts : Opts) (cb : Cb unit)
  : K :=
  fun st =>
    if f src dest (world st) then onInclude destStat src dest opts cb st
    else cb (CbOk tt) st.

(** The directory recursion, written against the recursive reference
    [getStatsForCopy_rec]; the knot is tied by [getStatsForCopy]. *)
Section Knot.
Variable getStatsForCopy_rec :
  option Stats -> string -> string -> Opts -> Cb unit -> K.

Definition startCopy (destStat : option Stats) (src dest : string)
  (opts : Opts) (cb : Cb unit) : K :=
  match filter opts with
  | Some f => handleFilter getStatsForCopy_rec f destStat src dest opts cb
  | None => getStatsForCopy_rec destStat src dest opts cb
  end.

(** [items] is the array [copyDirItems] has already popped [item] from;
    [copyDirItems_rec] is the call back into [copyDirItems]. *)
Definition copyDirItem
  (copyDirItems_rec : list string -> string -> string -> Opts -> Cb unit -> K)
  (items : list string) (item src dest : string) (opts : Opts) (cb : Cb unit)
  : K :=
  let srcItem := join src item in
  let destItem := join dest item in
  checkPaths srcItem destItem opts (fun r =>
    match r with
    | CbErr err => cb (CbErr err)
    | CbOk (_, destStat) =>
        startCopy destStat srcItem destItem opts (fun r =>
          match r with
          | CbErr err => cb (CbErr err)
          | CbOk _ => copyDirItems_rec items src dest opts cb
          end)
    end).

(** Each call pops one item; [n] bounds the number of calls. *)
Fixpoint copyDirItems (n : nat) (items : list string) (src dest : string)
  (opts : Opts) (cb : Cb unit) : K :=
  match n with
  | O => fun _ => FuelOut
  | S n' =>
      let '(item, items) := pop items in
      if falsy item then cb (CbOk tt)
      else
        match item with
        | Some item =>
            copyDirItem (copyDirItems n') items item src dest opts cb
        | None => cb (CbOk tt)
        end
  end.

Definition copyDir (src dest : string) (opts : Opts) (cb : Cb unit) : K :=
  FsCb.readdir src (fun r =>
    match r with
    | CbErr err => cb (CbErr err)
    | CbOk items => copyDirItems (S (length items)) items src dest opts cb
    end).

Definition mkDirAndCopy (srcMode : Z) (src dest : string) (opts : Opts)
  (cb : Cb unit) : K :=
  FsCb.mkdir dest false (fun r =>
    match r with
    | CbErr err => cb (CbErr err)
    | CbOk _ =>
        copyDir src dest opts (fun r =>
          match r with
          | CbErr err => cb (CbErr err)
          | CbOk _ => setDestMode dest srcMode cb
          end)
    end).

Definition onDir (srcStat : Stats) (destStat : option Stats)
  (src dest : string) (opts : Opts) (cb : Cb unit) : K :=
  match destStat with
  | None => mkDirAndCopy (mode srcStat) src dest opts cb
  | Some _ => copyDir src dest opts cb
  end.

Definition getStatsForCopy_body (destStat : option Stats) (src dest : string)
  (opts : Opts) (cb : Cb unit) : K :=
  let statFn := if dereference opts then FsCb.stat else FsCb.lstat in
  statFn src (fun r =>
    match r with
    | CbErr err => cb (CbErr err)
    | CbOk srcStat =>
        if isDirectory srcStat then onDir srcStat destStat src dest opts cb
        else if isFile srcStat || isCharacterDevice srcStat ||
                isBlockDevice srcStat
        then onFile srcStat destStat src dest opts cb
        else if isSymbolicLink srcStat then onLink destStat src dest opts cb
        else if isSocket srcStat then
          cb (CbErr (NodeError ERR_FS_COPY_SOCKET
                       (mkInfo "EINVAL" ("cannot copy a socket file: " ++ dest)
                          dest "copy" EINVAL)))
        else if isFIFO srcStat then
          cb (CbErr (NodeError ERR_FS_COPY_FIFO_PIPE
                       (mkInfo "EINVAL" ("cannot copy a FIFO pipe: " ++ dest)
                          dest "copy" EINVAL)))
        else
          cb (CbErr (NodeError ERR_FS_COPY_UNKNOWN
                       (mkInfo "EINVAL"
                          ("cannot copy a unknown file type: " ++ dest)
                          dest "copy" EINVAL)))
    end).
End Knot.

Fixpoint getStatsForCopy (fuel : nat) (destStat : option Stats)
  (src dest : string) (opts : Opts) (cb : Cb unit) : K :=
  match fuel with
  | O => fun _ => FuelOut
  | S fuel' =>
      getStatsForCopy_body (getStatsForCopy fuel') destStat src dest opts cb
  end.

Definition checkParentDir (fuel : nat) (destStat : option Stats)
  (src dest : string) (opts : Opts) (cb : Cb unit) : K :=
  let destParent := dirname dest in
  pathExists destParent (fun r =>
    match r with
    | CbErr err => cb (CbErr err)
    | CbOk dirExists =>
        if dirExists then getStatsForCopy fuel destStat src dest opts cb
        else
          FsCb.mkdir destParent true (fun r =>
            match r with
            | CbErr err => cb (CbErr err)
            | CbOk _ => getStatsForCopy fuel destStat src dest opts cb
            end)
    end).

Definition copyFn (fuel : nat) (src dest : string) (opts : Opts)
  (cb : Cb unit) : K :=
  (* Warn about using preserveTimestamps on 32-bit node *)
  (if preserveTimestamps opts && (process_arch =? "ia32") then
     FsCb.console_warn
       ("Using the preserveTimestamps option in 32-bit" ++
        "node is not recommended; see" ++
        "https://github.com/jprichardson/node-fs-extra/issues/269")
   else fun k => k)
  (checkPaths src dest opts (fun r =>
     match r with
     | CbErr err => cb (CbErr err)
     | CbOk (srcStat, destStat) =>
         checkParentPaths fuel src srcStat dest (fun r =>
           match r with
           | CbErr err => cb (CbErr err)
           | CbOk _ =>
               match filter opts with
               | Some f =>
                   handleFilter (checkParentDir fuel) f destStat src dest
                     opts cb
               | None => checkParentDir fuel destStat src dest opts cb
               end
           end)
     end)).

(** [copyPromises]: the promise settles with what [copyFn] passes to its
    callback. *)
Definition copyPromises (fuel : nat) (src dest : string) (options : Opts)
  : K :=
  copyFn fuel src dest options (fun err st => Called err st).
End Dialect.
End CopyCb.

(** ** A POSIX [path] module

    The [path] module is ambient.  This is its POSIX flavour, on segments:
    empty and [.] segments are dropped, [..] removes the segment before it,
    and a resolved path is [/] followed by its segments joined by [/]. *)

Module Posix.

Definition slash : ascii := "/"%char.

Definition segments (path : string) : list string :=
  List.filter Boolean (StringPrototypeSplit path slash).

(** [normalizeString] on segments; [stack] holds the result so far, last
    segment first. *)
Fixpoint normalize_onto (allowAboveRoot : bool) (stack segs : list string)
  : list string :=
  match segs with
  | [] => stack
  | s :: rest =>
      if s =? "." then normalize_onto allowAboveRoot stack rest
      else if s =? ".." then
        match stack with
        | top :: stack' =>
            if top =? ".." then normalize_onto allowAboveRoot (s :: stack) rest
            else normalize_onto allowAboveRoot stack' rest
        | [] =>
            if allowAboveRoot then normalize_onto allowAboveRoot [s] rest
            else normalize_onto allowAboveRoot [] rest
        end
      else normalize_onto allowAboveRoot (s :: stack) rest
  end.

Definition normalizeString (allowAboveRoot : bool) (segs : list string)
  : list string :=
  rev (normalize_onto allowAboveRoot [] segs).

Definition isAbsolute (path : string) : bool :=
  match path with
  | String c _ => Ascii.eqb c slash
  | EmptyString => false
  end.

Definition render (segs : list string) : string :=
  String slash (String.concat "/" segs).

(** [resolve]: the arguments right to left until one is absolute, then the
    working directory; [rpaths] is the argument list reversed. *)
Fixpoint resolve_onto (cwd : string) (rpaths : list string) (acc : string)
  : string :=
  match rpaths with
  | [] => cwd ++ "/" ++ acc
  | path :: rest =>
      if path =? "" then resolve_onto cwd rest acc
      else if isAbsolute path then path ++ "/" ++ acc
      else resolve_onto cwd rest (path ++ "/" ++ acc)
  end.

Definition resolve (cwd : string) (paths : list string) : string :=
  render (normalizeString false (segments (resolve_onto cwd (rev paths) ""))).

Definition ends_with_slash (path : string) : bool :=
  match rev (list_ascii_of_string path) with
  | c :: _ => Ascii.eqb c slash
  | [] => false
  end.

Definition normalize (path : string) : string :=
  if path =? "" then "."
  else
    let segs := normalizeString (negb (isAbsolute path)) (segments path) in
    let body := String.concat "/" segs in
    if body =? "" then
      if isAbsolute path then "/"
      else if ends_with_slash path then "./" else "."
    else
      let body := if ends_with_slash path then (body ++ "/")%string else body in
      if isAbsolute path then String slash body else body.

Definition join (a b : string) : string :=
  match List.filter Boolean [a; b] with
  | [] => "."
  | parts => normalize (String.concat "/" parts)
  end.

Fixpoint drop_while {A} (f : A -> bool) (l : list A) : list A :=
  match l with
  | [] => []
  | x :: t => if f x then drop_while f t else l
  end.

(** [dirname]: scanning from the end down to index 1, skip the trailing
    slashes and the last segment; what is left up to the slash found is the
    result. *)
Definition dirname (path : string) : string :=
  match path with
  | EmptyString => "."
  | String c0 tail =>
      let hasRoot := Ascii.eqb c0 slash in
      let r := rev (list_ascii_of_string tail) in
      let r := drop_while (fun c => Ascii.eqb c slash) r in
      let r := drop_while (fun c => negb (Ascii.eqb c slash)) r in
      match r with
      | [] => if hasRoot then "/" else "."
      | _ :: before =>
          match before with
          | [] => if hasRoot then "//" else String c0 EmptyString
          | _ => String c0 (string_of_list_ascii (rev before))
          end
      end
  end.

Definition parse_root (path : string) : string :=
  if isAbsolute path then "/" else "".

End Posix.

(** Modelled from the spec: the [path] module ([resolve], [dirname], [join],
    [isAbsolute], [parse], [sep]) is not among the sources; the spec relies
    on its "absolute canonical form", on the "parent" of a path and on the
    "root of its own path decomposition".  This instance is the POSIX
    flavour, for a process whose working directory is [cwd]. *)
Definition posix_path (cwd : string) : PathApi := {|
  sep := Posix.slash;
  resolve := Posix.resolve cwd;
  dirname := Posix.dirname;
  join := Posix.join;
  isAbsolute := Posix.isAbsolute;
  parse_root := Posix.parse_root
|}.

(** ** An in-memory filesystem

    Entries are keyed by their resolved absolute path, [readdir] lists in
    entry order, symbolic links are followed in every component, [chmod]
    keeps the file-type bits, opening with ['r+'] needs the owner-write bit,
    and the calls named in [failing] fail with [EIO]. *)

Module MemFs.

Inductive Node :=
| NFile (mode atime mtime ino : Z) (data : string)
| NDir (mode ino : Z)
| NLink (target : string) (ino : Z)
| NSocket (ino : Z)
| NFifo (ino : Z).

Record World := mkWorld {
  nodes : list (string * Node);
  fds : list (Fd * string);
  next_fd : Fd;
  next_ino : Z;
  clock : Z;
  failing : list string
}.

Fixpoint find_node (key : string) (ns : list (string * Node)) : option Node :=
  match ns with
  | [] => None
  | (k, n) :: rest => if k =? key then Some n else find_node key rest
  end.

Fixpoint set_node (key : string) (n : Node) (ns : list (string * Node))
  : list (string * Node) :=
  match ns with
  | [] => [(key, n)]
  | (k, n') :: rest =>
      if k =? key then (k, n) :: rest else (k, n') :: set_node key n rest
  end.

Definition remove_node (key : string) (ns : list (string * Node))
  : list (string * Node) :=
  List.filter (fun kn => negb (fst kn =? key)) ns.

(** Path lookup from the directory [dir] (resolved segments) along [segs];
    [follow] tells whether a link in the last component is followed. *)
Fixpoint namei (fuel : nat) (ns : list (string * Node)) (dir segs : list string)
  (follow : bool) : Sys (list string) :=
  match fuel with
  | O => SysErr "ELOOP"
  | S fuel' =>
      match segs with
      | [] => SysOk dir
      | s :: rest =>
          if s =? "." then namei fuel' ns dir rest follow
          else if s =? ".." then namei fuel' ns (removelast dir) rest follow
          else
            let here := dir ++ [s] in
            match find_node (Posix.render here) ns with
            | None =>
                match rest with
                | [] => SysOk here
                | _ => SysErr "ENOENT"
                end
            | Some (NLink target _) =>
                match rest, follow with
                | [], false => SysOk here
                | _, _ =>
                    namei fuel' ns
                      (if Posix.isAbsolute target then [] else dir)
                      (Posix.segments target ++ rest) follow
                end
            | Some (NDir _ _) => namei fuel' ns here rest follow
            | Some _ =>
                match rest with
                | [] => SysOk here
                | _ => SysErr "ENOTDIR"
                end
            end
      end
  end.

Definition locate (cwd path : string) (follow : bool) (w : World)
  : Sys string :=
  if path =? "" then SysErr "ENOENT"
  else
    let full := if Posix.isAbsolute path then path
                else (cwd ++ "/" ++ path)%string in
    match namei 64 (nodes w) [] (Posix.segments full) follow with
    | SysOk segs => SysOk (Posix.render segs)
    | SysErr code => SysErr code
    end.

Definition stat_of (n : Node) : Stats :=
  match n with
  | NFile mode atime mtime ino _ => mkStats KFile mode atime mtime 1 ino
  | NDir mode ino => mkStats KDirectory mode 0 0 1 ino
  | NLink _ ino => mkStats KSymbolicLink 41471 0 0 1 ino
  | NSocket ino => mkStats KSocket 49645 0 0 1 ino
  | NFifo ino => mkStats KFIFO 4516 0 0 1 ino
  end.

Definition stat_with (follow : bool) (cwd path : string) (w : World)
  : Sys Stats :=
  match locate cwd path follow w with
  | SysErr code => SysErr code
  | SysOk key =>
      match find_node key (nodes w) with
      | Some n => SysOk (stat_of n)
      | None => SysErr "ENOENT"
      end
  end.

Definition readlink (cwd path : string) (w : World) : Sys string :=
  match locate cwd path false w with
  | SysErr code => SysErr code
  | SysOk key =>
      match find_node key (nodes w) with
      | Some (NLink target _) => SysOk target
      | Some _ => SysErr "EINVAL"
      | None => SysErr "ENOENT"
      end
  end.

(** The name of [key] when it is a direct child of the directory with
    segments [dsegs]. *)
Definition child_name (dsegs : list string) (key : string) : option string :=
  let ks := Posix.segments key in
  if (length ks =? S (length dsegs))%nat &&
     forallb (fun ab => fst ab =? snd ab) (combine dsegs ks)
  then nth_error ks (length dsegs)
  else None.

Fixpoint children (dsegs : list string) (ns : list (string * Node))
  : list string :=
  match ns with
  | [] => []
  | (k, _) :: rest =>
      match child_name dsegs k with
      | Some name => name :: children dsegs rest
      | None => children dsegs rest
      end
  end.

Definition readdir (cwd path : string) (w : World) : Sys (list string) :=
  match locate cwd path true w with
  | SysErr code => SysErr code
  | SysOk key =>
      match find_node key (nodes w) with
      | Some (NDir _ _) => SysOk (children (Posix.segments key) (nodes w))
      | Some _ => SysErr "ENOTDIR"
      | None => SysErr "ENOENT"
      end
  end.

Definition with_nodes (ns : list (string * Node)) (w : World) : World :=
  mkWorld ns (fds w) (next_fd w) (next_ino w) (clock w) (failing w).

Definition fails (call : string) (w : World) : bool :=
  existsb (fun c => c =? call) (failing w).

Definition add_node (key : string) (mk : Z -> Node) (w : World) : World :=
  mkWorld (set_node key (mk (next_ino w)) (nodes w)) (fds w) (next_fd w)
    (next_ino w + 1)%Z (clock w + 1)%Z (failing w).

Definition mkdir_one (cwd path : string) (w : World) : Sys unit * World :=
  match locate cwd path false w with
  | SysErr code => (SysErr code, w)
  | SysOk key =>
      match find_node key (nodes w) with
      | Some _ => (SysErr "EEXIST", w)
      | None => (SysOk tt, add_node key (NDir 16877) w)
      end
  end.

(** [mkdir -p]: every prefix of the resolved path that is absent is created,
    outermost first. *)
Fixpoint mkdir_prefixes (cwd : string) (done todo : list string) (w : World)
  : Sys unit * World :=
  match todo with
  | [] => (SysOk tt, w)
  | s :: rest =>
      let here := done ++ [s] in
      match stat_with true cwd (Posix.render here) w with
      | SysOk st =>
          if isDirectory st then mkdir_prefixes cwd here rest w
          else (SysErr "ENOTDIR", w)
      | SysErr _ =>
          match mkdir_one cwd (Posix.render here) w with
          | (SysOk _, w') => mkdir_prefixes cwd here rest w'
          | (SysErr code, w') => (SysErr code, w')
          end
      end
  end.

Definition mkdir (cwd path : string) (recursive : bool) (w : World)
  : Sys unit * World :=
  if fails "mkdir" w then (SysErr "EIO", w)
  else if recursive then
    mkdir_prefixes cwd [] (Posix.segments (Posix.resolve cwd [path])) w
  else mkdir_one cwd path w.

Definition unlink (cwd path : string) (w : World) : Sys unit * World :=
  if fails "unlink" w then (SysErr "EIO", w)
  else
    match locate cwd path false w with
    | SysErr code => (SysErr code, w)
    | SysOk key =>
        match find_node key (nodes w) with
        | None => (SysErr "ENOENT", w)
        | Some (NDir _ _) => (SysErr "EISDIR", w)
        | Some _ => (SysOk tt, with_nodes (remove_node key (nodes w)) w)
        end
    end.

(** The source is read (its [atime] moves); the destination gets the
    source's data and mode. *)
Definition copyFile (cwd src dest : string) (w : World) : Sys unit * World :=
  if fails "copyFile" w then (SysErr "EIO", w)
  else
    match locate cwd src true w, locate cwd dest true w with
    | SysErr code, _ => (SysErr code, w)
    | _, SysErr code => (SysErr code, w)
    | SysOk skey, SysOk dkey =>
        match find_node skey (nodes w) with
        | Some (NFile smode _ smtime sino data) =>
            let now := clock w in
            let ns := set_node skey (NFile smode now smtime sino data)
                        (nodes w) in
            match find_node dkey (nodes w) with
            | None =>
                (SysOk tt,
                 mkWorld (set_node dkey (NFile smode now now (next_ino w) data)
                            ns)
                   (fds w) (next_fd w) (next_ino w + 1)%Z (now + 1)%Z
                   (failing w))
            | Some (NFile dmode _ _ dino _) =>
                if (Z.land dmode 128 =? 0)%Z then (SysErr "EACCES", w)
                else
                  (SysOk tt,
                   mkWorld (set_node dkey (NFile smode now now dino data) ns)
                     (fds w) (next_fd w) (next_ino w) (now + 1)%Z (failing w))
            | Some (NDir _ _) => (SysErr "EISDIR", w)
            | Some _ => (SysErr "EINVAL", w)
            end
        | Some (NDir _ _) => (SysErr "EISDIR", w)
        | Some _ => (SysErr "EINVAL", w)
        | None => (SysErr "ENOENT", w)
        end
    end.

Definition chmod (cwd path : string) (m : Z) (w : World) : Sys unit * World :=
  if fails "chmod" w then (SysErr "EIO", w)
  else
    match locate cwd path true w with
    | SysErr code => (SysErr code, w)
    | SysOk key =>
        let bits old := Z.lor (Z.land old 61440) (Z.land m 4095) in
        match find_node key (nodes w) with
        | Some (NFile mode atime mtime ino data) =>
            (SysOk tt,
             with_nodes (set_node key (NFile (bits mode) atime mtime ino data)
                           (nodes w)) w)
        | Some (NDir mode ino) =>
            (SysOk tt,
             with_nodes (set_node key (NDir (bits mode) ino) (nodes w)) w)
        | Some _ => (SysOk tt, w)
        | None => (SysErr "ENOENT", w)
        end
    end.

Definition symlink (cwd target path : string) (w : World)
  : Sys unit * World :=
  if fails "symlink" w then (SysErr "EIO", w)
  else
    match locate cwd path false w with
    | SysErr code => (SysErr code, w)
    | SysOk key =>
        match find_node key (nodes w) with
        | Some _ => (SysErr "EEXIST", w)
        | None => (SysOk tt, add_node key (NLink target) w)
        end
    end.

Definition open (cwd path flags : string) (w : World) : Sys Fd * World :=
  if fails "open" w then (SysErr "EIO", w)
  else
    match locate cwd path true w with
    | SysErr code => (SysErr code, w)
    | SysOk key =>
        match find_node key (nodes w) with
        | Some (NFile mode _ _ _ _) =>
            if (flags =? "r+") && (Z.land mode 128 =? 0)%Z
            then (SysErr "EPERM", w)
            else
              (SysOk (next_fd w),
               mkWorld (nodes w) ((next_fd w, key) :: fds w) (next_fd w + 1)%Z
                 (next_ino w) (clock w) (failing w))
        | Some (NDir _ _) => (SysErr "EISDIR", w)
        | Some _ => (SysErr "EINVAL", w)
        | None => (SysErr "ENOENT", w)
        end
    end.

Fixpoint fd_key (fd : Fd) (l : list (Fd * string)) : option string :=
  match l with
  | [] => None
  | (f, k) :: rest => if (f =? fd)%Z then Some k else fd_key fd rest
  end.

Definition futimes (fd : Fd) (a m : Z) (w : World) : Sys unit * World :=
  if fails "futimes" w then (SysErr "EIO", w)
  else
    match fd_key fd (fds w) with
    | None => (SysErr "EBADF", w)
    | Some key =>
        match find_node key (nodes w) with
        | Some (NFile mode _ _ ino data) =>
            (SysOk tt,
             with_nodes (set_node key (NFile mode a m ino data) (nodes w)) w)
        | _ => (SysOk tt, w)
        end
    end.

Definition close (fd : Fd) (w : World) : Sys unit * World :=
  match fd_key fd (fds w) with
  | None => (SysErr "EBADF", w)
  | Some _ =>
      (SysOk tt,
       mkWorld (nodes w) (List.filter (fun fk => negb (fst fk =? fd)%Z) (fds w))
         (next_fd w) (next_ino w) (clock w) (failing w))
  end.

End MemFs.

(** Modelled from the spec: the ambient filesystem API (stat, lstat, open,
    mkdir, symlink, readlink, unlink, chmod, futimes, readdir, copy-file) is
    not among the sources and the spec leaves it out of scope.  This
    instance, for a process whose working directory is [cwd], is the one
    the concrete runs use. *)
Definition mem_fs (cwd : string) : FsApi MemFs.World := {|
  fs_stat := MemFs.stat_with true cwd;
  fs_lstat := MemFs.stat_with false cwd;
  fs_readlink := MemFs.readlink cwd;
  fs_readdir := MemFs.readdir cwd;
  fs_mkdir := MemFs.mkdir cwd;
  fs_unlink := MemFs.unlink cwd;
  fs_copyFile := MemFs.copyFile cwd;
  fs_chmod := MemFs.chmod cwd;
  fs_symlink := MemFs.symlink cwd;
  fs_open := MemFs.open cwd;
  fs_futimes := MemFs.futimes;
  fs_close := MemFs.close
|}.

Definition node_env (cwd arch : string) : ProcessEnv := {|
  process_cwd := cwd;
  process_arch := arch
|}.

(** The files open in a world: the descriptors not yet closed. *)
Definition open_fds (w : MemFs.World) : list Fd := map fst (MemFs.fds w).

(** ** Reference statements

    Definitions that follow the specification's wording; the dialects above
    are compared with them. *)

Definition Errno_name (n : Errno) : string :=
  match n with
  | EEXIST => "EEXIST"
  | EISDIR => "EISDIR"
  | EINVAL => "EINVAL"
  | ENOTDIR => "ENOTDIR"
  end.

(** [r] is the error [c], carrying the errno [n] (as its [code] and its
    [errno]), the path [path] and the syscall ['copy']. *)
Definition raises {A} (r : Res A) (c : ErrCode) (n : Errno) (path : string)
  : Prop :=
  exists msg,
    r = Throw (NodeError c (mkInfo (Errno_name n) msg path "copy" n)).

(** The first rule whose condition holds. *)
Fixpoint first_match {A} (rules : list (bool * A)) : option A :=
  match rules with
  | [] => None
  | (true, a) :: _ => Some a
  | (false, _) :: rest => first_match rest
  end.

(** "[dest] exists and ...": a condition on the destination's stat. *)
Definition dest_is (destStat : option Stats) (p : Stats -> bool) : bool :=
  match destStat with
  | Some d => p d
  | None => false
  end.

(** The four rules of [checkPaths], in the specification's priority
    order. *)
Definition checkPaths_rules {P : PathApi} (src dest : string)
  (srcStat : Stats) (destStat : option Stats)
  : list (bool * (ErrCode * Errno)) :=
  [ (dest_is destStat (Copy.areIdentical srcStat),
     (ERR_FS_COPY_TO_SUBDIRECTORY, EINVAL));
    (isDirectory srcStat && dest_is destStat (fun d => negb (isDirectory d)),
     (ERR_FS_COPY_DIR_TO_NON_DIR, EISDIR));
    (negb (isDirectory srcStat) && dest_is destStat isDirectory,
     (ERR_FS_COPY_NON_DIR_TO_DIR, ENOTDIR));
    (isDirectory srcStat && Copy.isSrcSubdir src dest,
     (ERR_FS_COPY_TO_SUBDIRECTORY, EINVAL)) ].

(** A computation only appends to the trace. *)
Definition extends {W A} (m : M W A) : Prop :=
  forall st, exists rest, trace (snd (m st)) = trace st ++ rest.

(** A computation's first recorded call is [ev]. *)
Definition starts_with {W A} (ev : Event) (m : M W A) : Prop :=
  forall st, exists rest, trace (snd (m st)) = trace st ++ ev :: rest.

(** The link target the promise dialect passes to [symlink]: a target that
    is not absolute is resolved against the directory of [src]. *)
Definition anchored_target {P : PathApi} (src target : string) : string :=
  if isAbsolute target then target else resolve [dirname src; target].

(** The ancestor walk, as the specification words it.  [Walk src srcStat w
    dest r]: walking up from [dest] in the world [w] ends with [r].  The
    ancestor looked at is the parent of the current path; each step up
    replaces the current path by that parent. *)
Section WalkSpec.
Context {World : Type} {FS : FsApi World} {P : PathApi}.

(** The walk goes on to stat the parent of [dest]: it is neither the
    parent of [src] nor the root of its own decomposition. *)
Definition walk_on (src dest : string) : Prop :=
  resolve [dirname dest] <> resolve [dirname src] /\
  resolve [dirname dest] <> parse_root (resolve [dirname dest]).

Inductive Walk (src : string) (srcStat : Stats) (w : World)
  : string -> Res unit -> Prop :=
| Walk_src_parent dest :
    resolve [dirname dest] = resolve [dirname src] ->
    Walk src srcStat w dest (Ok tt)
| Walk_root dest :
    resolve [dirname dest] = parse_root (resolve [dirname dest]) ->
    Walk src srcStat w dest (Ok tt)
| Walk_absent dest :
    walk_on src dest ->
    fs_stat (resolve [dirname dest]) w = SysErr "ENOENT" ->
    Walk src srcStat w dest (Ok tt)
| Walk_error dest code :
    walk_on src dest ->
    fs_stat (resolve [dirname dest]) w = SysErr code ->
    code <> "ENOENT" ->
    Walk src srcStat w dest (Throw (SystemError code))
| Walk_identical dest destStat :
    walk_on src dest ->
    fs_stat (resolve [dirname dest]) w = SysOk destStat ->
    Copy.areIdentical srcStat destStat = true ->
    Walk src srcStat w dest
      (Throw (NodeError ERR_FS_COPY_TO_SUBDIRECTORY
                (mkInfo "EINVAL"
                   ("cannot copy " ++ src ++ " to a subdirectory of self " ++
                    dest)
                   dest "copy" EINVAL)))
| Walk_up dest destStat r :
    walk_on src dest ->
    fs_stat (resolve [dirname dest]) w = SysOk destStat ->
    Copy.areIdentical srcStat destStat = false ->
    Walk src srcStat w (resolve [dirname dest]) r ->
    Walk src srcStat w dest r.
End WalkSpec.

(** What the callback of a callback-style call receives for the outcome [r]
    of the same call in direct style. *)
Definition delivered {W A} (r : Res A) (cb : Cb W A) (st : St W)
  : Final W :=
  match r with
  | Ok a => cb (CbOk a) st
  | Throw e => cb (CbErr e) st
  | OutOfFuel => FuelOut
  end.

(** A segment of a resolved path: not empty, without a slash, and neither
    [.] nor [..]. *)
Definition no_slash (s : string) : Prop :=
  forall c, In c (list_ascii_of_string s) -> c <> Posix.slash.

Definition clean (s : string) : Prop :=
  s <> "" /\ no_slash s /\ s <> "." /\ s <> "..".


(** ** Processing the children of a directory

    [forEach] (above) is the reference for "one child after the other, in
    list order" in direct style; [forEachK] is the same in
    continuation-passing style. *)
Fixpoint forEachK {W} (items : list string)
  (f : string -> Cb W unit -> K W) (cb : Cb W unit) : K W :=
  match items with
  | [] => cb (CbOk tt)
  | item :: rest =>
      f item (fun r =>
        match r with
        | CbErr err => cb (CbErr err)
        | CbOk _ => forEachK rest f cb
        end)
  end.

(** The names up to the first empty one. *)
Fixpoint take_truthy (items : list string) : list string :=
  match items with
  | [] => []
  | item :: rest => if Boolean item then item :: take_truthy rest else []
  end.

(** The order in which the callback dialect takes the children: from the
    end of the array, until it is empty or an empty name is popped. *)
Definition callback_order (items : list string) : list string :=
  take_truthy (rev items).

Section ChildSteps.
Context {World : Type} {FS : FsApi World} {P : PathApi}.

(** What each dialect does for one child [item] of [src]: pre-flight on the
    pair of children, then the copy. *)
Definition promise_child
  (rec : option Stats -> string -> string -> Opts World -> M World unit)
  (src dest : string) (opts : Opts World) (item : string) : M World unit :=
  bind (Copy.checkPaths (join src item) (join dest item) opts)
    (fun stats =>
       Copy.startCopy rec (snd stats) (join src item) (join dest item) opts).

Definition sync_child
  (rec : option Stats -> string -> string -> Opts World -> M World unit)
  (src dest : string) (opts : Opts World) (item : string) : M World unit :=
  bind (CopySync.checkPathsSync (join src item) (join dest item) opts)
    (fun stats =>
       CopySync.startCopy rec (snd stats) (join src item) (join dest item)
         opts).

Definition callback_child
  (rec : option Stats -> string -> string -> Opts World -> Cb World unit ->
         K World)
  (src dest : string) (opts : Opts World) (item : string)
  (cb : Cb World unit) : K World :=
  CopyCb.checkPaths (join src item) (join dest item) opts (fun r =>
    match r with
    | CbErr err => cb (CbErr err)
    | CbOk stats =>
        CopyCb.startCopy rec (snd stats) (join src item) (join dest item)
          opts cb
    end).
End ChildSteps.

(** The events each child adds to the trace, child by child, when [f] is
    run over [items] from [st]; the run ends at the first child that does
    not return. *)
Fixpoint child_traces {W} (f : string -> M W unit) (items : list string)
  (st : St W) : list (string * list Event) :=
  match items with
  | [] => []
  | item :: rest =>
      let (r, st') := f item st in
      (item, skipn (length (trace st)) (trace st')) ::
      match r with
      | Ok _ => child_traces f rest st'
      | _ => []
      end
  end.

(** *** Callback-style operations as runs

    [run_cb f st] runs [f] with a callback that only records what it is
    given. *)
Definition run_cb {W} (f : Cb W unit -> K W) (st : St W) : Final W :=
  f (fun r s => Called r s) st.

(** What follows a finished run when the callback is [cb]. *)
Definition then_cb {W} (x : Final W) (cb : Cb W unit) : Final W :=
  match x with
  | Called r st => cb r st
  | Uncaught msg st => Uncaught msg st
  | FuelOut => FuelOut
  end.

(** The run [x], started in [st], only appended to the trace. *)
Definition grows {W} (st : St W) (x : Final W) : Prop :=
  match x with
  | Called _ st' => exists rest, trace st' = trace st ++ rest
  | Uncaught _ st' => exists rest, trace st' = trace st ++ rest
  | FuelOut => True
  end.

(** [f] calls its callback at most once, as the last thing it does, and
    only appends to the trace. *)
Definition well_behaved {W} (f : Cb W unit -> K W) : Prop :=
  forall st, exists x, (forall cb, f cb st = then_cb x cb) /\ grows st x.

(** The final trace of a run, if it did not run out of fuel. *)
Definition final_trace {W} (x : Final W) : option (list Event) :=
  match x with
  | Called _ st => Some (trace st)
  | Uncaught _ st => Some (trace st)
  | FuelOut => None
  end.

(** The events each child adds, child by child, when the callback-style
    [f] is run over [items] from [st]. *)
Fixpoint child_traces_cb {W} (f : string -> Cb W unit -> K W)
  (items : list string) (st : St W) : list (string * list Event) :=
  match items with
  | [] => []
  | item :: rest =>
      match run_cb (f item) st with
      | Called r st' =>
          (item, skipn (length (trace st)) (trace st')) ::
          match r with
          | CbOk _ => child_traces_cb f rest st'
          | CbErr _ => []
          end
      | Uncaught _ st' => [(item, skipn (length (trace st)) (trace st'))]
      | FuelOut => []
      end
  end.

(** ** Concrete runs

    A process with working directory [/w] on the in-memory filesystem. *)

Definition cwd0 : string := "/w".
Definition fs0 : FsApi MemFs.World := mem_fs cwd0.
Definition path0 : PathApi := posix_path cwd0.
Definition env0 : ProcessEnv := node_env cwd0 "x64".

Definition no_opts : Opts MemFs.World :=
  mkOpts false false false false false None.

(** [/a/d] is a directory; [/a/l] is a link to [/q], so that [/a/l/../d]
    names [/d], which does not exist. *)
Definition world_dotdot : MemFs.World :=
  MemFs.mkWorld
    [("/", MemFs.NDir 16877 1); ("/w", MemFs.NDir 16877 2);
     ("/a", MemFs.NDir 16877 3); ("/a/d", MemFs.NDir 16877 4);
     ("/q", MemFs.NDir 16877 5); ("/a/l", MemFs.NLink "/q" 6)]
    [] 3%Z 7%Z 100%Z [].

(** As [world_dotdot], with a regular file at [/d]: [/a/l/../d] names that
    file, although the string resolves to [/a/d]. *)
Definition world_dotdot_file : MemFs.World :=
  MemFs.mkWorld
    [("/", MemFs.NDir 16877 1); ("/w", MemFs.NDir 16877 2);
     ("/a", MemFs.NDir 16877 3); ("/a/d", MemFs.NDir 16877 4);
     ("/q", MemFs.NDir 16877 5); ("/a/l", MemFs.NLink "/q" 6);
     ("/d", MemFs.NFile 33188 10 20 7 "data")]
    [] 3%Z 8%Z 100%Z [].

(** Copying flags: [force] and [overwrite] both set. *)
Definition force_opts : Opts MemFs.World :=
  mkOpts false false true true false None.

(** [preserveTimestamps] set. *)
Definition timestamp_opts : Opts MemFs.World :=
  mkOpts false true false false false None.

(** [/k/a.txt] is to be copied onto the existing [/out/a.txt]. *)
Definition world_existing : MemFs.World :=
  MemFs.mkWorld
    [("/", MemFs.NDir 16877 1); ("/w", MemFs.NDir 16877 2);
     ("/k", MemFs.NDir 16877 3);
     ("/k/a.txt", MemFs.NFile 33188 10 20 4 "new");
     ("/out", MemFs.NDir 16877 5);
     ("/out/a.txt", MemFs.NFile 33188 11 21 6 "old")]
    [] 3%Z 7%Z 100%Z [].

(** [/k/foo.txt] has mode 0o100444: nobody may write it. *)
Definition world_readonly : MemFs.World :=
  MemFs.mkWorld
    [("/", MemFs.NDir 16877 1); ("/w", MemFs.NDir 16877 2);
     ("/k", MemFs.NDir 16877 3);
     ("/k/foo.txt", MemFs.NFile 33060 10 20 4 "foo");
     ("/out", MemFs.NDir 16877 5)]
    [] 3%Z 6%Z 100%Z [].

(** The same, on a disk where [futimes] fails with EIO. *)
Definition world_futimes_fails : MemFs.World :=
  MemFs.mkWorld (MemFs.nodes world_readonly) [] 3%Z 6%Z 100%Z ["futimes"].


(** [/s/l] is a link to the directory [/d/x]; [/t/l] is a link to its
    parent [/d]. *)
Definition world_links : MemFs.World :=
  MemFs.mkWorld
    [("/", MemFs.NDir 16877 1); ("/w", MemFs.NDir 16877 2);
     ("/s", MemFs.NDir 16877 3); ("/s/l", MemFs.NLink "/d/x" 4);
     ("/t", MemFs.NDir 16877 5); ("/t/l", MemFs.NLink "/d" 6);
     ("/d", MemFs.NDir 16877 7); ("/d/x", MemFs.NDir 16877 8)]
    [] 3%Z 9%Z 100%Z [].

(** [/s/rel] is a link with the relative target [t] (the file [/s/t]);
    [/s/abs] is a link with the absolute target [/d//x]. *)
Definition world_targets : MemFs.World :=
  MemFs.mkWorld
    [("/", MemFs.NDir 16877 1); ("/w", MemFs.NDir 16877 2);
     ("/s", MemFs.NDir 16877 3); ("/s/t", MemFs.NFile 33188 10 20 4 "t");
     ("/s/rel", MemFs.NLink "t" 5); ("/s/abs", MemFs.NLink "/d//x" 6);
     ("/d", MemFs.NDir 16877 7); ("/d/x", MemFs.NDir 16877 8);
     ("/out", MemFs.NDir 16877 9)]
    [] 3%Z 10%Z 100%Z [].

(** [/dst/b] is a link to the directory [/src]: [/dst/b/c] lies inside
    [/src] under another name. *)
Definition world_alias : MemFs.World :=
  MemFs.mkWorld
    [("/", MemFs.NDir 16877 1); ("/w", MemFs.NDir 16877 2);
     ("/src", MemFs.NDir 16877 3); ("/src/a", MemFs.NDir 16877 4);
     ("/dst", MemFs.NDir 16877 5); ("/dst/b", MemFs.NLink "/src" 6)]
    [] 3%Z 7%Z 100%Z [].

(** The depth of a POSIX path: the number of its segments. *)
Definition posix_depth (p : string) : nat := length (Posix.segments p).

(** [/k] holds two files; [readdir] lists [a.txt] before [b.txt]. *)
Definition world_two : MemFs.World :=
  MemFs.mkWorld
    [("/", MemFs.NDir 16877 1); ("/w", MemFs.NDir 16877 2);
     ("/k", MemFs.NDir 16877 3);
     ("/k/a.txt", MemFs.NFile 33188 10 20 4 "A");
     ("/k/b.txt", MemFs.NFile 33188 11 21 5 "B")]
    [] 3%Z 6%Z 100%Z [].

(** [/k] holds the file [a.txt] and the socket [z.sock], listed in this
    order; at the destination [/out/a.txt] is a directory. *)
Definition world_order : MemFs.World :=
  MemFs.mkWorld
    [("/", MemFs.NDir 16877 1); ("/w", MemFs.NDir 16877 2);
     ("/k", MemFs.NDir 16877 3);
     ("/k/a.txt", MemFs.NFile 33188 10 20 4 "A");
     ("/k/z.sock", MemFs.NSocket 5);
     ("/out", MemFs.NDir 16877 6);
     ("/out/a.txt", MemFs.NDir 16877 7)]
    [] 3%Z 8%Z 100%Z [].

(** [/k/foo.txt] with mode [m], times [at] and [mt] and content [data];
    [/out] exists and is empty. *)
Definition world_file (m at_ mt : Z) (data : string) : MemFs.World :=
  MemFs.mkWorld
    [("/", MemFs.NDir 16877 1); ("/w", MemFs.NDir 16877 2);
     ("/k", MemFs.NDir 16877 3);
     ("/k/foo.txt", MemFs.NFile m at_ mt 4 data);
     ("/out", MemFs.NDir 16877 5)]
    [] 3%Z 6%Z 100%Z [].

(** The same after [/k/foo.txt] was copied to [/out/foo.txt] with its
    timestamps: the read moved the source's [atime] to the clock (100). *)
Definition world_file_copied (m mt : Z) (data : string) : MemFs.World :=
  MemFs.mkWorld
    [("/", MemFs.NDir 16877 1); ("/w", MemFs.NDir 16877 2);
     ("/k", MemFs.NDir 16877 3);
     ("/k/foo.txt", MemFs.NFile m 100 mt 4 data);
     ("/out", MemFs.NDir 16877 5);
     ("/out/foo.txt", MemFs.NFile m 100 mt 6 data)]
    [] 4%Z 7%Z 101%Z [].

(** The worlds in between: [/out/foo.txt] exists with mode [dmode] and times
    [da], [dm]; [open] lists the open descriptors. *)
Definition world_file_mid (m mt : Z) (data : string) (dmode da dm : Z)
  (open : list (Fd * string)) (next : Fd) : MemFs.World :=
  MemFs.mkWorld
    [("/", MemFs.NDir 16877 1); ("/w", MemFs.NDir 16877 2);
     ("/k", MemFs.NDir 16877 3);
     ("/k/foo.txt", MemFs.NFile m 100 mt 4 data);
     ("/out", MemFs.NDir 16877 5);
     ("/out/foo.txt", MemFs.NFile dmode da dm 6 data)]
    open next 7%Z 101%Z [].

(** ** Further reference statements *)

(** The stat call the engine applies to a path: [stat] under
    [opts.dereference], [lstat] otherwise. *)
Definition stat_for {World : Type} {FS : FsApi World} (opts : Opts World)
  (path : string) (w : World) : Sys Stats :=
  if dereference opts then fs_stat path w else fs_lstat path w.

(** The file types the dispatcher refuses, with the error of each. *)
Definition unsupported_kind (k : Kind) : option ErrCode :=
  match k with
  | KSocket => Some ERR_FS_COPY_SOCKET
  | KFIFO => Some ERR_FS_COPY_FIFO_PIPE
  | KUnknown => Some ERR_FS_COPY_UNKNOWN
  | _ => None
  end.

(** The warning [copyFn] and [copySyncFn] emit before anything else, and
    the one the callback dialect prints. *)
Definition warning_events {World : Type} {E : ProcessEnv} (opts : Opts World)
  : list Event :=
  if preserveTimestamps opts && (process_arch =? "ia32") then
    [EvWarning
       ("Using the preserveTimestamps option in 32-bit" ++
        "node is not recommended")
       "TimestampPrecisionWarning"]
  else [].

Definition console_warning_events {World : Type} {E : ProcessEnv}
  (opts : Opts World) : list Event :=
  if preserveTimestamps opts && (process_arch =? "ia32") then
    [EvWarning
       ("Using the preserveTimestamps option in 32-bit" ++
        "node is not recommended; see" ++
        "https://github.com/jprichardson/node-fs-extra/issues/269")
       "console.warn"]
  else [].

(** The two pre-flight checks of an entry point, one after the other. *)
Definition preflight {World : Type} {FS : FsApi World} {P : PathApi}
  (fuel : nat) (src dest : string) (opts : Opts World) : M World unit :=
  bind (Copy.checkPaths src dest opts)
    (fun stats => Copy.checkParentPaths fuel src (fst stats) dest).

(** [/k/sock] is a socket and [/k/pipe] a FIFO; [/out] is empty. *)
Definition world_special : MemFs.World :=
  MemFs.mkWorld
    [("/", MemFs.NDir 16877 1); ("/w", MemFs.NDir 16877 2);
     ("/k", MemFs.NDir 16877 3); ("/k/sock", MemFs.NSocket 4);
     ("/k/pipe", MemFs.NFifo 5); ("/out", MemFs.NDir 16877 6)]
    [] 3%Z 7%Z 100%Z [].

(** Running [checkPaths] on the pairs of children of [src] and [dest], one
    after the other, and nothing else. *)
Definition validate_children {World : Type} {FS : FsApi World} {P : PathApi}
  (src dest : string) (opts : Opts World) (items : list string)
  : M World unit :=
  forEach items
    (fun item =>
       bind (Copy.checkPaths (join src item) (join dest item) opts)
         (fun _ => ret tt)).

(** The filter lets the pair through (no filter lets everything through). *)
Definition accepted {World : Type} (opts : Opts World) (src dest : string)
  (w : World) : bool :=
  match filter opts with
  | Some f => f src dest w
  | None => true
  end.

(** [/out/sub], the parent of the destination, does not exist yet. *)
Definition world_no_parent : MemFs.World :=
  MemFs.mkWorld
    [("/", MemFs.NDir 16877 1); ("/w", MemFs.NDir 16877 2);
     ("/k", MemFs.NDir 16877 3);
     ("/k/foo.txt", MemFs.NFile 33188 10 20 4 "foo");
     ("/out", MemFs.NDir 16877 5)]
    [] 3%Z 6%Z 100%Z [].

(** A filter that rejects every pair. *)
Definition reject_all_opts : Opts MemFs.World :=
  mkOpts false false false false false (Some (fun _ _ _ => false)).

(** The calls of a file copy in which every call succeeds: the byte copy;
    with [preserveTimestamps], the transient [chmod] of a source that is
    not writable and the three descriptor calls; the final [chmod]. *)
Definition file_copy_events {World : Type} (srcStat : Stats)
  (src dest : string) (opts : Opts World) (fd : Fd) (updated : Stats)
  : list Event :=
  EvCopyFile src dest ::
  (if preserveTimestamps opts then
     (if Copy.fileIsNotWritable (mode srcStat)
      then [EvChmod dest (Z.lor (ToInt32 (mode srcStat)) 128)] else []) ++
     [EvOpen dest "r+";
      EvFutimes fd (atime updated) (mtime updated);
      EvClose fd]
   else []) ++
  [EvChmod dest (mode srcStat)].

(** The link target the blocking and the callback dialects go on with:
    resolved against the working directory under [opts.dereference], as
    read otherwise. *)
Definition cwd_target {World : Type} {P : PathApi} {E : ProcessEnv}
  (opts : Opts World) (target : string) : string :=
  if dereference opts then resolve [process_cwd; target] else target.

(** ** Where the engine writes

    The pairs of paths the recursion visits: [src] and [dest], and with a
    pair the pairs of its children of the same name. *)
Inductive Mirrored {P : PathApi} (src dest : string)
  : string -> string -> Prop :=
| Mirrored_root : Mirrored src dest src dest
| Mirrored_child s d item :
    Mirrored src dest s d -> Mirrored src dest (join s item) (join d item).

(** A call of the recursion: a byte copy goes from a visited source path
    to its destination path, every other call that names a path names a
    visited destination path, and no directory is created recursively. *)
Definition mirrored_event {P : PathApi} (src dest : string) (ev : Event)
  : Prop :=
  match ev with
  | EvCopyFile s d => Mirrored src dest s d
  | EvMkdir d recursive =>
      recursive = false /\ exists s, Mirrored src dest s d
  | EvUnlink d => exists s, Mirrored src dest s d
  | EvChmod d _ => exists s, Mirrored src dest s d
  | EvSymlink _ d => exists s, Mirrored src dest s d
  | EvOpen d _ => exists s, Mirrored src dest s d
  | EvFutimes _ _ _ => True
  | EvClose _ => True
  | EvWarning _ _ => False
  end.

(** A call of an entry point, the warning apart: the recursive [mkdir] of
    the parent of [dest], or a call of the recursion. *)
Definition entry_event {P : PathApi} (src dest : string) (ev : Event)
  : Prop :=
  match ev with
  | EvMkdir p true => p = dirname dest
  | _ => mirrored_event src dest ev
  end.

(** A computation only appends calls that satisfy [Q]. *)
Definition appends {W A} (Q : Event -> Prop) (m : M W A) : Prop :=
  forall st, exists rest,
    trace (snd (m st)) = trace st ++ rest /\ Forall Q rest.

(** The same for a run in callback style. *)
Definition grows_by {W} (Q : Event -> Prop) (st : St W) (x : Final W)
  : Prop :=
  match x with
  | Called _ st' => exists rest, trace st' = trace st ++ rest /\ Forall Q rest
  | Uncaught _ st' =>
      exists rest, trace st' = trace st ++ rest /\ Forall Q rest
  | FuelOut => True
  end.

Definition behaves {W} (Q : Event -> Prop) (f : Cb W unit -> K W) : Prop :=
  forall st, exists x, (forall cb, f cb st = then_cb x cb) /\ grows_by Q st x.

(** An in-memory world without symbolic links. *)
Definition is_link (n : MemFs.Node) : bool :=
  match n with
  | MemFs.NLink _ _ => true
  | _ => false
  end.

Definition link_free (w : MemFs.World) : Prop :=
  forallb (fun kn => negb (is_link (snd kn))) (MemFs.nodes w) = true.

(** [overwrite] and [force] set, nothing else. *)
Definition overwrite_opts : Opts MemFs.World :=
  mkOpts false false true true false None.

(** The options with the filter replaced. *)
Definition with_filter {World : Type} (opts : Opts World)
  (f : option (string -> string -> World -> bool)) : Opts World :=
  mkOpts (dereference opts) (preserveTimestamps opts) (force opts)
    (overwrite opts) (errorOnExist opts) f.

(** What a callback-style call hands to [cb] when the same call in direct
    style ends as [run]. *)
Definition delivered_run {W A} (run : Res A * St W) (cb : Cb W A) : Final W :=
  delivered (fst run) cb (snd run).

(** [/k/e] is an empty directory; [/out] exists. *)
Definition world_empty_dir : MemFs.World :=
  MemFs.mkWorld
    [("/", MemFs.NDir 16877 1); ("/w", MemFs.NDir 16877 2);
     ("/k", MemFs.NDir 16877 3); ("/k/e", MemFs.NDir 16749 4);
     ("/out", MemFs.NDir 16877 5)]
    [] 3%Z 6%Z 100%Z [].

(** [/s/l] is a link to the directory [/d/x] and [/t/l] a link to the
    directory [/e]: neither target lies below the other. *)
Definition world_unrelated_links : MemFs.World :=
  MemFs.mkWorld
    [("/", MemFs.NDir 16877 1); ("/w", MemFs.NDir 16877 2);
     ("/s", MemFs.NDir 16877 3); ("/s/l", MemFs.NLink "/d/x" 4);
     ("/t", MemFs.NDir 16877 5); ("/t/l", MemFs.NLink "/e" 6);
     ("/d", MemFs.NDir 16877 7); ("/d/x", MemFs.NDir 16877 8);
     ("/e", MemFs.NDir 16877 9)]
    [] 3%Z 10%Z 100%Z [].

(** A filter that accepts every pair. *)
Definition accept_all_filter : string -> string -> MemFs.World -> bool :=
  fun _ _ _ => true.

(** ** The descriptor calls

    A call that does not deal with a descriptor. *)
Definition descriptor_free (ev : Event) : Prop :=
  match ev with
  | EvOpen _ _ => False
  | EvFutimes _ _ _ => False
  | EvClose _ => False
  | _ => True
  end.

(** The filesystem a recorded call leaves: the call, applied. *)
Definition apply_event {World : Type} {FS : FsApi World} (ev : Event)
  (w : World) : World :=
  match ev with
  | EvWarning _ _ => w
  | EvMkdir path recursive => snd (fs_mkdir path recursive w)
  | EvUnlink path => snd (fs_unlink path w)
  | EvCopyFile src dest => snd (fs_copyFile src dest w)
  | EvChmod path m => snd (fs_chmod path m w)
  | EvSymlink target path => snd (fs_symlink target path w)
  | EvOpen path flags => snd (fs_open path flags w)
  | EvFutimes fd a m => snd (fs_futimes fd a m w)
  | EvClose fd => snd (fs_close fd w)
  end.

(** [Bracketed w l w']: the calls [l], issued from the filesystem [w], lead
    to [w'], and every [open] among them either failed or is followed at
    once by [futimes] and [close] on the descriptor it returned; [futimes]
    and [close] occur nowhere else. *)
Inductive Bracketed {World : Type} {FS : FsApi World}
  : World -> list Event -> World -> Prop :=
| Bracketed_nil w : Bracketed w [] w
| Bracketed_other ev l w w' :
    descriptor_free ev ->
    Bracketed (apply_event ev w) l w' ->
    Bracketed w (ev :: l) w'
| Bracketed_failed path flags code l w w' :
    fst (fs_open path flags w) = SysErr code ->
    Bracketed (apply_event (EvOpen path flags) w) l w' ->
    Bracketed w (EvOpen path flags :: l) w'
| Bracketed_triple path flags fd a m l w w' :
    fst (fs_open path flags w) = SysOk fd ->
    Bracketed
      (apply_event (EvClose fd)
         (apply_event (EvFutimes fd a m)
            (apply_event (EvOpen path flags) w))) l w' ->
    Bracketed w (EvOpen path flags :: EvFutimes fd a m :: EvClose fd :: l) w'.

(** The state a run ends in, if it did not run out of fuel. *)
Definition final_state {W} (x : Final W) : option (St W) :=
  match x with
  | Called _ st => Some st
  | Uncaught _ st => Some st
  | FuelOut => None
  end.

(** A computation only appends a sequence of calls that [L] relates to the
    filesystems before and after. *)
Definition appends_seq {W A} (L : W -> list Event -> W -> Prop) (m : M W A)
  : Prop :=
  forall st, exists rest,
    trace (snd (m st)) = trace st ++ rest /\
    L (world st) rest (world (snd (m st))).

Definition grows_seq {W} (L : W -> list Event -> W -> Prop) (st : St W)
  (x : Final W) : Prop :=
  match x with
  | Called _ st' =>
      exists rest, trace st' = trace st ++ rest /\ L (world st) rest (world st')
  | Uncaught _ st' =>
      exists rest, trace st' = trace st ++ rest /\ L (world st) rest (world st')
  | FuelOut => True
  end.

Definition behaves_seq {W} (L : W -> list Event -> W -> Prop)
  (f : Cb W unit -> K W) : Prop :=
  forall st, exists x, (forall cb, f cb st = then_cb x cb) /\ grows_seq L st x.

(** ** Runs that create no link *)

(** A call that creates no symbolic link. *)
Definition no_symlink (ev : Event) : Prop :=
  match ev with
  | EvSymlink _ _ => False
  | _ => True
  end.

(** [inv_lang Inv Q w l w']: if [Inv] holds of the filesystem [w] the calls
    [l] were issued from, they all satisfy [Q] and [Inv] holds of the
    filesystem [w'] they lead to. *)
Definition inv_lang {World : Type} (Inv : World -> Prop)
  (Q : Event -> Prop) : World -> list Event -> World -> Prop :=
  fun w l w' => Inv w -> Forall Q l /\ Inv w'.




(** * Properties *)

(** ** The array helpers *)

Lemma index_is_true (arr : list string) (i : nat) (cur : string) :
  index_is arr i cur = true <-> nth_error arr i = Some cur.
Proof.
  unfold index_is. destruct (nth_error arr i) as [d|].
  - rewrite String.eqb_eq. split; [intros ->; reflexivity | congruence].
  - split; discriminate.
Qed.

Lemma every_from_prefix (l1 l2 pre : list string) :
  every_from (fun cur i => index_is (pre ++ l2) i cur) (length pre) l1 = true
  <-> is_prefix l1 l2.
Proof.
  revert l2 pre. induction l1 as [|x t IH]; intros l2 pre; simpl.
  - split; [intros _; exists l2; reflexivity | reflexivity].
  - rewrite andb_true_iff, index_is_true. split.
    + intros [Hn He].
      rewrite nth_error_app2, Nat.sub_diag in Hn by lia.
      destruct l2 as [|y l2']; simpl in Hn; [discriminate|].
      injection Hn as ->.
      replace (pre ++ x :: l2') with ((pre ++ [x]) ++ l2') in He
        by (rewrite <- app_assoc; reflexivity).
      replace (S (length pre)) with (length (pre ++ [x])) in He
        by (rewrite length_app; simpl; lia).
      apply IH in He. destruct He as [r ->]. exists r. reflexivity.
    + intros [r ->]. simpl. split.
      * rewrite nth_error_app2, Nat.sub_diag by lia. reflexivity.
      * replace (pre ++ x :: t ++ r) with ((pre ++ [x]) ++ t ++ r)
          by (rewrite <- app_assoc; reflexivity).
        replace (S (length pre)) with (length (pre ++ [x]))
          by (rewrite length_app; simpl; lia).
        apply IH. exists r. reflexivity.
Qed.

Lemma reduce_from_false {A} (g : A -> nat -> bool) (i : nat) (l : list A) :
  reduce_from (fun (acc : bool) cur i => acc && g cur i) i l false = false.
Proof.
  revert i. induction l as [|x t IH]; intros i; simpl; [reflexivity|apply IH].
Qed.

Lemma reduce_from_every {A} (g : A -> nat -> bool) (i : nat) (l : list A) :
  reduce_from (fun (acc : bool) cur i => acc && g cur i) i l true
  = every_from g i l.
Proof.
  revert i. induction l as [|x t IH]; intros i; simpl; [reflexivity|].
  destruct (g x i); simpl; [apply IH | apply reduce_from_false].
Qed.

Section PredicateFacts.
Context {P : PathApi}.

Lemma isSrcSubdir_prefix (src dest : string) :
  Copy.isSrcSubdir src dest = true <->
  is_prefix (Copy.normalizePathToArray src) (Copy.normalizePathToArray dest).
Proof.
  unfold Copy.isSrcSubdir, ArrayPrototypeEvery.
  exact (every_from_prefix _ _ []).
Qed.

Lemma isSrcSubdir_cb_eq (src dest : string) :
  CopyCb.isSrcSubdir src dest = Copy.isSrcSubdir src dest.
Proof.
  unfold CopyCb.isSrcSubdir, Copy.isSrcSubdir, ArrayPrototypeReduce,
    ArrayPrototypeEvery, Copy.normalizePathToArray, ArrayPrototypeFilter.
  apply reduce_from_every.
Qed.

Lemma isSrcSubdir_same_array (a b : string) :
  Copy.normalizePathToArray a = Copy.normalizePathToArray b ->
  Copy.isSrcSubdir a b = true.
Proof.
  intros H. apply isSrcSubdir_prefix. rewrite H. exists []. symmetry.
  apply app_nil_r.
Qed.

(** C9: [isSrcSubdir(src, dest)] is true exactly when the component array
    of the resolved [src] (split on the separator, empty components removed)
    is a prefix of that of the resolved [dest]; this holds for the [every]
    form of [copy.js] and for the [reduce] form of the callback dialect.
    Neither takes the filesystem state: they are functions of the two
    strings and of the [path] module only. *)
Theorem isSrcSubdir_iff_component_prefix (src dest : string) :
  (Copy.isSrcSubdir src dest = true <->
   is_prefix
     (List.filter Boolean (StringPrototypeSplit (resolve [src]) sep))
     (List.filter Boolean (StringPrototypeSplit (resolve [dest]) sep))) /\
  (CopyCb.isSrcSubdir src dest = true <->
   is_prefix
     (List.filter Boolean (StringPrototypeSplit (resolve [src]) sep))
     (List.filter Boolean (StringPrototypeSplit (resolve [dest]) sep))).
Proof.
  split.
  - apply isSrcSubdir_prefix.
  - rewrite isSrcSubdir_cb_eq. apply isSrcSubdir_prefix.
Qed.
End PredicateFacts.

(** ** The pre-flight validator *)

Ltac monad_unfold :=
  unfold bind, ret, throw, catch, finally, out_of_fuel,
    Fs.stat, Fs.lstat, Fs.readlink, Fs.readdir, Fs.read,
    Fs.mkdir, Fs.unlink, Fs.copyFile, Fs.chmod, Fs.symlink, Fs.open,
    Fs.futimes, Fs.close, Fs.mutate, Fs.existsSync, Fs.call_filter,
    Fs.emitWarning, of_sys in *.

Section CheckPathsFacts.
Context {World : Type} {FS : FsApi World} {P : PathApi} {E : ProcessEnv}.

Lemma getStats_reads (src dest : string) (opts : Opts World) (st : St World) :
  snd (Copy.getStats src dest opts st) = st /\
  CopySync.getStatsSync src dest opts st = Copy.getStats src dest opts st.
Proof.
  unfold Copy.getStats, CopySync.getStatsSync.
  destruct (dereference opts); monad_unfold;
    [destruct (fs_stat src (world st)) | destruct (fs_lstat src (world st))];
    simpl; auto;
    [destruct (fs_stat dest (world st)) | destruct (fs_lstat dest (world st))];
    simpl; auto; destruct (code =? "ENOENT"); auto.
Qed.

Lemma checkPaths_cb_delivers (src dest : string) (opts : Opts World)
  (cb : Cb World (Stats * option Stats)) (st : St World) :
  CopyCb.checkPaths src dest opts cb st
  = delivered (fst (Copy.checkPaths src dest opts st)) cb st.
Proof.
  unfold CopyCb.checkPaths, CopyCb.getStats, Copy.checkPaths, Copy.getStats,
    FsCb.stat, FsCb.lstat, FsCb.read.
  monad_unfold.
  rewrite <- !isSrcSubdir_cb_eq.
  change CopyCb.areIdentical with Copy.areIdentical.
  destruct (dereference opts);
    [destruct (fs_stat src (world st)) as [s|c]
    |destruct (fs_lstat src (world st)) as [s|c]];
    simpl; try reflexivity;
    [destruct (fs_stat dest (world st)) as [d|c]
    |destruct (fs_lstat dest (world st)) as [d|c]];
    simpl;
    try (destruct (c =? "ENOENT"); simpl; try reflexivity);
    try (destruct (Copy.areIdentical s d); simpl; try reflexivity);
    destruct (isDirectory s); simpl;
    try (destruct (isDirectory d); simpl; try reflexivity);
    destruct (CopyCb.isSrcSubdir src dest); reflexivity.
Qed.

(** C2: once the two stats are read, [checkPaths] answers by the first rule
    that applies, in the order: identical stats of an existing [dest]
    (ERR_FS_COPY_TO_SUBDIRECTORY, EINVAL); directory onto an existing
    non-directory (ERR_FS_COPY_DIR_TO_NON_DIR, EISDIR); non-directory onto
    an existing directory (ERR_FS_COPY_NON_DIR_TO_DIR, ENOTDIR); directory
    into its own subdirectory by [isSrcSubdir]
    (ERR_FS_COPY_TO_SUBDIRECTORY, EINVAL); when no rule applies the stat
    pair is returned.  The state is left as it was; [checkPathsSync]
    (blocking dialect) returns the same, and the callback dialect passes the
    same to its callback. *)
Theorem checkPaths_priority_order (src dest : string) (opts : Opts World)
  (st : St World) :
  match Copy.getStats src dest opts st with
  | (Ok (srcStat, destStat), _) =>
      snd (Copy.checkPaths src dest opts st) = st /\
      CopySync.checkPathsSync src dest opts st
      = Copy.checkPaths src dest opts st /\
      (forall cb,
         CopyCb.checkPaths src dest opts cb st
         = delivered (fst (Copy.checkPaths src dest opts st)) cb st) /\
      match first_match (checkPaths_rules src dest srcStat destStat) with
      | Some (c, n) => raises (fst (Copy.checkPaths src dest opts st)) c n dest
      | None => fst (Copy.checkPaths src dest opts st) = Ok (srcStat, destStat)
      end
  | (Throw e, _) =>
      Copy.checkPaths src dest opts st = (Throw e, st) /\
      CopySync.checkPathsSync src dest opts st = (Throw e, st) /\
      forall cb, CopyCb.checkPaths src dest opts cb st = cb (CbErr e) st
  | (OutOfFuel, _) => False
  end.
Proof.
  destruct (getStats_reads src dest opts st) as [Hst Hsync].
  pose proof (fun cb => checkPaths_cb_delivers src dest opts cb st) as Hcb.
  revert Hcb.
  unfold Copy.checkPaths, CopySync.checkPathsSync, bind.
  rewrite Hsync.
  destruct (Copy.getStats src dest opts st) as [[[s d]|e|] st'] eqn:G;
    simpl in Hst; subst st'.
  - unfold checkPaths_rules, raises, ret, throw.
    destruct d as [d|]; simpl.
    + destruct (Copy.areIdentical s d); simpl;
        [repeat split; try assumption; eexists; reflexivity|].
      destruct (isDirectory s); simpl.
      * destruct (isDirectory d); simpl;
          [|repeat split; try assumption; eexists; reflexivity].
        destruct (Copy.isSrcSubdir src dest); simpl;
          repeat split; try assumption; eexists; reflexivity.
      * destruct (isDirectory d); simpl;
          repeat split; try assumption; eexists; reflexivity.
    + destruct (isDirectory s); simpl; [|auto].
      destruct (Copy.isSrcSubdir src dest); simpl;
        repeat split; try assumption; eexists; reflexivity.
  - auto.
  - revert G. unfold Copy.getStats. monad_unfold.
    destruct (dereference opts);
      [destruct (fs_stat src (world st)) | destruct (fs_lstat src (world st))];
      simpl; try discriminate;
      [destruct (fs_stat dest (world st)) | destruct (fs_lstat dest (world st))];
      simpl; try discriminate; destruct (code =? "ENOENT"); simpl; discriminate.
Qed.
End CheckPathsFacts.

Section SamePathFacts.
Context {World : Type} {FS : FsApi World} {P : PathApi} {E : ProcessEnv}.

(** C10: [isSrcSubdir(p, p)] is always true, and so is
    [isSrcSubdir(src, dest)] for two strings with equal component arrays (in
    particular when they resolve to the same string); hence, for a directory
    [src] and such a [dest], [checkPaths] never succeeds.  It raises
    ERR_FS_COPY_TO_SUBDIRECTORY (EINVAL) when [dest] does not exist
    ([destStat] is null, no inode is compared) and when what the stat call
    finds at [dest] is a directory or is identical to [src]; when it finds
    something else, the rule for a directory onto a non-directory comes
    first and the error is ERR_FS_COPY_DIR_TO_NON_DIR (EISDIR); a stat
    failure other than ENOENT is passed on.  The state is untouched and the
    blocking and callback dialects answer the same. *)
Theorem checkPaths_same_components_outcome (src dest : string)
  (opts : Opts World) (st : St World) (srcStat : Stats) :
  Copy.normalizePathToArray src = Copy.normalizePathToArray dest ->
  (if dereference opts then fs_stat src (world st)
   else fs_lstat src (world st)) = SysOk srcStat ->
  isDirectory srcStat = true ->
  (forall p, Copy.isSrcSubdir p p = true) /\
  Copy.isSrcSubdir src dest = true /\
  match (if dereference opts then fs_stat dest (world st)
         else fs_lstat dest (world st)) with
  | SysErr code =>
      if code =? "ENOENT" then
        Copy.getStats src dest opts st = (Ok (srcStat, None), st) /\
        raises (fst (Copy.checkPaths src dest opts st))
          ERR_FS_COPY_TO_SUBDIRECTORY EINVAL dest
      else fst (Copy.checkPaths src dest opts st) = Throw (SystemError code)
  | SysOk d =>
      Copy.getStats src dest opts st = (Ok (srcStat, Some d), st) /\
      if Copy.areIdentical srcStat d || isDirectory d then
        raises (fst (Copy.checkPaths src dest opts st))
          ERR_FS_COPY_TO_SUBDIRECTORY EINVAL dest
      else
        raises (fst (Copy.checkPaths src dest opts st))
          ERR_FS_COPY_DIR_TO_NON_DIR EISDIR dest
  end /\
  snd (Copy.checkPaths src dest opts st) = st /\
  CopySync.checkPathsSync src dest opts st
  = Copy.checkPaths src dest opts st /\
  forall cb,
    CopyCb.checkPaths src dest opts cb st
    = delivered (fst (Copy.checkPaths src dest opts st)) cb st.
Proof.
  intros Harr Hsrc Hdir.
  assert (Hrefl : forall p, Copy.isSrcSubdir p p = true)
    by (intros p; apply isSrcSubdir_same_array; reflexivity).
  assert (Hsub : Copy.isSrcSubdir src dest = true)
    by (apply isSrcSubdir_same_array; exact Harr).
  assert (Hsync : CopySync.checkPathsSync src dest opts st
                  = Copy.checkPaths src dest opts st).
  { unfold CopySync.checkPathsSync, Copy.checkPaths, bind.
    rewrite (proj2 (getStats_reads src dest opts st)). reflexivity. }
  assert (G : Copy.getStats src dest opts st
              = match (if dereference opts then fs_stat dest (world st)
                       else fs_lstat dest (world st)) with
                | SysOk d => (Ok (srcStat, Some d), st)
                | SysErr code =>
                    if code =? "ENOENT" then (Ok (srcStat, None), st)
                    else (Throw (SystemError code), st)
                end).
  { unfold Copy.getStats. monad_unfold.
    destruct (dereference opts); rewrite Hsrc; simpl;
      [destruct (fs_stat dest (world st)) as [d|code]
      |destruct (fs_lstat dest (world st)) as [d|code]];
      simpl; try reflexivity; destruct (code =? "ENOENT"); reflexivity. }
  refine (conj Hrefl (conj Hsub (conj _ (conj _ (conj Hsync
            (fun cb => checkPaths_cb_delivers src dest opts cb st)))))).
  - unfold Copy.checkPaths, bind. rewrite G. unfold raises.
    destruct (if dereference opts then fs_stat dest (world st)
              else fs_lstat dest (world st)) as [d|code].
    + split; [reflexivity|]. simpl.
      destruct (Copy.areIdentical srcStat d); simpl;
        [eexists; reflexivity|].
      rewrite Hdir. simpl.
      destruct (isDirectory d); simpl; [|eexists; reflexivity].
      rewrite Hsub. eexists. reflexivity.
    + destruct (code =? "ENOENT"); [|reflexivity].
      split; [reflexivity|]. simpl. rewrite Hdir, Hsub.
      eexists. reflexivity.
  - unfold Copy.checkPaths, bind. rewrite G.
    destruct (if dereference opts then fs_stat dest (world st)
              else fs_lstat dest (world st)) as [d|code].
    + simpl. destruct (Copy.areIdentical srcStat d); simpl; [reflexivity|].
      rewrite Hdir. simpl.
      destruct (isDirectory d); simpl; [|reflexivity].
      rewrite Hsub. reflexivity.
    + destruct (code =? "ENOENT"); [|reflexivity].
      simpl. rewrite Hdir, Hsub. reflexivity.
Qed.
End SamePathFacts.

Lemma resolve_eq_same_array {P : PathApi} (a b : string) :
  resolve [a] = resolve [b] ->
  Copy.normalizePathToArray a = Copy.normalizePathToArray b.
Proof. unfold Copy.normalizePathToArray. intros ->. reflexivity. Qed.

(** C10 at [src = /a/d], [dest = /a/l/../d] in [world_dotdot]: both resolve
    to [/a/d], [lstat(dest)] fails with ENOENT. *)
Lemma checkPaths_same_components_outcome_witness :
  @resolve path0 ["/a/l/../d"] = @resolve path0 ["/a/d"] /\
  @fs_lstat _ fs0 "/a/l/../d" world_dotdot = SysErr "ENOENT" /\
  raises
    (fst (@Copy.checkPaths _ fs0 path0 "/a/d" "/a/l/../d" no_opts
            (mkSt world_dotdot [])))
    ERR_FS_COPY_TO_SUBDIRECTORY EINVAL "/a/l/../d".
Proof.
  split; [reflexivity|]. split; [reflexivity|].
  refine (proj2 (proj1 (proj2 (proj2
    (@checkPaths_same_components_outcome _ fs0 path0 "/a/d" "/a/l/../d"
       no_opts (mkSt world_dotdot []) (mkStats KDirectory 16877 0 0 1 4)
       _ _ _))))); reflexivity.
Defined.

(** C10 fails as stated.  In [world_dotdot_file] the strings [/a/d] and
    [/a/l/../d] resolve to the same path string and [isSrcSubdir] holds of
    them, [/a/d] is a directory, yet what [lstat] finds at [/a/l/../d] is the
    regular file [/d] (the link [/a/l] is followed before [..] is applied):
    [checkPaths] raises ERR_FS_COPY_DIR_TO_NON_DIR (EISDIR), not
    ERR_FS_COPY_TO_SUBDIRECTORY. *)
Lemma same_path_string_raises_dir_to_non_dir :
  let run := @Copy.checkPaths _ fs0 path0 "/a/d" "/a/l/../d" no_opts
               (mkSt world_dotdot_file []) in
  @resolve path0 ["/a/l/../d"] = @resolve path0 ["/a/d"] /\
  @Copy.isSrcSubdir path0 "/a/d" "/a/l/../d" = true /\
  @fs_lstat _ fs0 "/a/d" world_dotdot_file
  = SysOk (mkStats KDirectory 16877 0 0 1 4) /\
  @fs_lstat _ fs0 "/a/l/../d" world_dotdot_file
  = SysOk (mkStats KFile 33188 10 20 1 7) /\
  raises (fst run) ERR_FS_COPY_DIR_TO_NON_DIR EISDIR "/a/l/../d" /\
  ~ raises (fst run) ERR_FS_COPY_TO_SUBDIRECTORY EINVAL "/a/l/../d".
Proof.
  cbv zeta.
  refine (conj eq_refl (conj eq_refl (conj eq_refl (conj eq_refl
            (conj _ _))))).
  - eexists. vm_compute. reflexivity.
  - intros [msg H]. vm_compute in H. discriminate H.
Qed.

(** ** The file copier *)

Lemma ToInt32_low_bits (z m : Z) :
  (0 <= m < 32)%Z -> Z.testbit (ToInt32 z) m = Z.testbit z m.
Proof.
  intros Hm. unfold ToInt32.
  rewrite <- (Z.mod_pow2_bits_low _ 32 m) by lia.
  rewrite <- (Z.mod_pow2_bits_low z 32 m) by lia.
  f_equal. change (2 ^ 32)%Z with 4294967296%Z.
  rewrite Zminus_mod_idemp_l. f_equal. lia.
Qed.

Lemma land_ToInt32_128 (z : Z) : Z.land (ToInt32 z) 128 = Z.land z 128.
Proof.
  apply Z.bits_inj'. intros n Hn.
  rewrite !Z.land_spec.
  change 128%Z with (2 ^ 7)%Z. rewrite Z.pow2_bits_eqb by lia.
  destruct (Z.eqb_spec 7 n) as [<-|_].
  - rewrite ToInt32_low_bits by lia. reflexivity.
  - rewrite !andb_false_r. reflexivity.
Qed.

(** *** Traces only grow *)

Section TraceFacts.
Context {World : Type} {FS : FsApi World}.

Lemma extends_ret {A} (a : A) : extends (@ret World A a).
Proof. intros st. exists []. simpl. symmetry. apply app_nil_r. Qed.

Lemma extends_throw {A} (e : Error) : extends (@throw World A e).
Proof. intros st. exists []. simpl. symmetry. apply app_nil_r. Qed.

Lemma extends_out_of_fuel {A} : extends (@out_of_fuel World A).
Proof. intros st. exists []. simpl. symmetry. apply app_nil_r. Qed.

Lemma extends_bind {A B} (m : M World A) (k : A -> M World B) :
  extends m -> (forall a, extends (k a)) -> extends (bind m k).
Proof.
  intros Hm Hk st. unfold bind. destruct (Hm st) as [r1 H1].
  destruct (m st) as [[a|e|] st1]; simpl in *.
  - destruct (Hk a st1) as [r2 H2]. exists (r1 ++ r2).
    rewrite H2, H1. symmetry. apply app_assoc.
  - exists r1. exact H1.
  - exists r1. exact H1.
Qed.

Lemma bind_run {A B} (m : M World A) (k : A -> M World B) (st : St World) :
  bind m k st
  = match m st with
    | (Ok a, st') => k a st'
    | (Throw e, st') => (Throw e, st')
    | (OutOfFuel, st') => (OutOfFuel, st')
    end.
Proof. reflexivity. Qed.

Lemma extends_catch {A} (m : M World A) (h : Error -> M World A) :
  extends m -> (forall e, extends (h e)) -> extends (catch m h).
Proof.
  intros Hm Hh st. unfold catch. destruct (Hm st) as [r1 H1].
  destruct (m st) as [[a|e|] st1]; simpl in *.
  - exists r1. exact H1.
  - destruct (Hh e st1) as [r2 H2]. exists (r1 ++ r2).
    rewrite H2, H1. symmetry. apply app_assoc.
  - exists r1. exact H1.
Qed.

Lemma extends_finally {A} (m : M World A) (f : M World unit) :
  extends m -> extends f -> extends (finally m f).
Proof.
  intros Hm Hf st. unfold finally. destruct (Hm st) as [r1 H1].
  destruct (m st) as [[a|e|] st1]; simpl in *;
    try (exists r1; exact H1);
    destruct (Hf st1) as [r2 H2]; exists (r1 ++ r2);
    destruct (f st1) as [[[]|e'|] st2]; simpl in *;
    rewrite H2, H1; symmetry; apply app_assoc.
Qed.

Lemma extends_read {A} (f : World -> Sys A) : extends (Fs.read f).
Proof. intros st. exists []. simpl. symmetry. apply app_nil_r. Qed.

Lemma extends_mutate {A} (ev : Event) (f : World -> Sys A * World) :
  extends (Fs.mutate ev f).
Proof.
  intros st. exists [ev]. unfold Fs.mutate.
  destruct (f (world st)); reflexivity.
Qed.

Lemma starts_with_mutate {A} (ev : Event) (f : World -> Sys A * World) :
  starts_with ev (Fs.mutate ev f).
Proof.
  intros st. exists []. unfold Fs.mutate.
  destruct (f (world st)); reflexivity.
Qed.

Lemma starts_with_bind {A B} (ev : Event) (m : M World A)
  (k : A -> M World B) :
  starts_with ev m -> (forall a, extends (k a)) -> starts_with ev (bind m k).
Proof.
  intros Hm Hk st. unfold bind. destruct (Hm st) as [r1 H1].
  destruct (m st) as [[a|e|] st1]; simpl in *.
  - destruct (Hk a st1) as [r2 H2]. exists (r1 ++ r2).
    rewrite H2, H1. rewrite <- app_assoc. reflexivity.
  - exists r1. exact H1.
  - exists r1. exact H1.
Qed.

Lemma extends_existsSync (path : string) : extends (Fs.existsSync path).
Proof.
  intros st. exists []. unfold Fs.existsSync.
  destruct (fs_stat path (world st)); simpl; symmetry; apply app_nil_r.
Qed.

Lemma extends_call_filter (f : string -> string -> World -> bool)
  (src dest : string) :
  extends (Fs.call_filter f src dest).
Proof. intros st. exists []. simpl. symmetry. apply app_nil_r. Qed.

Lemma extends_emitWarning (warning name : string) :
  extends (@Fs.emitWarning World warning name).
Proof. intros st. eexists. reflexivity. Qed.

Lemma extends_forEach {A} (items : list A) (f : A -> M World unit) :
  (forall item, extends (f item)) -> extends (forEach items f).
Proof.
  intros Hf. induction items as [|x t IH]; simpl.
  - apply extends_ret.
  - apply extends_bind; [apply Hf | intros _; exact IH].
Qed.
End TraceFacts.

(** Decomposes a goal [extends m] along the structure of [m]. *)
Ltac extends_step :=
  match goal with
  | |- @extends _ _ (bind _ _) => apply extends_bind
  | |- @extends _ _ (catch _ _) => apply extends_catch
  | |- @extends _ _ (finally _ _) => apply extends_finally
  | |- @extends _ _ (ret _) => apply extends_ret
  | |- @extends _ _ (throw _) => apply extends_throw
  | |- @extends _ _ out_of_fuel => apply extends_out_of_fuel
  | |- @extends _ _ (Fs.read _) => apply extends_read
  | |- @extends _ _ (Fs.mutate _ _) => apply extends_mutate
  | |- @extends _ _ (Fs.existsSync _) => apply extends_existsSync
  | |- @extends _ _ (Fs.call_filter _ _ _) => apply extends_call_filter
  | |- @extends _ _ (Fs.emitWarning _ _) => apply extends_emitWarning
  | |- @extends _ _ (forEach _ _) => apply extends_forEach
  | |- @extends _ _ (if ?b then _ else _) => destruct b
  | |- @extends _ _ ((if ?b then _ else _) _) => destruct b; cbv beta
  | |- @extends _ _ (match ?x with _ => _ end) => destruct x
  | |- @extends _ _ (let '(_, _) := ?x in _) => destruct x
  | |- forall _, _ => intro
  end.

Ltac fs_unfold :=
  unfold Fs.stat, Fs.lstat, Fs.readlink, Fs.readdir, Fs.mkdir, Fs.unlink,
    Fs.copyFile, Fs.chmod, Fs.symlink, Fs.open, Fs.futimes, Fs.close.

Ltac extends_auto := fs_unfold; repeat extends_step.

Section FileFacts.
Context {World : Type} {FS : FsApi World} {P : PathApi} {E : ProcessEnv}.

Lemma copyFile_starts_with_copy (srcStat : Stats) (src dest : string)
  (opts : Opts World) (st : St World) :
  (exists rest,
     trace (snd (Copy._copyFile srcStat src dest opts st))
     = trace st ++ EvCopyFile src dest :: rest) /\
  (exists rest,
     trace (snd (CopySync.copyFile srcStat src dest opts st))
     = trace st ++ EvCopyFile src dest :: rest).
Proof.
  split.
  - apply starts_with_bind; [apply starts_with_mutate|].
    unfold Copy.handleTimestampsAndMode, Copy.setDestTimestampsAndMode,
      Copy.setDestTimestamps, Copy.utimesMillis, Copy.makeFileWritable,
      Copy.setDestMode.
    extends_auto.
  - apply starts_with_bind; [apply starts_with_mutate|].
    unfold CopySync.handleTimestamps, CopySync.setDestTimestamps,
      CopySync.utimesMillisSync, CopySync.makeFileWritable,
      CopySync.setDestMode.
    extends_auto.
Qed.

(** C3: a regular file onto an existing destination ([destStat] not null).
    With the overwrite flag ([force] in the promise dialect, [overwrite] in
    the blocking one) [dest] is unlinked and, when the unlink succeeds, the
    byte copy follows as the next mutation: [copyFile(src, dest)] is applied
    to the filesystem the unlink left, and what remains ([chmod] to the
    source mode, after the timestamp path when [preserveTimestamps] is set)
    runs on the filesystem the byte copy left; a failed unlink or a failed
    byte copy is propagated.  Without the flag and with [errorOnExist],
    ERR_FS_COPY_EEXIST (EEXIST) is raised and the state is untouched.  With
    neither, the call returns without an error and without any mutation. *)
Theorem onFile_existing_dest_policy (srcStat d : Stats) (src dest : string)
  (opts : Opts World) (st : St World) :
  (force opts = true ->
   let after := mkSt (snd (fs_unlink dest (world st)))
                  (trace st ++ [EvUnlink dest]) in
   match fst (fs_unlink dest (world st)) with
   | SysOk _ =>
       Copy.onFile srcStat (Some d) src dest opts st
       = Copy._copyFile srcStat src dest opts after /\
       (exists rest,
          trace (snd (Copy.onFile srcStat (Some d) src dest opts st))
          = trace st ++ EvUnlink dest :: EvCopyFile src dest :: rest) /\
       let copied :=
         mkSt (snd (fs_copyFile src dest (world after)))
           (trace st ++ [EvUnlink dest; EvCopyFile src dest]) in
       match fst (fs_copyFile src dest (world after)) with
       | SysOk _ =>
           Copy.onFile srcStat (Some d) src dest opts st
           = (if preserveTimestamps opts
              then Copy.handleTimestampsAndMode (mode srcStat) src dest
              else Fs.chmod dest (mode srcStat)) copied
       | SysErr code =>
           Copy.onFile srcStat (Some d) src dest opts st
           = (Throw (SystemError code), copied)
       end
   | SysErr code =>
       Copy.onFile srcStat (Some d) src dest opts st
       = (Throw (SystemError code), after)
   end) /\
  (force opts = false -> errorOnExist opts = true ->
   raises (fst (Copy.onFile srcStat (Some d) src dest opts st))
     ERR_FS_COPY_EEXIST EEXIST dest /\
   snd (Copy.onFile srcStat (Some d) src dest opts st) = st) /\
  (force opts = false -> errorOnExist opts = false ->
   Copy.onFile srcStat (Some d) src dest opts st = (Ok tt, st)) /\
  (overwrite opts = true ->
   let after := mkSt (snd (fs_unlink dest (world st)))
                  (trace st ++ [EvUnlink dest]) in
   match fst (fs_unlink dest (world st)) with
   | SysOk _ =>
       CopySync.onFile srcStat (Some d) src dest opts st
       = CopySync.copyFile srcStat src dest opts after /\
       (exists rest,
          trace (snd (CopySync.onFile srcStat (Some d) src dest opts st))
          = trace st ++ EvUnlink dest :: EvCopyFile src dest :: rest) /\
       let copied :=
         mkSt (snd (fs_copyFile src dest (world after)))
           (trace st ++ [EvUnlink dest; EvCopyFile src dest]) in
       match fst (fs_copyFile src dest (world after)) with
       | SysOk _ =>
           CopySync.onFile srcStat (Some d) src dest opts st
           = (if preserveTimestamps opts
              then (CopySync.handleTimestamps (mode srcStat) src dest;;
                    Fs.chmod dest (mode srcStat))
              else Fs.chmod dest (mode srcStat)) copied
       | SysErr code =>
           CopySync.onFile srcStat (Some d) src dest opts st
           = (Throw (SystemError code), copied)
       end
   | SysErr code =>
       CopySync.onFile srcStat (Some d) src dest opts st
       = (Throw (SystemError code), after)
   end) /\
  (overwrite opts = false -> errorOnExist opts = true ->
   raises (fst (CopySync.onFile srcStat (Some d) src dest opts st))
     ERR_FS_COPY_EEXIST EEXIST dest /\
   snd (CopySync.onFile srcStat (Some d) src dest opts st) = st) /\
  (overwrite opts = false -> errorOnExist opts = false ->
   CopySync.onFile srcStat (Some d) src dest opts st = (Ok tt, st)).
Proof.
  unfold Copy.onFile, Copy.mayCopyFile, CopySync.onFile, CopySync.mayCopyFile.
  refine (conj _ (conj _ (conj _ (conj _ (conj _ _))))).
  - intros ->. simpl.
    rewrite bind_run. unfold Fs.unlink, Fs.mutate.
    destruct (fs_unlink dest (world st)) as [[[]|code] w1]; simpl;
      [|reflexivity].
    split; [reflexivity|]. split.
    + destruct (proj1 (copyFile_starts_with_copy srcStat src dest opts
                         (mkSt w1 (trace st ++ [EvUnlink dest]))))
        as [rest Hr].
      exists rest. rewrite Hr. simpl. rewrite <- app_assoc. reflexivity.
    + unfold Copy._copyFile. rewrite bind_run.
      unfold Fs.copyFile, Fs.mutate. simpl.
      destruct (fs_copyFile src dest w1) as [[[]|code] w2]; simpl;
        rewrite <- app_assoc; simpl; [|reflexivity].
      destruct (preserveTimestamps opts); reflexivity.
  - intros -> ->. simpl. split; [eexists; reflexivity | reflexivity].
  - intros -> ->. reflexivity.
  - intros ->. simpl.
    rewrite bind_run. unfold Fs.unlink, Fs.mutate.
    destruct (fs_unlink dest (world st)) as [[[]|code] w1]; simpl;
      [|reflexivity].
    split; [reflexivity|]. split.
    + destruct (proj2 (copyFile_starts_with_copy srcStat src dest opts
                         (mkSt w1 (trace st ++ [EvUnlink dest]))))
        as [rest Hr].
      exists rest. rewrite Hr. simpl. rewrite <- app_assoc. reflexivity.
    + unfold CopySync.copyFile, CopySync.setDestMode. rewrite bind_run.
      unfold Fs.copyFile, Fs.mutate. simpl.
      destruct (fs_copyFile src dest w1) as [[[]|code] w2]; simpl;
        rewrite <- app_assoc; simpl; [|reflexivity].
      destruct (preserveTimestamps opts); [reflexivity|].
      rewrite bind_run. reflexivity.
  - intros -> ->. simpl. split; [eexists; reflexivity | reflexivity].
  - intros -> ->. reflexivity.
Qed.

(** *** The descriptor of the timestamp path *)

Lemma utimesMillis_closes (path : string) (a m : Z) (st : St World) (fd : Fd)
  (w1 : World) :
  fs_open path "r+" (world st) = (SysOk fd, w1) ->
  trace (snd (Copy.utimesMillis path a m st))
  = trace st ++ [EvOpen path "r+"; EvFutimes fd a m; EvClose fd].
Proof.
  intros Hopen. unfold Copy.utimesMillis. monad_unfold.
  rewrite Hopen. simpl.
  destruct (fs_futimes fd a m w1) as [[[]|c1] w2]; simpl;
    destruct (fs_close fd w2) as [[[]|c2] w3]; simpl;
    rewrite <- !app_assoc; reflexivity.
Qed.

Lemma utimesMillis_cb_closes (path : string) (a m : Z)
  (cb : Cb World unit) (st : St World) (fd : Fd) (w1 : World) :
  fs_open path "r+" (world st) = (SysOk fd, w1) ->
  exists r st',
    CopyCb.utimesMillis path a m cb st = cb r st' /\
    trace st' = trace st ++ [EvOpen path "r+"; EvFutimes fd a m; EvClose fd].
Proof.
  intros Hopen.
  unfold CopyCb.utimesMillis, FsCb.open, FsCb.futimes, FsCb.close,
    FsCb.mutate.
  rewrite Hopen. simpl.
  destruct (fs_futimes fd a m w1) as [[[]|c1] w2]; simpl;
    destruct (fs_close fd w2) as [[[]|c2] w3]; simpl;
    do 2 eexists; (split; [reflexivity|]); simpl;
    rewrite <- !app_assoc; reflexivity.
Qed.

Lemma utimesMillisSync_leaks (path : string) (a m : Z) (st : St World)
  (fd : Fd) (w1 w2 : World) (code : string) :
  fs_open path "r+" (world st) = (SysOk fd, w1) ->
  fs_futimes fd a m w1 = (SysErr code, w2) ->
  CopySync.utimesMillisSync path a m st
  = (Throw (SystemError code),
     mkSt w2 (trace st ++ [EvOpen path "r+"; EvFutimes fd a m])).
Proof.
  intros Hopen Hfut. unfold CopySync.utimesMillisSync. monad_unfold.
  rewrite Hopen. simpl. rewrite Hfut. simpl.
  rewrite <- !app_assoc. reflexivity.
Qed.

(** The timestamp path on a source that is not writable, when every ambient
    call succeeds: the mutations, in order, and the final state. *)
Lemma copyFile_readonly_trace (srcStat : Stats)
  (src dest : string) (opts : Opts World) (st : St World) (updated : Stats)
  (fd : Fd) (w1 w2 w3 w4 w5 w6 : World) (cb : Cb World unit) :
  preserveTimestamps opts = true ->
  Z.land (mode srcStat) 128 = 0%Z ->
  fs_copyFile src dest (world st) = (SysOk tt, w1) ->
  fs_chmod dest (Z.lor (ToInt32 (mode srcStat)) 128) w1 = (SysOk tt, w2) ->
  fs_stat src w2 = SysOk updated ->
  fs_open dest "r+" w2 = (SysOk fd, w3) ->
  fs_futimes fd (atime updated) (mtime updated) w3 = (SysOk tt, w4) ->
  fs_close fd w4 = (SysOk tt, w5) ->
  fs_chmod dest (mode srcStat) w5 = (SysOk tt, w6) ->
  let final :=
    mkSt w6
      (trace st ++
       [EvCopyFile src dest;
        EvChmod dest (Z.lor (ToInt32 (mode srcStat)) 128);
        EvOpen dest "r+";
        EvFutimes fd (atime updated) (mtime updated);
        EvClose fd;
        EvChmod dest (mode srcStat)]) in
  Copy._copyFile srcStat src dest opts st = (Ok tt, final) /\
  CopySync.copyFile srcStat src dest opts st = (Ok tt, final) /\
  CopyCb._copyFile srcStat src dest opts cb st = cb (CbOk tt) final.
Proof.
  intros Hts Hmode H1 H2 H3 H4 H5 H6 H7 final. subst final.
  assert (Hnw : (Z.land (ToInt32 (mode srcStat)) 128 =? 0)%Z = true)
    by (rewrite land_ToInt32_128, Hmode; reflexivity).
  refine (conj _ (conj _ _)).
  - unfold Copy._copyFile, Copy.handleTimestampsAndMode,
      Copy.fileIsNotWritable, Copy.setDestTimestampsAndMode,
      Copy.setDestTimestamps, Copy.utimesMillis, Copy.makeFileWritable,
      Copy.setDestMode.
    rewrite Hts, Hnw. monad_unfold. simpl.
    rewrite H1. simpl. rewrite H2. simpl. rewrite H3. simpl.
    rewrite H4. simpl. rewrite H5. simpl. rewrite H6. simpl.
    rewrite H7. simpl. rewrite <- !app_assoc. reflexivity.
  - unfold CopySync.copyFile, CopySync.handleTimestamps,
      CopySync.fileIsNotWritable, CopySync.setDestTimestamps,
      CopySync.utimesMillisSync, CopySync.makeFileWritable,
      CopySync.setDestMode.
    rewrite Hts, Hnw. monad_unfold. simpl.
    rewrite H1. simpl. rewrite H2. simpl. rewrite H3. simpl.
    rewrite H4. simpl. rewrite H5. simpl. rewrite H6. simpl.
    rewrite H7. simpl. rewrite <- !app_assoc. reflexivity.
  - unfold CopyCb._copyFile, CopyCb.handleTimestampsAndMode,
      CopyCb.fileIsNotWritable, CopyCb.setDestTimestampsAndMode,
      CopyCb.setDestTimestamps, CopyCb.utimesMillis, CopyCb.makeFileWritable,
      CopyCb.setDestMode, FsCb.copyFile, FsCb.chmod, FsCb.stat, FsCb.open,
      FsCb.futimes, FsCb.close, FsCb.mutate, FsCb.read.
    rewrite H1. simpl. rewrite Hts, Hnw. simpl. rewrite H2. simpl.
    rewrite H3. simpl. rewrite H4. simpl. rewrite H5. simpl.
    rewrite H6. simpl. rewrite H7. simpl.
    rewrite <- !app_assoc. reflexivity.
Qed.
End FileFacts.

(** *** Runs of the file copier on the in-memory filesystem *)

Section FileRuns.
#[local] Existing Instance fs0.
#[local] Existing Instance path0.
#[local] Existing Instance env0.

(** C3 at [/k/a.txt] onto the existing [/out/a.txt] with [force] set:
    [unlink], then the byte copy, then [chmod]; the destination is a new
    file (inode 7) that holds the bytes of the source. *)
Lemma onFile_existing_dest_policy_witness :
  let srcStat := mkStats KFile 33188 10 20 1 4 in
  let run := Copy.onFile srcStat (Some (mkStats KFile 33188 11 21 1 6))
               "/k/a.txt" "/out/a.txt" force_opts (mkSt world_existing []) in
  force force_opts = true /\
  (exists rest,
     trace (snd run)
     = [] ++ EvUnlink "/out/a.txt" :: EvCopyFile "/k/a.txt" "/out/a.txt"
          :: rest) /\
  run
  = Fs.chmod "/out/a.txt" 33188
      (mkSt (snd (fs_copyFile "/k/a.txt" "/out/a.txt"
                    (snd (fs_unlink "/out/a.txt" world_existing))))
         [EvUnlink "/out/a.txt"; EvCopyFile "/k/a.txt" "/out/a.txt"]) /\
  fst run = Ok tt /\
  MemFs.find_node "/out/a.txt" (MemFs.nodes (world (snd run)))
  = Some (MemFs.NFile 33188 100 100 7 "new").
Proof.
  cbv zeta.
  pose proof (proj1 (onFile_existing_dest_policy
                       (mkStats KFile 33188 10 20 1 4)
                       (mkStats KFile 33188 11 21 1 6)
                       "/k/a.txt" "/out/a.txt" force_opts
                       (mkSt world_existing [])) eq_refl) as H.
  split; [reflexivity|].
  split; [exact (proj1 (proj2 H))|].
  split; [exact (proj2 (proj2 H))|].
  split; reflexivity.
Defined.

(** Without the transient write bit the timestamp path cannot open the
    copy: ['r+'] on a 0o444 file is refused. *)
Example open_readonly_refused :
  fst (fs_open "/k/foo.txt" "r+" world_readonly) = SysErr "EPERM".
Proof. reflexivity. Qed.

(** C6, on a disk where [futimes] fails: the blocking dialect propagates the
    error with descriptor 3 still open and no [close] issued; the promise
    and the callback dialects, on the same input, close it. *)
Theorem sync_timestamp_path_leaks_descriptor :
  let st := mkSt world_futimes_fails [] in
  let sync :=
    CopySync.copySyncFn 8 "/k/foo.txt" "/out/foo.txt" timestamp_opts st in
  let promise :=
    Copy.copyFn 8 "/k/foo.txt" "/out/foo.txt" timestamp_opts st in
  let callback :=
    CopyCb.copyPromises 8 "/k/foo.txt" "/out/foo.txt" timestamp_opts st in
  fst sync = Throw (SystemError "EIO") /\
  open_fds (world (snd sync)) = [3%Z] /\
  trace (snd sync)
  = [EvCopyFile "/k/foo.txt" "/out/foo.txt"; EvChmod "/out/foo.txt" 33188;
     EvOpen "/out/foo.txt" "r+"; EvFutimes 3%Z 100 20] /\
  fst promise = Throw (SystemError "EIO") /\
  open_fds (world (snd promise)) = [] /\
  trace (snd promise) = trace (snd sync) ++ [EvClose 3%Z] /\
  exists st',
    callback = Called (CbErr (SystemError "EIO")) st' /\
    open_fds (world st') = [] /\
    trace st' = trace (snd sync) ++ [EvClose 3%Z].
Proof.
  cbv zeta.
  refine (conj _ (conj _ (conj _ (conj _ (conj _ (conj _ _)))))); try reflexivity.
  eexists. split; [vm_compute; reflexivity|]. split; reflexivity.
Qed.

End FileRuns.

(** ** The symlink copier *)

Section LinkFacts.
Context {World : Type} {FS : FsApi World} {P : PathApi} {E : ProcessEnv}.





(** The callback dialect never raises ERR_FS_COPY_SYMLINK_TO_SUBDIRECTORY:
    where the guard would apply, the call of [stat.isSrcSubdir] throws. *)
Lemma onLink_cb_never_raises_symlink_guard (destStat : option Stats)
  (src dest : string) (opts : Opts World) (st : St World) :
  (exists msg st',
     CopyCb.onLink destStat src dest opts (fun r s => Called r s) st
     = Uncaught msg st') \/
  (exists r st',
     CopyCb.onLink destStat src dest opts (fun r s => Called r s) st
     = Called r st' /\
     forall i, r <> CbErr (NodeError ERR_FS_COPY_SYMLINK_TO_SUBDIRECTORY i)).
Proof.
  unfold CopyCb.onLink, CopyCb.copyLink, FsCb.readlink, FsCb.symlink,
    FsCb.unlink, FsCb.read, FsCb.mutate.
  destruct (fs_readlink src (world st)) as [target|c]; simpl;
    [|right; do 2 eexists; split; [reflexivity|discriminate]].
  destruct destStat as [d|]; simpl.
  - destruct (fs_readlink dest (world st)) as [dtarget|c]; simpl.
    + destruct (CopyCb.isSrcSubdir _ _); simpl;
        [right; do 2 eexists; split; [reflexivity|discriminate]|].
      destruct (isDirectory d); simpl;
        [left; do 2 eexists; reflexivity|].
      destruct (fs_unlink dest (world st)) as [[[]|c] w1]; simpl;
        [|right; do 2 eexists; split; [reflexivity|discriminate]].
      destruct (fs_symlink _ dest w1) as [[[]|c] w2]; simpl;
        right; do 2 eexists; (split; [reflexivity|discriminate]).
    + destruct ((c =? "EINVAL") || (c =? "UNKNOWN")); simpl;
        [|right; do 2 eexists; split; [reflexivity|discriminate]].
      destruct (fs_symlink _ dest (world st)) as [[[]|c'] w2]; simpl;
        right; do 2 eexists; (split; [reflexivity|discriminate]).
  - destruct (fs_symlink _ dest (world st)) as [[[]|c'] w2]; simpl;
      right; do 2 eexists; (split; [reflexivity|discriminate]).
Qed.
End LinkFacts.

(** *** Runs of the symlink copier on the in-memory filesystem *)

Section LinkRuns.
#[local] Existing Instance fs0.
#[local] Existing Instance path0.
#[local] Existing Instance env0.

(** C1, on [world_links]: [/s/l] points into the directory that the
    existing destination link [/t/l] points to.  The blocking and the
    promise dialects raise ERR_FS_COPY_SYMLINK_TO_SUBDIRECTORY and change
    nothing; the callback dialect reports no error, having unlinked
    [/t/l] and linked it anew. *)
Theorem dialects_disagree_on_symlink_guard :
  let st := mkSt world_links [] in
  raises (fst (CopySync.copySyncFn 8 "/s/l" "/t/l" no_opts st))
    ERR_FS_COPY_SYMLINK_TO_SUBDIRECTORY EINVAL "/t/l" /\
  snd (CopySync.copySyncFn 8 "/s/l" "/t/l" no_opts st) = st /\
  raises (fst (Copy.copyFn 8 "/s/l" "/t/l" no_opts st))
    ERR_FS_COPY_SYMLINK_TO_SUBDIRECTORY EINVAL "/t/l" /\
  snd (Copy.copyFn 8 "/s/l" "/t/l" no_opts st) = st /\
  exists st',
    CopyCb.copyPromises 8 "/s/l" "/t/l" no_opts st = Called (CbOk tt) st' /\
    trace st' = [EvUnlink "/t/l"; EvSymlink "/d/x" "/t/l"] /\
    fs_readlink "/t/l" (world st') = SysOk "/d/x".
Proof.
  cbv zeta. unfold raises.
  refine (conj _ (conj _ (conj _ (conj _ _)))).
  - eexists. vm_compute. reflexivity.
  - vm_compute. reflexivity.
  - eexists. vm_compute. reflexivity.
  - vm_compute. reflexivity.
  - eexists. split; [vm_compute; reflexivity|]. split; reflexivity.
Qed.
End LinkRuns.

(** ** The ancestor walk *)

Section WalkDeterminism.
Context {World : Type} {FS : FsApi World} {P : PathApi}.

(** [Walk] fixes the outcome: two walks from the same path in the same
    world end alike. *)
Lemma Walk_functional (src : string) (srcStat : Stats) (w : World)
  (dest : string) (r1 r2 : Res unit) :
  Walk src srcStat w dest r1 -> Walk src srcStat w dest r2 -> r1 = r2.
Proof.
  intros H1. revert r2.
  induction H1 as [dest Hs|dest Hr|dest Hon Hst|dest code Hon Hst Hc
                  |dest d Hon Hst Hid|dest d r Hon Hst Hid Hw IH];
    intros r2 H2; inversion H2; subst;
    try reflexivity;
    try (match goal with
         | H : walk_on _ _ |- _ => destruct H as [? ?]; contradiction
         end);
    try congruence.
  apply IH. assumption.
Qed.
End WalkDeterminism.

Section WalkFacts.
Context {World : Type} {FS : FsApi World} {P : PathApi} {E : ProcessEnv}.

(** The depth of a path; a parent that is not its own root is shallower
    than its child. *)
Variable depth : string -> nat.
Hypothesis parent_shallower :
  forall p : string,
    resolve [dirname p] <> parse_root (resolve [dirname p]) ->
    depth (resolve [dirname (resolve [dirname p])])
    < depth (resolve [dirname p]).

(** The walk returns once the fuel exceeds the depth of the parent of
    [dest], in the three dialects alike, and its outcome is the one of
    [Walk]. *)
Lemma checkParentPaths_walk (fuel : nat) (src : string)
  (srcStat : Stats) (dest : string) (st : St World) :
  depth (resolve [dirname dest]) < fuel ->
  exists r,
    Walk src srcStat (world st) dest r /\
    r <> OutOfFuel /\
    Copy.checkParentPaths fuel src srcStat dest st = (r, st) /\
    CopySync.checkParentPathsSync fuel src srcStat dest st = (r, st) /\
    forall cb,
      CopyCb.checkParentPaths fuel src srcStat dest cb st = delivered r cb st.
Proof.
  revert dest. induction fuel as [|fuel IH]; intros dest Hfuel; [lia|].
  simpl. monad_unfold. unfold FsCb.stat, FsCb.read.
  destruct (resolve [dirname dest] =? resolve [dirname src]) eqn:Hsp.
  { apply String.eqb_eq in Hsp. exists (Ok tt). simpl.
    repeat split; try discriminate. apply Walk_src_parent. exact Hsp. }
  destruct (resolve [dirname dest] =? parse_root (resolve [dirname dest]))
    eqn:Hroot.
  { apply String.eqb_eq in Hroot. exists (Ok tt). simpl.
    repeat split; try discriminate. apply Walk_root. exact Hroot. }
  apply String.eqb_neq in Hsp, Hroot.
  assert (Hon : walk_on src dest) by (split; assumption).
  simpl.
  destruct (fs_stat (resolve [dirname dest]) (world st)) as [destStat|code]
    eqn:Hstat; simpl.
  - change (CopyCb.areIdentical srcStat destStat)
      with (Copy.areIdentical srcStat destStat).
    destruct (Copy.areIdentical srcStat destStat) eqn:Hid.
    + eexists. simpl.
      repeat split; try discriminate.
      eapply Walk_identical; eassumption.
    + destruct (IH (resolve [dirname dest])) as (r & HW & Hr & H1 & H2 & H3).
      { pose proof (parent_shallower dest Hroot). lia. }
      exists r. repeat split; try assumption.
      eapply Walk_up; eassumption.
  - destruct (code =? "ENOENT") eqn:Hc.
    + apply String.eqb_eq in Hc. subst code. exists (Ok tt). simpl.
      repeat split; try discriminate. apply Walk_absent; assumption.
    + apply String.eqb_neq in Hc. exists (Throw (SystemError code)). simpl.
      repeat split; try discriminate. apply Walk_error; assumption.
Qed.
End WalkFacts.

(** ** The POSIX paths are well-founded under [dirname] *)

Module PosixFacts.
Import Posix.

Lemma split_nonempty (s : string) : StringPrototypeSplit s slash <> [].
Proof.
  destruct s as [|a s]; simpl; [discriminate|].
  destruct (Ascii.eqb a slash); [discriminate|].
  destruct (StringPrototypeSplit s slash); discriminate.
Qed.

Lemma split_app (x y : string) :
  StringPrototypeSplit (x ++ String slash y) slash
  = StringPrototypeSplit x slash ++ StringPrototypeSplit y slash.
Proof.
  induction x as [|a x IH]; simpl.
  - reflexivity.
  - destruct (Ascii.eqb a slash).
    + rewrite IH. reflexivity.
    + rewrite IH. pose proof (split_nonempty x) as Hne.
      destruct (StringPrototypeSplit x slash) as [|w ws]; [contradiction|].
      reflexivity.
Qed.

Lemma split_no_slash (s : string) :
  no_slash s -> StringPrototypeSplit s slash = [s].
Proof.
  induction s as [|a s IH]; intros Hs; simpl; [reflexivity|].
  destruct (Ascii.eqb_spec a slash) as [->|_].
  - exfalso. apply (Hs slash); [left; reflexivity | reflexivity].
  - rewrite IH; [reflexivity|].
    intros c Hc. apply Hs. right. exact Hc.
Qed.

Lemma split_parts_no_slash (s : string) :
  Forall no_slash (StringPrototypeSplit s slash).
Proof.
  induction s as [|a s IH]; simpl.
  - constructor; [intros c []|constructor].
  - destruct (Ascii.eqb_spec a slash) as [->|Hne].
    + constructor; [intros c []|exact IH].
    + pose proof (split_nonempty s) as Hnon.
      destruct (StringPrototypeSplit s slash) as [|w ws]; [contradiction|].
      inversion IH as [|? ? Hw Hws]; subst.
      constructor; [|exact Hws].
      intros c [<-|Hc]; [exact Hne | apply Hw; exact Hc].
Qed.

Lemma Boolean_true (s : string) : Boolean s = true <-> s <> "".
Proof.
  unfold Boolean. rewrite negb_true_iff. apply String.eqb_neq.
Qed.

Lemma segments_parts (s : string) :
  Forall (fun c => c <> "" /\ no_slash c) (segments s).
Proof.
  unfold segments. apply Forall_forall. intros c Hc.
  apply filter_In in Hc. destruct Hc as [Hin Hb].
  split; [apply Boolean_true; exact Hb|].
  pose proof (split_parts_no_slash s) as H.
  rewrite Forall_forall in H. apply H. exact Hin.
Qed.

Lemma split_concat (cs : list string) :
  Forall clean cs -> cs <> [] ->
  StringPrototypeSplit (String.concat "/" cs) slash = cs.
Proof.
  induction cs as [|c t IH]; intros Hcl Hne; [contradiction|].
  inversion Hcl as [|? ? Hc Ht]; subst.
  destruct t as [|c' t'].
  - simpl. apply split_no_slash. apply Hc.
  - change (String.concat "/" (c :: c' :: t'))
      with (c ++ String slash (String.concat "/" (c' :: t')))%string.
    rewrite split_app, IH by (assumption || discriminate).
    rewrite split_no_slash by apply Hc. reflexivity.
Qed.

Lemma filter_clean (cs : list string) :
  Forall clean cs -> List.filter Boolean cs = cs.
Proof.
  induction 1 as [|c t Hc _ IH]; simpl; [reflexivity|].
  replace (Boolean c) with true
    by (symmetry; apply Boolean_true; apply Hc).
  rewrite IH. reflexivity.
Qed.

Lemma segments_render (cs : list string) :
  Forall clean cs -> segments (render cs) = cs.
Proof.
  intros Hcl. unfold segments, render.
  change (String slash (String.concat "/" cs))
    with ("" ++ String slash (String.concat "/" cs))%string.
  rewrite split_app. simpl.
  destruct cs as [|c t]; [reflexivity|].
  rewrite split_concat by (assumption || discriminate).
  apply filter_clean. exact Hcl.
Qed.

Lemma append_nil_r (s : string) : (s ++ "")%string = s.
Proof. induction s; simpl; congruence. Qed.

Lemma append_assoc (a b c : string) :
  ((a ++ b) ++ c)%string = (a ++ (b ++ c))%string.
Proof. induction a; simpl; congruence. Qed.

Lemma segments_render_slash (cs : list string) :
  Forall clean cs -> segments (render cs ++ "/" ++ "") = cs.
Proof.
  intros Hcl. unfold segments.
  change ("/" ++ "")%string with (String slash "").
  rewrite split_app. simpl StringPrototypeSplit at 2.
  rewrite filter_app. simpl. rewrite app_nil_r.
  apply segments_render. exact Hcl.
Qed.

Lemma normalize_onto_clean (stack cs : list string) :
  Forall clean cs -> normalize_onto false stack cs = rev cs ++ stack.
Proof.
  revert stack. induction cs as [|c t IH]; intros stack Hcl; [reflexivity|].
  inversion Hcl as [|? ? Hc Ht]; subst. simpl.
  destruct Hc as (_ & _ & Hd & Hdd).
  apply String.eqb_neq in Hd, Hdd. rewrite Hd, Hdd.
  rewrite IH by assumption. rewrite <- app_assoc. reflexivity.
Qed.

Lemma normalizeString_clean (cs : list string) :
  Forall clean cs -> normalizeString false cs = cs.
Proof.
  intros Hcl. unfold normalizeString.
  rewrite normalize_onto_clean by assumption.
  rewrite app_nil_r. apply rev_involutive.
Qed.

Lemma normalize_onto_keeps_clean (stack segs : list string) :
  Forall clean stack ->
  Forall (fun c => c <> "" /\ no_slash c) segs ->
  Forall clean (normalize_onto false stack segs).
Proof.
  revert stack. induction segs as [|s t IH]; intros stack Hst Hsegs;
    [exact Hst|].
  inversion Hsegs as [|? ? Hs Ht]; subst. simpl.
  destruct (String.eqb_spec s ".") as [_|Hd]; [apply IH; assumption|].
  destruct (String.eqb_spec s "..") as [_|Hdd].
  - destruct stack as [|top stack'].
    + apply IH; [constructor | assumption].
    + inversion Hst as [|? ? Htop Hst']; subst.
      destruct (String.eqb_spec top "..") as [->|_].
      * exfalso. apply Htop. reflexivity.
      * apply IH; assumption.
  - apply IH; [|assumption].
    constructor; [|exact Hst]. destruct Hs. repeat split; assumption.
Qed.

Lemma resolve_is_render (cwd : string) (paths : list string) :
  exists cs, Forall clean cs /\ resolve cwd paths = render cs.
Proof.
  unfold resolve, normalizeString. eexists. split; [|reflexivity].
  apply Forall_rev. apply normalize_onto_keeps_clean; [constructor|].
  apply segments_parts.
Qed.

Lemma resolve_render (cwd : string) (cs : list string) :
  Forall clean cs -> resolve cwd [render cs] = render cs.
Proof.
  intros Hcl. unfold resolve.
  change (resolve_onto cwd (rev [render cs]) "")
    with (render cs ++ "/" ++ "")%string.
  rewrite segments_render_slash by assumption.
  rewrite normalizeString_clean by assumption. reflexivity.
Qed.

Lemma list_ascii_app (a b : string) :
  list_ascii_of_string (a ++ b)
  = list_ascii_of_string a ++ list_ascii_of_string b.
Proof. induction a; simpl; congruence. Qed.

Lemma drop_while_all {A} (f : A -> bool) (l1 l2 : list A) :
  Forall (fun x => f x = true) l1 ->
  drop_while f (l1 ++ l2) = drop_while f l2.
Proof. induction 1 as [|x t Hx _ IH]; simpl; [|rewrite Hx]; auto. Qed.

Lemma drop_slashes_segment (c : string) (rest : list ascii) :
  clean c ->
  drop_while (fun x => Ascii.eqb x slash)
    (rev (list_ascii_of_string c) ++ rest)
  = rev (list_ascii_of_string c) ++ rest.
Proof.
  intros (Hne & Hns & _).
  destruct (rev (list_ascii_of_string c)) as [|x l] eqn:Hrev.
  - exfalso. apply Hne.
    apply (f_equal (@rev ascii)) in Hrev. rewrite rev_involutive in Hrev.
    rewrite <- (string_of_list_ascii_of_string c), Hrev. reflexivity.
  - simpl. destruct (Ascii.eqb_spec x slash) as [->|_]; [|reflexivity].
    exfalso. apply (Hns slash); [|reflexivity].
    apply in_rev. rewrite Hrev. left. reflexivity.
Qed.

Lemma drop_segment (c : string) (rest : list ascii) :
  clean c ->
  drop_while (fun x => negb (Ascii.eqb x slash))
    (rev (list_ascii_of_string c) ++ rest)
  = drop_while (fun x => negb (Ascii.eqb x slash)) rest.
Proof.
  intros (_ & Hns & _). apply drop_while_all.
  apply Forall_forall. intros x Hx. apply in_rev in Hx.
  apply negb_true_iff. apply Ascii.eqb_neq. apply Hns. exact Hx.
Qed.

Lemma concat_snoc (cs : list string) (c : string) :
  cs <> [] ->
  String.concat "/" (cs ++ [c])
  = (String.concat "/" cs ++ String slash c)%string.
Proof.
  induction cs as [|x t IH]; intros Hne; [contradiction|].
  destruct t as [|y t'].
  - reflexivity.
  - change ((x :: y :: t') ++ [c]) with (x :: (y :: t') ++ [c]).
    change (String.concat "/" (x :: (y :: t') ++ [c]))
      with (x ++ String slash (String.concat "/" ((y :: t') ++ [c])))%string.
    rewrite IH by discriminate.
    change (String.concat "/" (x :: y :: t'))
      with (x ++ String slash (String.concat "/" (y :: t')))%string.
    rewrite append_assoc. reflexivity.
Qed.

Lemma concat_clean_nonempty (cs : list string) :
  Forall clean cs -> cs <> [] -> String.concat "/" cs <> "".
Proof.
  intros Hcl Hne. destruct cs as [|c t]; [contradiction|].
  inversion Hcl as [|? ? Hc _]; subst. destruct Hc as (Hc & _).
  destruct c as [|a c]; [contradiction|].
  destruct t; simpl; discriminate.
Qed.

Lemma dirname_render_snoc (cs : list string) (c : string) :
  Forall clean cs -> clean c -> dirname (render (cs ++ [c])) = render cs.
Proof.
  intros Hcl Hc. unfold dirname, render.
  destruct cs as [|x t].
  - simpl app. simpl String.concat.
    rewrite <- (app_nil_r (rev (list_ascii_of_string c))).
    rewrite drop_slashes_segment, drop_segment by assumption.
    reflexivity.
  - rewrite concat_snoc by discriminate.
    rewrite list_ascii_app. simpl list_ascii_of_string at 2.
    rewrite rev_app_distr. simpl rev at 1. rewrite <- !app_assoc.
    rewrite drop_slashes_segment, drop_segment by assumption.
    pose proof (concat_clean_nonempty (x :: t) Hcl ltac:(discriminate))
      as Hne.
    destruct (rev (list_ascii_of_string (String.concat "/" (x :: t))))
      as [|a l] eqn:Hrev.
    + exfalso. apply Hne.
      apply (f_equal (@rev ascii)) in Hrev. rewrite rev_involutive in Hrev.
      rewrite <- (string_of_list_ascii_of_string _), Hrev. reflexivity.
    + change (drop_while (fun x0 : ascii => negb (Ascii.eqb x0 slash))
                ([slash] ++ a :: l))
        with (slash :: a :: l).
      cbv iota. rewrite <- Hrev, rev_involutive.
      rewrite string_of_list_ascii_of_string. reflexivity.
Qed.

Lemma parse_root_render (cs : list string) : parse_root (render cs) = "/".
Proof. reflexivity. Qed.

(** The parent of a resolved path that is not the root has one segment
    less. *)
Lemma parent_is_shallower (cwd p : string) :
  resolve cwd [dirname p] <> parse_root (resolve cwd [dirname p]) ->
  length (segments (resolve cwd [dirname (resolve cwd [dirname p])]))
  < length (segments (resolve cwd [dirname p])).
Proof.
  destruct (resolve_is_render cwd [dirname p]) as (cs & Hcl & ->).
  rewrite parse_root_render. intros Hne.
  destruct (@exists_last _ cs) as (cs' & c & ->).
  { intros ->. apply Hne. reflexivity. }
  apply Forall_app in Hcl. destruct Hcl as [Hcl' Hc].
  inversion Hc as [|? ? Hc' _]; subst.
  rewrite dirname_render_snoc by assumption.
  rewrite resolve_render by assumption.
  rewrite !segments_render
    by (try assumption; apply Forall_app; split; assumption).
  rewrite length_app. simpl. lia.
Qed.

End PosixFacts.

(** C7: the ancestor walk returns, in all three dialects, and never touches
    the state.  For any [path] module in which the parent of a path that is
    not its own root is shallower than the path, fuel above the depth of the
    parent of [dest] is enough; for POSIX paths this holds with the number
    of segments as depth, so the walk from any [dest] returns.  Each step
    replaces the current path by its parent, and the outcome is the one of
    [Walk]: no error at the parent of [src], at a path that is the root of
    its own decomposition, or at an ancestor whose stat fails with ENOENT;
    any other stat error is thrown as it is; an ancestor identical to
    [srcStat] raises ERR_FS_COPY_TO_SUBDIRECTORY. *)
Theorem checkParentPaths_terminates :
  (forall (World : Type) (FS : FsApi World) (P : PathApi)
          (depth : string -> nat),
     (forall p : string,
        resolve [dirname p] <> parse_root (resolve [dirname p]) ->
        depth (resolve [dirname (resolve [dirname p])])
        < depth (resolve [dirname p])) ->
     forall (fuel : nat) (src : string) (srcStat : Stats) (dest : string)
            (st : St World),
       depth (resolve [dirname dest]) < fuel ->
       exists r,
         Walk src srcStat (world st) dest r /\
         r <> OutOfFuel /\
         Copy.checkParentPaths fuel src srcStat dest st = (r, st) /\
         CopySync.checkParentPathsSync fuel src srcStat dest st = (r, st) /\
         forall cb,
           CopyCb.checkParentPaths fuel src srcStat dest cb st
           = delivered r cb st) /\
  (forall (World : Type) (FS : FsApi World) (cwd src : string)
          (srcStat : Stats) (dest : string) (st : St World),
     let P := posix_path cwd in
     let fuel := S (posix_depth (resolve [dirname dest])) in
     exists r,
       Walk src srcStat (world st) dest r /\
       r <> OutOfFuel /\
       Copy.checkParentPaths fuel src srcStat dest st = (r, st) /\
       CopySync.checkParentPathsSync fuel src srcStat dest st = (r, st) /\
       forall cb,
         CopyCb.checkParentPaths fuel src srcStat dest cb st
         = delivered r cb st).
Proof.
  split.
  - intros World FS P depth Hdepth fuel src srcStat dest st Hfuel.
    exact (checkParentPaths_walk depth Hdepth fuel src srcStat dest st Hfuel).
  - intros World FS cwd src srcStat dest st P fuel.
    apply (@checkParentPaths_walk World FS P posix_depth).
    + exact (PosixFacts.parent_is_shallower cwd).
    + unfold fuel. apply Nat.lt_succ_diag_r.
Qed.

Section WalkRuns.
#[local] Existing Instance fs0.
#[local] Existing Instance path0.
#[local] Existing Instance env0.

(** C7 on POSIX paths, at [src = /src], [dest = /dst/b/c] in [world_alias]:
    the parent [/dst/b] has depth 2, fuel 3 is enough, and the walk ends at
    [/dst/b], whose stat is the one of [/src]. *)
Lemma checkParentPaths_terminates_witness :
  posix_depth (resolve [dirname "/dst/b/c"]) < 3 /\
  exists r,
    Walk "/src" (mkStats KDirectory 16877 0 0 1 3) world_alias "/dst/b/c" r /\
    r <> OutOfFuel /\
    Copy.checkParentPaths 3 "/src" (mkStats KDirectory 16877 0 0 1 3)
      "/dst/b/c" (mkSt world_alias [])
    = (r, mkSt world_alias []) /\
    CopySync.checkParentPathsSync 3 "/src" (mkStats KDirectory 16877 0 0 1 3)
      "/dst/b/c" (mkSt world_alias [])
    = (r, mkSt world_alias []) /\
    forall cb,
      CopyCb.checkParentPaths 3 "/src" (mkStats KDirectory 16877 0 0 1 3)
        "/dst/b/c" cb (mkSt world_alias [])
      = delivered r cb (mkSt world_alias []).
Proof.
  assert (H : posix_depth (resolve [dirname "/dst/b/c"]) < 3)
    by (vm_compute; lia).
  split; [exact H|].
  exact (proj1 checkParentPaths_terminates MemFs.World fs0 path0 posix_depth
           (PosixFacts.parent_is_shallower cwd0) 3 "/src"
           (mkStats KDirectory 16877 0 0 1 3) "/dst/b/c"
           (mkSt world_alias []) H).
Defined.

(** On that input the three dialects report the subdirectory error. *)
Example copy_into_alias_of_src :
  raises (fst (Copy.copyFn 8 "/src" "/dst/b/c" no_opts (mkSt world_alias [])))
    ERR_FS_COPY_TO_SUBDIRECTORY EINVAL "/dst/b/c" /\
  raises (fst (CopySync.copySyncFn 8 "/src" "/dst/b/c" no_opts
                 (mkSt world_alias [])))
    ERR_FS_COPY_TO_SUBDIRECTORY EINVAL "/dst/b/c" /\
  exists e st',
    CopyCb.copyPromises 8 "/src" "/dst/b/c" no_opts (mkSt world_alias [])
    = Called (CbErr e) st' /\
    raises (@Throw unit e) ERR_FS_COPY_TO_SUBDIRECTORY EINVAL "/dst/b/c".
Proof.
  unfold raises. split; [|split].
  - eexists. vm_compute. reflexivity.
  - eexists. vm_compute. reflexivity.
  - do 2 eexists. split; [vm_compute; reflexivity|].
    eexists. reflexivity.
Qed.
End WalkRuns.

(** ** The directory copier *)

Section DirFacts.
Context {World : Type} {FS : FsApi World} {P : PathApi} {E : ProcessEnv}.

Lemma bind_ext {A B} (m : M World A) (k k' : A -> M World B) (st : St World) :
  (forall a s, k a s = k' a s) -> bind m k st = bind m k' st.
Proof.
  intros H. unfold bind. destruct (m st) as [[a|e|] s]; auto.
Qed.

Lemma forEach_ext (f g : string -> M World unit) (items : list string)
  (st : St World) :
  (forall item s, f item s = g item s) ->
  forEach items f st = forEach items g st.
Proof.
  intros H. revert st. induction items as [|x t IH]; intros st; simpl;
    [reflexivity|].
  unfold bind. rewrite H. destruct (g x st) as [[[]|e|] s]; auto.
Qed.

Lemma bind_assoc_run {A B C} (m : M World A) (k : A -> M World B)
  (h : B -> M World C) (st : St World) :
  bind (bind m k) h st = bind m (fun a => bind (k a) h) st.
Proof.
  unfold bind. destruct (m st) as [[a|e|] s]; reflexivity.
Qed.

Lemma skipn_nth_error {A} (l : list A) (i : nat) (x : A) :
  nth_error l i = Some x -> skipn i l = x :: skipn (S i) l.
Proof.
  revert i. induction l as [|y t IH]; intros [|i] H; simpl in *;
    try discriminate.
  - injection H as ->. reflexivity.
  - apply IH. exact H.
Qed.

(** The index loop of the promise dialect visits [dir[i]], [dir[i+1]], ... *)
Lemma copyDir_loop_forEach rec (n i : nat) (dir : list string)
  (src dest : string) (opts : Opts World) (st : St World) :
  n = length dir - i ->
  Copy.copyDir_loop rec n i dir src dest opts st
  = forEach (skipn i dir) (promise_child rec src dest opts) st.
Proof.
  revert i st. induction n as [|n IH]; intros i st Hn; simpl.
  - rewrite skipn_all2 by lia. reflexivity.
  - destruct (nth_error dir i) as [item|] eqn:Hi.
    + rewrite (skipn_nth_error _ _ _ Hi). simpl.
      unfold promise_child. rewrite bind_assoc_run.
      apply bind_ext. intros [s d] s1. simpl.
      apply bind_ext. intros _ s2. apply IH. lia.
    + apply nth_error_None in Hi. lia.
Qed.

Lemma extends_checkPaths (src dest : string) (opts : Opts World) :
  extends (Copy.checkPaths src dest opts) /\
  extends (CopySync.checkPathsSync src dest opts).
Proof.
  split.
  - unfold Copy.checkPaths, Copy.getStats. extends_auto.
  - unfold CopySync.checkPathsSync, CopySync.getStatsSync. extends_auto.
Qed.

Lemma extends_getStats (fuel : nat) :
  forall destStat src dest (opts : Opts World),
    extends (CopySync.getStats fuel destStat src dest opts).
Proof.
  induction fuel as [|fuel IH]; intros destStat src dest opts; simpl.
  - apply extends_out_of_fuel.
  - unfold CopySync.getStats_body, CopySync.onDir, CopySync.mkDirAndCopy,
      CopySync.copyDir, CopySync.copyDirItem, CopySync.startCopy,
      CopySync.onFile, CopySync.mayCopyFile, CopySync.copyFile,
      CopySync.handleTimestamps, CopySync.setDestTimestamps,
      CopySync.utimesMillisSync, CopySync.makeFileWritable,
      CopySync.setDestMode, CopySync.onLink, CopySync.copyLink.
    extends_auto; try apply IH; try apply extends_checkPaths.
Qed.

Lemma extends_getStatsForCopy (fuel : nat) :
  forall destStat src dest (opts : Opts World),
    extends (Copy.getStatsForCopy fuel destStat src dest opts).
Proof.
  induction fuel as [|fuel IH]; intros destStat src dest opts; simpl.
  - apply extends_out_of_fuel.
  - unfold Copy.getStatsForCopy_body, Copy.onDir, Copy.mkDirAndCopy,
      Copy.copyDir.
    assert (Hloop : forall n i dir s d (o : Opts World),
               extends (Copy.copyDir_loop (Copy.getStatsForCopy fuel) n i dir
                          s d o)).
    { induction n as [|n IHn]; intros i dir s d o; simpl.
      - apply extends_ret.
      - unfold Copy.startCopy, Copy.handleFilter.
        extends_auto; try apply IH; try apply IHn;
          try apply extends_checkPaths. }
    unfold Copy.onFile, Copy.mayCopyFile, Copy._copyFile,
      Copy.handleTimestampsAndMode, Copy.setDestTimestampsAndMode,
      Copy.setDestTimestamps, Copy.utimesMillis, Copy.makeFileWritable,
      Copy.setDestMode, Copy.onLink, Copy.copyLink.
    extends_auto; try apply Hloop.
Qed.
(** The pop loop of the callback dialect takes the items from the end. *)
Lemma copyDirItems_forEachK rec (n : nat) (items : list string)
  (src dest : string) (opts : Opts World) (cb : Cb World unit) :
  length items < n ->
  CopyCb.copyDirItems rec n items src dest opts cb
  = forEachK (callback_order items) (callback_child rec src dest opts) cb.
Proof.
  revert items. induction n as [|n IH]; intros items Hlen; [lia|].
  simpl. unfold pop, callback_order.
  destruct (rev items) as [|x r] eqn:Hrev; [reflexivity|].
  simpl. destruct (Boolean x); simpl; [|reflexivity].
  unfold CopyCb.copyDirItem, callback_child. f_equal.
  extensionality r0. destruct r0 as [e|[s d]]; [reflexivity|]. simpl.
  f_equal. extensionality r1. destruct r1 as [e|[]]; [reflexivity|].
  rewrite IH; [unfold callback_order; rewrite rev_involutive; reflexivity|].
  rewrite length_rev.
  apply (f_equal (@length string)) in Hrev. rewrite length_rev in Hrev.
  simpl in Hrev. lia.
Qed.

Lemma forEach_child_traces (f : string -> M World unit) (items : list string)
  (st : St World) :
  (forall item, extends (f item)) ->
  trace (snd (forEach items f st))
  = trace st ++ concat (map snd (child_traces f items st)) /\
  is_prefix (map fst (child_traces f items st)) items.
Proof.
  intros Hf. revert st. induction items as [|x t IH]; intros st; simpl.
  - split; [symmetry; apply app_nil_r | exists []; reflexivity].
  - unfold bind. destruct (Hf x st) as [b Hb].
    destruct (f x st) as [r st1]. simpl in Hb.
    assert (Hskip : skipn (length (trace st)) (trace st1) = b).
    { rewrite Hb, skipn_app, skipn_all, Nat.sub_diag. reflexivity. }
    destruct r as [[]|e|]; simpl; rewrite Hskip.
    + destruct (IH st1) as [Ht Hp]. rewrite Ht, Hb, <- app_assoc.
      split; [reflexivity|].
      destruct Hp as [rest Hp]. exists rest. simpl. f_equal. exact Hp.
    + rewrite app_nil_r. split; [exact Hb | exists t; reflexivity].
    + rewrite app_nil_r. split; [exact Hb | exists t; reflexivity].
Qed.

End DirFacts.

Section DirRuns.
#[local] Existing Instance fs0.
#[local] Existing Instance path0.
#[local] Existing Instance env0.

(** C4, on [world_two] and [world_order]: the callback dialect takes the
    children from the end of the array [readdir] returned, where the
    blocking and the promise dialects take them from its start.  On
    [world_two], [readdir] lists [a.txt] before [b.txt]: the blocking and
    the promise dialects copy [a.txt] first, the callback dialect copies
    [b.txt] first.  On [world_order], [readdir] lists [a.txt] before
    [z.sock]: the blocking and the promise dialects stop at [a.txt]
    (ERR_FS_COPY_NON_DIR_TO_DIR), the callback dialect has gone to the
    socket first and reports ERR_FS_COPY_SOCKET. *)
Theorem callback_dialect_reverses_child_order :
  (fs_readdir "/k" world_two = SysOk ["a.txt"; "b.txt"] /\
   CopySync.copySyncFn 8 "/k" "/out" no_opts (mkSt world_two [])
   = Copy.copyFn 8 "/k" "/out" no_opts (mkSt world_two []) /\
   fst (Copy.copyFn 8 "/k" "/out" no_opts (mkSt world_two [])) = Ok tt /\
   trace (snd (Copy.copyFn 8 "/k" "/out" no_opts (mkSt world_two [])))
   = [EvMkdir "/out" false;
      EvCopyFile "/k/a.txt" "/out/a.txt"; EvChmod "/out/a.txt" 33188;
      EvCopyFile "/k/b.txt" "/out/b.txt"; EvChmod "/out/b.txt" 33188;
      EvChmod "/out" 16877] /\
   exists st',
     CopyCb.copyPromises 8 "/k" "/out" no_opts (mkSt world_two [])
     = Called (CbOk tt) st' /\
     trace st'
     = [EvMkdir "/out" false;
        EvCopyFile "/k/b.txt" "/out/b.txt"; EvChmod "/out/b.txt" 33188;
        EvCopyFile "/k/a.txt" "/out/a.txt"; EvChmod "/out/a.txt" 33188;
        EvChmod "/out" 16877]) /\
  (fs_readdir "/k" world_order = SysOk ["a.txt"; "z.sock"] /\
   CopySync.copySyncFn 8 "/k" "/out" no_opts (mkSt world_order [])
   = Copy.copyFn 8 "/k" "/out" no_opts (mkSt world_order []) /\
   raises (fst (Copy.copyFn 8 "/k" "/out" no_opts (mkSt world_order [])))
     ERR_FS_COPY_NON_DIR_TO_DIR ENOTDIR "/out/a.txt" /\
   exists e st',
     CopyCb.copyPromises 8 "/k" "/out" no_opts (mkSt world_order [])
     = Called (CbErr e) st' /\
     raises (@Throw unit e) ERR_FS_COPY_SOCKET EINVAL "/out/z.sock").
Proof.
  split.
  - refine (conj eq_refl (conj _ (conj _ (conj _ _)))).
    + vm_compute. reflexivity.
    + vm_compute. reflexivity.
    + vm_compute. reflexivity.
    + eexists. split; vm_compute; reflexivity.
  - refine (conj eq_refl (conj _ (conj _ _))).
    + vm_compute. reflexivity.
    + eexists. vm_compute. reflexivity.
    + do 2 eexists. split; [vm_compute; reflexivity|].
      eexists. reflexivity.
Qed.
End DirRuns.

(** ** The timestamp path on the in-memory filesystem *)

Section MemFsCopy.
#[local] Existing Instance fs0.
#[local] Existing Instance path0.
#[local] Existing Instance env0.

Lemma mode_bits_restore (m : Z) :
  (0 <= m < 65536)%Z ->
  Z.lor (Z.land (Z.lor (Z.land m 61440) (Z.land (Z.lor (ToInt32 m) 128) 4095))
           61440) (Z.land m 4095) = m.
Proof.
  intros Hm. apply Z.bits_inj'. intros n Hn.
  repeat first [rewrite Z.lor_spec | rewrite Z.land_spec].
  destruct (Z_lt_le_dec n 16) as [Hlt|Hge].
  - rewrite ToInt32_low_bits by lia.
    generalize (Z.testbit m n). intros b.
    set (k := Z.to_nat n).
    assert (Hk : (k < 16)%nat) by (subst k; lia).
    replace n with (Z.of_nat k) by (subst k; lia). clearbody k.
    do 16 (destruct k as [|k]; [simpl; destruct b; reflexivity|]). lia.
  - assert (Hhigh : Z.testbit m n = false).
    { destruct (Z.eq_dec m 0) as [->|Hnz]; [apply Z.bits_0|].
      apply Z.bits_above_log2; [lia|].
      apply Z.log2_lt_pow2; [lia|].
      apply Z.lt_le_trans with (2 ^ 16)%Z; [simpl; lia|].
      apply Z.pow_le_mono_r; lia. }
    rewrite Hhigh.
    replace (Z.testbit 61440 n) with false; [|symmetry; apply Z.bits_above_log2; simpl; lia].
    replace (Z.testbit 4095 n) with false; [|symmetry; apply Z.bits_above_log2; simpl; lia].
    rewrite !andb_false_r. reflexivity.
Qed.

Lemma transient_mode_writable (m : Z) :
  (Z.land (Z.lor (Z.land m 61440) (Z.land (Z.lor (ToInt32 m) 128) 4095)) 128
   =? 0)%Z = false.
Proof.
  apply Z.eqb_neq. intros H.
  apply (f_equal (fun z => Z.testbit z 7)) in H.
  repeat first [rewrite Z.lor_spec in H | rewrite Z.land_spec in H].
  simpl in H. rewrite !orb_true_r in H. simpl in H.
  rewrite ?orb_true_r in H. discriminate.
Qed.

Lemma memfs_copy_steps (m at_ mt : Z) (data : string) (m1 : Z) :
  (Z.land m1 128 =? 0)%Z = false ->
  fs_copyFile "/k/foo.txt" "/out/foo.txt" (world_file m at_ mt data)
  = (SysOk tt, world_file_mid m mt data m 100 100 [] 3%Z) /\
  fs_chmod "/out/foo.txt" (Z.lor (ToInt32 m) 128)
    (world_file_mid m mt data m 100 100 [] 3%Z)
  = (SysOk tt,
     world_file_mid m mt data
       (Z.lor (Z.land m 61440) (Z.land (Z.lor (ToInt32 m) 128) 4095))
       100 100 [] 3%Z) /\
  fs_stat "/k/foo.txt" (world_file_mid m mt data m1 100 100 [] 3%Z)
  = SysOk (mkStats KFile m 100 mt 1 4) /\
  fs_open "/out/foo.txt" "r+" (world_file_mid m mt data m1 100 100 [] 3%Z)
  = (SysOk 3%Z,
     world_file_mid m mt data m1 100 100 [(3%Z, "/out/foo.txt")] 4%Z) /\
  fs_futimes 3%Z 100 mt
    (world_file_mid m mt data m1 100 100 [(3%Z, "/out/foo.txt")] 4%Z)
  = (SysOk tt,
     world_file_mid m mt data m1 100 mt [(3%Z, "/out/foo.txt")] 4%Z) /\
  fs_close 3%Z (world_file_mid m mt data m1 100 mt [(3%Z, "/out/foo.txt")] 4%Z)
  = (SysOk tt, world_file_mid m mt data m1 100 mt [] 4%Z) /\
  fs_chmod "/out/foo.txt" m (world_file_mid m mt data m1 100 mt [] 4%Z)
  = (SysOk tt,
     world_file_mid m mt data (Z.lor (Z.land m1 61440) (Z.land m 4095))
       100 mt [] 4%Z).
Proof.
  intros Hw.
  refine (conj _ (conj _ (conj _ (conj _ (conj _ (conj _ _))))));
    try reflexivity.
  cbv -[Z.land Z.eqb]. rewrite Hw. reflexivity.
Qed.

Lemma memfs_copy_readonly (m at_ mt : Z) (data : string) :
  (0 <= m < 65536)%Z ->
  Z.land m 128 = 0%Z ->
  let st := mkSt (world_file m at_ mt data) [] in
  let final :=
    mkSt (world_file_copied m mt data)
      [EvCopyFile "/k/foo.txt" "/out/foo.txt";
       EvChmod "/out/foo.txt" (Z.lor (ToInt32 m) 128);
       EvOpen "/out/foo.txt" "r+"; EvFutimes 3%Z 100 mt; EvClose 3%Z;
       EvChmod "/out/foo.txt" m] in
  Copy.copyFn 8 "/k/foo.txt" "/out/foo.txt" timestamp_opts st
  = (Ok tt, final) /\
  CopySync.copySyncFn 8 "/k/foo.txt" "/out/foo.txt" timestamp_opts st
  = (Ok tt, final) /\
  CopyCb.copyPromises 8 "/k/foo.txt" "/out/foo.txt" timestamp_opts st
  = Called (CbOk tt) final /\
  fs_stat "/out/foo.txt" (world final) = SysOk (mkStats KFile m 100 mt 1 6) /\
  fs_stat "/k/foo.txt" (world final) = SysOk (mkStats KFile m 100 mt 1 4).
Proof.
  intros Hm Hmode st final.
  set (srcStat := mkStats KFile m at_ mt 1 4).
  set (m1 := Z.lor (Z.land m 61440) (Z.land (Z.lor (ToInt32 m) 128) 4095)).
  destruct (memfs_copy_steps m at_ mt data m1 (transient_mode_writable m))
    as (H1 & H2 & H3 & H4 & H5 & H6 & H7).
  destruct (copyFile_readonly_trace srcStat "/k/foo.txt" "/out/foo.txt"
              timestamp_opts st (mkStats KFile m 100 mt 1 4) 3%Z _ _ _ _ _ _
              (fun r s => Called r s) eq_refl Hmode H1 H2 H3 H4 H5 H6 H7)
    as (Hp & Hs & Hc).
  unfold m1 in Hp, Hs, Hc. rewrite (mode_bits_restore m Hm) in Hp, Hs, Hc.
  refine (conj _ (conj _ (conj _ (conj _ _)))); try reflexivity.
  - exact Hp.
  - exact Hs.
  - exact Hc.
Qed.
End MemFsCopy.

(** C8: [preserveTimestamps] with a source mode that lacks the owner-write
    bit.  On any filesystem, when the ambient calls succeed, every dialect
    returns without an error after exactly these mutations, in this order:
    the byte copy; chmod of [dest] to the mode with 0o200 added; opening
    [dest] for ['r+']; [futimes] with the times of a fresh stat of [src];
    closing; chmod of [dest] to [srcStat.mode], which is thus the last
    mutation, after the timestamps are set.  On the in-memory filesystem,
    for every such mode of [/k/foo.txt], the three dialects complete without
    an error and leave [/out/foo.txt] with the source's mtime and exactly
    the source's mode. *)
Theorem copyFile_readonly_keeps_times_and_mode :
  (forall (World : Type) (FS : FsApi World) (srcStat : Stats)
          (src dest : string) (opts : Opts World) (st : St World)
          (updated : Stats) (fd : Fd) (w1 w2 w3 w4 w5 w6 : World)
          (cb : Cb World unit),
     preserveTimestamps opts = true ->
     Z.land (mode srcStat) 128 = 0%Z ->
     fs_copyFile src dest (world st) = (SysOk tt, w1) ->
     fs_chmod dest (Z.lor (ToInt32 (mode srcStat)) 128) w1 = (SysOk tt, w2) ->
     fs_stat src w2 = SysOk updated ->
     fs_open dest "r+" w2 = (SysOk fd, w3) ->
     fs_futimes fd (atime updated) (mtime updated) w3 = (SysOk tt, w4) ->
     fs_close fd w4 = (SysOk tt, w5) ->
     fs_chmod dest (mode srcStat) w5 = (SysOk tt, w6) ->
     let final :=
       mkSt w6
         (trace st ++
          [EvCopyFile src dest;
           EvChmod dest (Z.lor (ToInt32 (mode srcStat)) 128);
           EvOpen dest "r+";
           EvFutimes fd (atime updated) (mtime updated);
           EvClose fd;
           EvChmod dest (mode srcStat)]) in
     Copy._copyFile srcStat src dest opts st = (Ok tt, final) /\
     CopySync.copyFile srcStat src dest opts st = (Ok tt, final) /\
     CopyCb._copyFile srcStat src dest opts cb st = cb (CbOk tt) final) /\
  (forall (m at_ mt : Z) (data : string),
     (0 <= m < 65536)%Z ->
     Z.land m 128 = 0%Z ->
     let st := mkSt (world_file m at_ mt data) [] in
     let final :=
       mkSt (world_file_copied m mt data)
         [EvCopyFile "/k/foo.txt" "/out/foo.txt";
          EvChmod "/out/foo.txt" (Z.lor (ToInt32 m) 128);
          EvOpen "/out/foo.txt" "r+"; EvFutimes 3%Z 100 mt; EvClose 3%Z;
          EvChmod "/out/foo.txt" m] in
     @Copy.copyFn _ fs0 path0 env0 8 "/k/foo.txt" "/out/foo.txt"
       timestamp_opts st
     = (Ok tt, final) /\
     @CopySync.copySyncFn _ fs0 path0 env0 8 "/k/foo.txt" "/out/foo.txt"
       timestamp_opts st
     = (Ok tt, final) /\
     @CopyCb.copyPromises _ fs0 path0 env0 8 "/k/foo.txt" "/out/foo.txt"
       timestamp_opts st
     = Called (CbOk tt) final /\
     @fs_stat _ fs0 "/out/foo.txt" (world final)
     = SysOk (mkStats KFile m 100 mt 1 6) /\
     @fs_stat _ fs0 "/k/foo.txt" (world final)
     = SysOk (mkStats KFile m 100 mt 1 4)).
Proof.
  split.
  - intros World FS srcStat src dest opts st updated fd w1 w2 w3 w4 w5 w6 cb
      Hts Hmode H1 H2 H3 H4 H5 H6 H7.
    exact (copyFile_readonly_trace srcStat src dest opts st updated fd
             w1 w2 w3 w4 w5 w6 cb Hts Hmode H1 H2 H3 H4 H5 H6 H7).
  - intros m at_ mt data Hm Hmode.
    exact (memfs_copy_readonly m at_ mt data Hm Hmode).
Qed.

(** C8 at mode 0o100444 (33060), mtime 20: the copy completes, the
    transient mode is 0o100644 (33188), and in the final world
    [/out/foo.txt] has mode 33060 and mtime 20. *)
Lemma copyFile_readonly_keeps_times_and_mode_witness :
  (0 <= 33060 < 65536)%Z /\
  Z.land 33060 128 = 0%Z /\
  Z.lor (ToInt32 33060) 128 = 33188%Z /\
  @Copy.copyFn _ fs0 path0 env0 8 "/k/foo.txt" "/out/foo.txt" timestamp_opts
    (mkSt (world_file 33060 10 20 "foo") [])
  = (Ok tt,
     mkSt (world_file_copied 33060 20 "foo")
       [EvCopyFile "/k/foo.txt" "/out/foo.txt";
        EvChmod "/out/foo.txt" (Z.lor (ToInt32 33060) 128);
        EvOpen "/out/foo.txt" "r+"; EvFutimes 3%Z 100 20; EvClose 3%Z;
        EvChmod "/out/foo.txt" 33060]) /\
  @fs_stat _ fs0 "/out/foo.txt" (world_file_copied 33060 20 "foo")
  = SysOk (mkStats KFile 33060 100 20 1 6).
Proof.
  assert (Hm : (0 <= 33060 < 65536)%Z) by lia.
  assert (Hb : Z.land 33060 128 = 0%Z) by reflexivity.
  pose proof (proj2 copyFile_readonly_keeps_times_and_mode 33060%Z 10%Z 20%Z
                "foo" Hm Hb) as H.
  cbv zeta in H. destruct H as (Hp & _ & _ & Hstat & _).
  refine (conj Hm (conj Hb (conj eq_refl (conj Hp Hstat)))).
Defined.

(** ** Runs of the callback dialect *)

Section CallbackFacts.
Context {World : Type} {FS : FsApi World} {P : PathApi} {E : ProcessEnv}.

Lemma grows_refl (st : St World) (r : CbArg unit) : grows st (Called r st).
Proof. exists []. symmetry. apply app_nil_r. Qed.

Lemma grows_trans (st st1 : St World) (x : Final World) (rest : list Event) :
  trace st1 = trace st ++ rest -> grows st1 x -> grows st x.
Proof.
  intros H1. destruct x as [r s|m s|]; simpl; auto;
    intros [r2 H2]; exists (rest ++ r2); rewrite H2, H1;
    symmetry; apply app_assoc.
Qed.

Lemma wb_ret (r : CbArg unit) : well_behaved (fun cb : Cb World unit => cb r).
Proof.
  intros st. exists (Called r st). split; [reflexivity|apply grows_refl].
Qed.

Lemma wb_uncaught (msg : string) :
  well_behaved (fun _ : Cb World unit => Uncaught msg).
Proof.
  intros st. exists (Uncaught msg st). split; [reflexivity|].
  exists []. symmetry. apply app_nil_r.
Qed.

Lemma wb_fuel_out :
  well_behaved (fun (_ : Cb World unit) (_ : St World) => @FuelOut World).
Proof. intros st. exists FuelOut. split; [reflexivity|exact I]. Qed.

Lemma wb_read {A} (g : World -> Sys A)
  (k : CbArg A -> Cb World unit -> K World) :
  (forall r, well_behaved (k r)) ->
  well_behaved (fun cb => FsCb.read g (fun r => k r cb)).
Proof.
  intros Hk st. unfold FsCb.read.
  destruct (Hk (arg_of_sys (g (world st))) st) as (x & Hx & Hg).
  exists x. split; assumption.
Qed.

Lemma wb_mutate {A} (ev : Event) (g : World -> Sys A * World)
  (k : CbArg A -> Cb World unit -> K World) :
  (forall r, well_behaved (k r)) ->
  well_behaved (fun cb => FsCb.mutate ev g (fun r => k r cb)).
Proof.
  intros Hk st. unfold FsCb.mutate.
  destruct (g (world st)) as [r w'].
  destruct (Hk (arg_of_sys r) (mkSt w' (trace st ++ [ev]))) as (x & Hx & Hg).
  exists x. split; [assumption|].
  eapply grows_trans; [|exact Hg]. reflexivity.
Qed.

Lemma wb_then (f : Cb World unit -> K World)
  (k : CbArg unit -> Cb World unit -> K World) :
  well_behaved f -> (forall r, well_behaved (k r)) ->
  well_behaved (fun cb => f (fun r => k r cb)).
Proof.
  intros Hf Hk st. destruct (Hf st) as (x & Hx & Hg).
  destruct x as [r st1|msg st1|].
  - destruct (Hk r st1) as (y & Hy & Hgy). exists y. split.
    + intros cb. rewrite Hx. simpl. apply Hy.
    + destruct Hg as [rest Hrest]. eapply grows_trans; eassumption.
  - exists (Uncaught msg st1). split; [|exact Hg].
    intros cb. rewrite Hx. reflexivity.
  - exists FuelOut. split; [|exact I].
    intros cb. rewrite Hx. reflexivity.
Qed.

Lemma wb_checkPaths (src dest : string) (opts : Opts World)
  (k : CbArg (Stats * option Stats) -> Cb World unit -> K World) :
  (forall r, well_behaved (k r)) ->
  well_behaved (fun cb => CopyCb.checkPaths src dest opts (fun r => k r cb)).
Proof.
  intros Hk st.
  destruct (fst (Copy.checkPaths src dest opts st)) as [a|e|] eqn:Hc.
  - destruct (Hk (CbOk a) st) as (x & Hx & Hg). exists x.
    split; [|exact Hg]. intros cb.
    rewrite checkPaths_cb_delivers, Hc. simpl. apply Hx.
  - destruct (Hk (CbErr e) st) as (x & Hx & Hg). exists x.
    split; [|exact Hg]. intros cb.
    rewrite checkPaths_cb_delivers, Hc. simpl. apply Hx.
  - exists FuelOut. split; [|exact I]. intros cb.
    rewrite checkPaths_cb_delivers, Hc. reflexivity.
Qed.

End CallbackFacts.

(** Decomposes a goal [well_behaved f] along the structure of [f]. *)
Ltac wb_step :=
  match goal with
  | |- well_behaved (fun cb => FsCb.read _ _) => apply wb_read; intro
  | |- well_behaved (fun cb => FsCb.mutate _ _ _) => apply wb_mutate; intro
  | |- well_behaved (fun cb => CopyCb.checkPaths _ _ _ _) =>
      apply wb_checkPaths; intro
  | |- well_behaved (fun cb => cb _) => apply wb_ret
  | |- well_behaved (fun cb => Uncaught _) => apply wb_uncaught
  | |- well_behaved (fun cb => if ?b then _ else _) => destruct b
  | |- well_behaved (fun cb => match ?x with _ => _ end) => destruct x
  | |- well_behaved (fun cb => let (_, _) := ?x in _) => destruct x
  end.

Ltac fscb_unfold :=
  unfold FsCb.stat, FsCb.lstat, FsCb.readlink, FsCb.readdir, FsCb.mkdir,
    FsCb.unlink, FsCb.copyFile, FsCb.chmod, FsCb.symlink, FsCb.open,
    FsCb.futimes, FsCb.close.

Section CallbackRuns.
Context {World : Type} {FS : FsApi World} {P : PathApi} {E : ProcessEnv}.

Lemma wb_onFile (srcStat : Stats) (destStat : option Stats)
  (src dest : string) (opts : Opts World) :
  well_behaved (CopyCb.onFile srcStat destStat src dest opts).
Proof.
  unfold CopyCb.onFile, CopyCb.mayCopyFile, CopyCb._copyFile,
    CopyCb.handleTimestampsAndMode, CopyCb.setDestTimestampsAndMode,
    CopyCb.setDestTimestamps, CopyCb.utimesMillis, CopyCb.makeFileWritable,
    CopyCb.setDestMode.
  fscb_unfold.
  repeat wb_step.
Qed.
Lemma wb_onLink (destStat : option Stats) (src dest : string)
  (opts : Opts World) :
  well_behaved (CopyCb.onLink destStat src dest opts).
Proof.
  unfold CopyCb.onLink, CopyCb.copyLink. fscb_unfold.
  repeat wb_step.
Qed.

Section Knot.
Variable rec :
  option Stats -> string -> string -> Opts World -> Cb World unit -> K World.
Hypothesis wb_rec :
  forall destStat src dest opts, well_behaved (rec destStat src dest opts).

Lemma wb_startCopy (destStat : option Stats) (src dest : string)
  (opts : Opts World) :
  well_behaved (CopyCb.startCopy rec destStat src dest opts).
Proof.
  unfold CopyCb.startCopy, CopyCb.handleFilter.
  destruct (filter opts) as [f|]; [|apply wb_rec].
  intros st. destruct (f src dest (world st)) eqn:Hf.
  - destruct (wb_rec destStat src dest opts st) as (x & Hx & Hg).
    exists x. split; [|exact Hg]. intros cb. apply Hx.
  - exists (Called (CbOk tt) st).
    split; [intros cb; reflexivity | apply grows_refl].
Qed.

Lemma wb_callback_child (src dest : string) (opts : Opts World)
  (item : string) :
  well_behaved (callback_child rec src dest opts item).
Proof.
  unfold callback_child. apply wb_checkPaths. intros [e|[s d]].
  - apply wb_ret.
  - apply wb_startCopy.
Qed.

Lemma wb_forEachK (f : string -> Cb World unit -> K World)
  (items : list string) :
  (forall item, well_behaved (f item)) -> well_behaved (forEachK items f).
Proof.
  intros Hf. induction items as [|x t IH]; simpl.
  - apply wb_ret.
  - apply (wb_then (f x)
             (fun r cb => match r with
                          | CbErr err => cb (CbErr err)
                          | CbOk _ => forEachK t f cb
                          end)); [apply Hf|].
    intros [e|[]]; [apply wb_ret | exact IH].
Qed.

Lemma wb_copyDir (src dest : string) (opts : Opts World) :
  well_behaved (CopyCb.copyDir rec src dest opts).
Proof.
  unfold CopyCb.copyDir. fscb_unfold. apply wb_read. intros [e|items].
  - apply wb_ret.
  - intros st.
    destruct (wb_forEachK (callback_child rec src dest opts)
                (callback_order items)
                (wb_callback_child src dest opts) st) as (x & Hx & Hg).
    exists x. split; [|exact Hg]. intros cb.
    rewrite copyDirItems_forEachK by lia. apply Hx.
Qed.

Lemma wb_getStatsForCopy_body (destStat : option Stats) (src dest : string)
  (opts : Opts World) :
  well_behaved (CopyCb.getStatsForCopy_body rec destStat src dest opts).
Proof.
  unfold CopyCb.getStatsForCopy_body, CopyCb.onDir, CopyCb.mkDirAndCopy,
    CopyCb.setDestMode.
  fscb_unfold.
  destruct (dereference opts); cbv beta;
  repeat first
    [ wb_step
    | apply wb_onFile
    | apply wb_onLink
    | apply wb_copyDir
    | apply (wb_then (CopyCb.copyDir rec src dest opts)
               (fun r cb => match r with
                            | CbErr err => cb (CbErr err)
                            | CbOk _ =>
                                FsCb.mutate (EvChmod dest (mode _))
                                  (fs_chmod dest (mode _)) cb
                            end)); [apply wb_copyDir | intro] ].
Qed.
End Knot.

Lemma wb_getStatsForCopy (fuel : nat) :
  forall destStat src dest (opts : Opts World),
    well_behaved (CopyCb.getStatsForCopy fuel destStat src dest opts).
Proof.
  induction fuel as [|fuel IH]; intros destStat src dest opts; simpl.
  - apply wb_fuel_out.
  - apply wb_getStatsForCopy_body. exact IH.
Qed.
End CallbackRuns.

(** ** The order of the children *)

Section ChildrenFacts.
Context {World : Type} {FS : FsApi World} {P : PathApi} {E : ProcessEnv}.

Lemma then_cb_Called (x : Final World) :
  then_cb x (fun r s => Called r s) = x.
Proof. destruct x; reflexivity. Qed.

Lemma skipn_trace (st st1 : St World) (b : list Event) :
  trace st1 = trace st ++ b -> skipn (length (trace st)) (trace st1) = b.
Proof.
  intros ->. rewrite skipn_app, skipn_all, Nat.sub_diag. reflexivity.
Qed.

Lemma forEachK_child_traces (f : string -> Cb World unit -> K World)
  (items : list string) (st : St World) :
  (forall item, well_behaved (f item)) ->
  match final_trace (run_cb (forEachK items f) st) with
  | Some t => t = trace st ++ concat (map snd (child_traces_cb f items st))
  | None => True
  end /\
  is_prefix (map fst (child_traces_cb f items st)) items.
Proof.
  intros Hf. revert st. induction items as [|x t IH]; intros st.
  - simpl. split; [symmetry; apply app_nil_r | exists []; reflexivity].
  - destruct (Hf x st) as (y & Hy & Hg).
    assert (Hrun : run_cb (f x) st = y)
      by (unfold run_cb; rewrite Hy; apply then_cb_Called).
    unfold run_cb at 1. simpl forEachK. rewrite Hy.
    simpl child_traces_cb. rewrite Hrun.
    destruct y as [r st1|msg st1|]; simpl in Hg |- *.
    + destruct Hg as [b Hb]. rewrite (skipn_trace _ _ _ Hb).
      destruct r as [e|[]]; simpl.
      * rewrite app_nil_r. split; [exact Hb | exists t; reflexivity].
      * destruct (IH st1) as [Ht Hp]. unfold run_cb in Ht. split.
        -- destruct (final_trace (forEachK t f (fun r s => Called r s) st1));
             [|exact I].
           rewrite Ht, Hb, <- app_assoc. reflexivity.
        -- destruct Hp as [rest Hp]. exists rest. simpl. f_equal. exact Hp.
    + destruct Hg as [b Hb]. rewrite (skipn_trace _ _ _ Hb). simpl.
      rewrite app_nil_r. split; [exact Hb | exists t; reflexivity].
    + split; [exact I | exists (x :: t); reflexivity].
Qed.

Lemma take_truthy_prefix (items : list string) :
  is_prefix (take_truthy items) items.
Proof.
  induction items as [|x t [r IH]]; simpl; [exists []; reflexivity|].
  destruct (Boolean x); [|exists (x :: t); reflexivity].
  exists r. simpl. f_equal. exact IH.
Qed.

(** When no name is empty the callback dialect takes exactly the reversed
    array. *)
Lemma callback_order_rev (items : list string) :
  forallb Boolean items = true -> callback_order items = rev items.
Proof.
  intros H. unfold callback_order.
  assert (Hr : forallb Boolean (rev items) = true).
  { rewrite forallb_forall in *. intros x Hx. apply H. apply in_rev. exact Hx. }
  revert Hr. generalize (rev items). intros l.
  induction l as [|x t IH]; simpl; [reflexivity|].
  intros Hl. apply andb_true_iff in Hl. destruct Hl as [-> Ht].
  rewrite IH by assumption. reflexivity.
Qed.

(** How the children are iterated.  Every dialect processes the children
    one at a time, the next child starting on the state the previous one
    left and the first child that throws ending the iteration: the blocking
    and the promise dialects in the order [readdir] returned, the callback
    dialect from the end of that array backwards (an empty name ends it).
    In the blocking and the promise dialects the trace of the iteration is
    the concatenation, child after child in that order, of what each
    processed child added; in the callback dialect likewise, over the
    reversed order. *)
Theorem children_processed_one_at_a_time (fuel : nat) (src dest : string)
  (opts : Opts World) (st : St World) :
  let sync := sync_child (CopySync.getStats fuel) src dest opts in
  let promise := promise_child (Copy.getStatsForCopy fuel) src dest opts in
  let callback :=
    callback_child (CopyCb.getStatsForCopy fuel) src dest opts in
  CopySync.copyDir (CopySync.getStats fuel) src dest opts st
  = bind (Fs.readdir src) (fun items => forEach items sync) st /\
  Copy.copyDir (Copy.getStatsForCopy fuel) src dest opts st
  = bind (Fs.readdir src) (fun items => forEach items promise) st /\
  (forall cb,
     CopyCb.copyDir (CopyCb.getStatsForCopy fuel) src dest opts cb st
     = FsCb.readdir src (fun r =>
         match r with
         | CbErr err => cb (CbErr err)
         | CbOk items => forEachK (callback_order items) callback cb
         end) st) /\
  (forall items s,
     trace (snd (forEach items sync s))
     = trace s ++ concat (map snd (child_traces sync items s)) /\
     is_prefix (map fst (child_traces sync items s)) items) /\
  (forall items s,
     trace (snd (forEach items promise s))
     = trace s ++ concat (map snd (child_traces promise items s)) /\
     is_prefix (map fst (child_traces promise items s)) items) /\
  (forall items s,
     is_prefix (callback_order items) (rev items) /\
     match
       final_trace (run_cb (forEachK (callback_order items) callback) s)
     with
     | Some t =>
         t = trace s ++
             concat (map snd
                       (child_traces_cb callback (callback_order items) s))
     | None => True
     end /\
     is_prefix (map fst (child_traces_cb callback (callback_order items) s))
       (callback_order items)).
Proof.
  intros sync promise callback.
  refine (conj _ (conj _ (conj _ (conj _ (conj _ _))))).
  - unfold CopySync.copyDir. apply bind_ext. intros items s.
    apply forEach_ext. intros item s'.
    unfold sync, sync_child, CopySync.copyDirItem.
    apply bind_ext. intros [a d] s''. reflexivity.
  - unfold Copy.copyDir. apply bind_ext. intros items s.
    rewrite copyDir_loop_forEach by lia. reflexivity.
  - intros cb. unfold CopyCb.copyDir, FsCb.readdir, FsCb.read.
    destruct (arg_of_sys (fs_readdir src (world st))) as [e|items];
      [reflexivity|].
    rewrite copyDirItems_forEachK by lia. reflexivity.
  - intros items s. apply forEach_child_traces. intros item.
    unfold sync, sync_child. apply extends_bind.
    + apply extends_checkPaths.
    + intros [a d]. unfold CopySync.startCopy.
      extends_auto; apply extends_getStats.
  - intros items s. apply forEach_child_traces. intros item.
    unfold promise, promise_child. apply extends_bind.
    + apply extends_checkPaths.
    + intros [a d]. unfold Copy.startCopy, Copy.handleFilter.
      extends_auto; apply extends_getStatsForCopy.
  - intros items s. split; [apply take_truthy_prefix|].
    apply forEachK_child_traces. intros item.
    apply wb_callback_child. apply wb_getStatsForCopy.
Qed.
End ChildrenFacts.


(** ** Further facts: the path and inode predicates *)

Section PredicateLaws.
Context {P : PathApi}.

Lemma is_prefix_trans {A} (l1 l2 l3 : list A) :
  is_prefix l1 l2 -> is_prefix l2 l3 -> is_prefix l1 l3.
Proof.
  intros [r1 ->] [r2 ->]. exists (r1 ++ r2). symmetry. apply app_assoc.
Qed.

Lemma is_prefix_length {A} (l1 l2 : list A) :
  is_prefix l1 l2 -> length l1 <= length l2.
Proof. intros [r ->]. rewrite length_app. lia. Qed.

Lemma is_prefix_antisym {A} (l1 l2 : list A) :
  is_prefix l1 l2 -> is_prefix l2 l1 -> l1 = l2.
Proof.
  intros [r1 H1] [r2 H2].
  assert (Hlen : length r1 = 0).
  { apply (f_equal (@length A)) in H1, H2.
    rewrite length_app in H1, H2. lia. }
  destruct r1; [|discriminate]. rewrite app_nil_r in H1. congruence.
Qed.


(** X2: [isSrcSubdir] is transitive, two paths that are subdirectories of
    each other have the same components, and a source has at most as many
    components as a destination it contains. *)
Theorem isSrcSubdir_transitive (a b c : string) :
  Copy.isSrcSubdir a b = true ->
  (Copy.isSrcSubdir b c = true -> Copy.isSrcSubdir a c = true) /\
  (Copy.isSrcSubdir b a = true ->
   Copy.normalizePathToArray a = Copy.normalizePathToArray b) /\
  length (Copy.normalizePathToArray a) <= length (Copy.normalizePathToArray b).
Proof.
  intros Hab. apply isSrcSubdir_prefix in Hab.
  refine (conj _ (conj _ _)).
  - intros Hbc. apply isSrcSubdir_prefix in Hbc. apply isSrcSubdir_prefix.
    eapply is_prefix_trans; eassumption.
  - intros Hba. apply isSrcSubdir_prefix in Hba.
    apply is_prefix_antisym; assumption.
  - apply is_prefix_length. exact Hab.
Qed.

Lemma split_parts_no_sep (s : string) (c : ascii) :
  Forall (fun part => ~ In c (list_ascii_of_string part))
    (StringPrototypeSplit s c).
Proof.
  induction s as [|a s IH]; simpl.
  - constructor; [intros []|constructor].
  - destruct (Ascii.eqb_spec a c) as [->|Hac].
    + constructor; [intros []|exact IH].
    + destruct (StringPrototypeSplit s c) as [|w ws].
      * constructor; [|constructor]. simpl. intros [H|[]]. congruence.
      * inversion IH as [|? ? Hw Hws]; subst.
        constructor; [|exact Hws]. simpl. intros [H|H]; [congruence|].
        exact (Hw H).
Qed.

(** X3: the components [normalizePathToArray] returns are never empty and
    never contain the separator. *)
Theorem normalizePathToArray_components (path part : string) :
  In part (Copy.normalizePathToArray path) ->
  part <> "" /\ ~ In sep (list_ascii_of_string part).
Proof.
  unfold Copy.normalizePathToArray, ArrayPrototypeFilter.
  intros Hin. apply filter_In in Hin. destruct Hin as [Hin Hb].
  split.
  - unfold Boolean in Hb. apply negb_true_iff in Hb.
    apply String.eqb_neq. exact Hb.
  - pose proof (split_parts_no_sep (resolve [path]) sep) as Hall.
    rewrite Forall_forall in Hall. apply Hall. exact Hin.
Qed.
End PredicateLaws.

(** ** Further facts: the entry points and the dispatcher *)

Section EntryFacts.
Context {World : Type} {FS : FsApi World} {P : PathApi} {E : ProcessEnv}.

Lemma checkPaths_reads (src dest : string) (opts : Opts World)
  (st : St World) :
  snd (Copy.checkPaths src dest opts st) = st.
Proof.
  unfold Copy.checkPaths, bind.
  pose proof (proj1 (getStats_reads src dest opts st)) as Hg.
  destruct (Copy.getStats src dest opts st) as [[[s d]|e|] st'];
    simpl in Hg; subst st'; try reflexivity.
  unfold ret, throw.
  destruct d as [d|]; simpl;
    repeat match goal with
           | |- context [if ?b then _ else _] => destruct b; simpl
           end; reflexivity.
Qed.

Lemma checkPathsSync_eq (src dest : string) (opts : Opts World)
  (st : St World) :
  CopySync.checkPathsSync src dest opts st = Copy.checkPaths src dest opts st.
Proof.
  unfold CopySync.checkPathsSync, Copy.checkPaths, bind.
  rewrite (proj2 (getStats_reads src dest opts st)). reflexivity.
Qed.

Lemma getStats_world (src dest : string) (opts : Opts World)
  (st st' : St World) :
  world st' = world st ->
  Copy.getStats src dest opts st'
  = (fst (Copy.getStats src dest opts st), st').
Proof.
  intros Hw. destruct st as [w t], st' as [w' t']. simpl in Hw. subst w'.
  unfold Copy.getStats. monad_unfold.
  destruct (dereference opts); simpl.
  - destruct (fs_stat src w); simpl; [|reflexivity].
    destruct (fs_stat dest w) as [d|code]; simpl; [reflexivity|].
    destruct (code =? "ENOENT"); reflexivity.
  - destruct (fs_lstat src w); simpl; [|reflexivity].
    destruct (fs_lstat dest w) as [d|code]; simpl; [reflexivity|].
    destruct (code =? "ENOENT"); reflexivity.
Qed.

Lemma checkPaths_world (src dest : string) (opts : Opts World)
  (st st' : St World) :
  world st' = world st ->
  Copy.checkPaths src dest opts st'
  = (fst (Copy.checkPaths src dest opts st), st').
Proof.
  intros Hw. unfold Copy.checkPaths, bind.
  rewrite (getStats_world src dest opts st st' Hw).
  pose proof (proj1 (getStats_reads src dest opts st)) as Hg.
  destruct (Copy.getStats src dest opts st) as [[[s d]|e|] st1];
    simpl in *; try reflexivity.
  unfold ret, throw.
  destruct d as [d|]; simpl;
    repeat match goal with
           | |- context [if ?b then _ else _] => destruct b; simpl
           end; reflexivity.
Qed.

Lemma checkParentPaths_world (fuel : nat) (src : string) (srcStat : Stats)
  (dest : string) (st st' : St World) :
  world st' = world st ->
  Copy.checkParentPaths fuel src srcStat dest st'
  = (fst (Copy.checkParentPaths fuel src srcStat dest st), st').
Proof.
  intros Hw. destruct st as [w t], st' as [w' t']. simpl in Hw. subst w'.
  revert dest.
  induction fuel as [|fuel IH]; intros dest; simpl; [reflexivity|].
  destruct ((resolve [dirname dest] =? resolve [dirname src])
            || (resolve [dirname dest] =? parse_root (resolve [dirname dest])));
    [reflexivity|].
  monad_unfold. simpl.
  destruct (fs_stat (resolve [dirname dest]) w) as [d|code]; simpl.
  - destruct (Copy.areIdentical srcStat d); [reflexivity|apply IH].
  - destruct (code =? "ENOENT"); reflexivity.
Qed.

Lemma checkParentPathsSync_eq (fuel : nat) (src : string) (srcStat : Stats)
  (dest : string) (st : St World) :
  CopySync.checkParentPathsSync fuel src srcStat dest st
  = Copy.checkParentPaths fuel src srcStat dest st.
Proof.
  revert dest. induction fuel as [|fuel IH]; intros dest; simpl;
    [reflexivity|].
  destruct ((resolve [dirname dest] =? resolve [dirname src])
            || (resolve [dirname dest] =? parse_root (resolve [dirname dest])));
    [reflexivity|].
  monad_unfold.
  destruct (fs_stat (resolve [dirname dest]) (world st)) as [d|code]; simpl.
  - destruct (Copy.areIdentical srcStat d); [reflexivity|apply IH].
  - destruct (code =? "ENOENT"); reflexivity.
Qed.

Lemma checkParentPaths_cb_delivers (fuel : nat) (src : string)
  (srcStat : Stats) (dest : string) (cb : Cb World unit) (st : St World) :
  CopyCb.checkParentPaths fuel src srcStat dest cb st
  = delivered (fst (Copy.checkParentPaths fuel src srcStat dest st)) cb st.
Proof.
  revert dest. induction fuel as [|fuel IH]; intros dest; simpl;
    [reflexivity|].
  destruct ((resolve [dirname dest] =? resolve [dirname src])
            || (resolve [dirname dest] =? parse_root (resolve [dirname dest])));
    [reflexivity|].
  monad_unfold. unfold FsCb.stat, FsCb.read.
  destruct (fs_stat (resolve [dirname dest]) (world st)) as [d|code]; simpl.
  - change (CopyCb.areIdentical srcStat d)
      with (Copy.areIdentical srcStat d).
    destruct (Copy.areIdentical srcStat d); [reflexivity|apply IH].
  - destruct (code =? "ENOENT"); reflexivity.
Qed.

(** X4: a source that is a socket, a FIFO or of no known type is refused by
    the dispatcher of every dialect with the error of its type
    (ERR_FS_COPY_SOCKET, ERR_FS_COPY_FIFO_PIPE, ERR_FS_COPY_UNKNOWN; errno
    EINVAL, path [dest]), whatever [destStat] and the options are, and
    nothing is changed. *)
Theorem getStatsForCopy_refuses_unsupported_kinds (fuel : nat)
  (destStat : option Stats) (src dest : string) (opts : Opts World)
  (st : St World) (srcStat : Stats) (c : ErrCode) :
  stat_for opts src (world st) = SysOk srcStat ->
  unsupported_kind (st_kind srcStat) = Some c ->
  exists e,
    raises (@Throw unit e) c EINVAL dest /\
    Copy.getStatsForCopy (S fuel) destStat src dest opts st = (Throw e, st) /\
    CopySync.getStats (S fuel) destStat src dest opts st = (Throw e, st) /\
    forall cb,
      CopyCb.getStatsForCopy (S fuel) destStat src dest opts cb st
      = cb (CbErr e) st.
Proof.
  unfold stat_for. intros Hstat Hkind. simpl.
  unfold Copy.getStatsForCopy_body, CopySync.getStats_body,
    CopyCb.getStatsForCopy_body, isDirectory, isFile, isCharacterDevice,
    isBlockDevice, isSymbolicLink, isSocket, isFIFO, raises.
  monad_unfold. unfold FsCb.stat, FsCb.lstat, FsCb.read.
  destruct (dereference opts); rewrite Hstat; simpl;
    destruct (st_kind srcStat); simpl in *; try discriminate;
    injection Hkind as <-;
    (eexists; split; [eexists; reflexivity|]);
    repeat split; reflexivity.
Qed.

Lemma with_no_events (st : St World) : mkSt (world st) (trace st ++ []) = st.
Proof. destruct st as [w t]. simpl. rewrite app_nil_r. reflexivity. Qed.

(** X5: an error of the pre-flight checks ([checkPaths], then
    [checkParentPaths]) is what the entry point of every dialect fails
    with, and it is raised before any filesystem call that changes
    something: the world is untouched, and the trace holds at most the
    32-bit warning. *)
Theorem preflight_errors_precede_mutations (fuel : nat) (src dest : string)
  (opts : Opts World) (st : St World) (e : Error) :
  fst (preflight fuel src dest opts st) = Throw e ->
  Copy.copyFn fuel src dest opts st
  = (Throw e, mkSt (world st) (trace st ++ warning_events opts)) /\
  CopySync.copySyncFn fuel src dest opts st
  = (Throw e, mkSt (world st) (trace st ++ warning_events opts)) /\
  CopyCb.copyPromises fuel src dest opts st
  = Called (CbErr e)
      (mkSt (world st) (trace st ++ console_warning_events opts)).
Proof.
  intros Hpre.
  assert (Hrun : forall st1, world st1 = world st ->
            (exists stats,
               fst (Copy.checkPaths src dest opts st) = Ok stats /\
               Copy.checkPaths src dest opts st1 = (Ok stats, st1) /\
               Copy.checkParentPaths fuel src (fst stats) dest st1
               = (Throw e, st1)) \/
            (fst (Copy.checkPaths src dest opts st) = Throw e /\
             Copy.checkPaths src dest opts st1 = (Throw e, st1))).
  { intros st1 Hw. revert Hpre. unfold preflight. rewrite bind_run.
    rewrite (checkPaths_world src dest opts st st1 Hw).
    rewrite (surjective_pairing (Copy.checkPaths src dest opts st)).
    rewrite checkPaths_reads.
    destruct (fst (Copy.checkPaths src dest opts st)) as [stats|e'|];
      simpl; try discriminate.
    - intros H. left. exists stats. split; [reflexivity|].
      split; [reflexivity|].
      rewrite (checkParentPaths_world fuel src (fst stats) dest st st1 Hw).
      rewrite H. reflexivity.
    - intros H. injection H as ->. right. split; reflexivity. }
  refine (conj _ (conj _ _)).
  - unfold Copy.copyFn, warning_events, Fs.emitWarning. rewrite bind_run.
    destruct (preserveTimestamps opts && (process_arch =? "ia32"));
      cbv beta iota; [|unfold ret; cbv beta iota; rewrite with_no_events];
      (match goal with
       | |- bind _ _ ?s = _ =>
           destruct (Hrun s eq_refl) as [(stats & _ & H1 & H2)|(_ & H1)];
             rewrite bind_run, H1; [|reflexivity]
       end;
       destruct stats as [s d]; cbn [fst] in H2; rewrite bind_run, H2;
       reflexivity).
  - unfold CopySync.copySyncFn, warning_events, Fs.emitWarning.
    rewrite bind_run.
    destruct (preserveTimestamps opts && (process_arch =? "ia32"));
      cbv beta iota; [|unfold ret; cbv beta iota; rewrite with_no_events];
      (match goal with
       | |- bind _ _ ?s = _ =>
           destruct (Hrun s eq_refl) as [(stats & _ & H1 & H2)|(_ & H1)];
             rewrite bind_run, checkPathsSync_eq, H1; [|reflexivity]
       end;
       destruct stats as [s d]; cbn [fst] in H2;
       rewrite bind_run, checkParentPathsSync_eq, H2; reflexivity).
  - unfold CopyCb.copyPromises, CopyCb.copyFn, console_warning_events,
      FsCb.console_warn.
    destruct (preserveTimestamps opts && (process_arch =? "ia32"));
      cbv beta iota; [|rewrite with_no_events];
      (match goal with
       | |- CopyCb.checkPaths _ _ _ _ ?s = _ =>
           destruct (Hrun s eq_refl) as [(stats & _ & H1 & H2)|(_ & H1)];
             rewrite checkPaths_cb_delivers, H1; cbn [fst delivered]; [|reflexivity]
       end;
       destruct stats as [s d]; cbn [fst] in H2;
       cbv beta iota; rewrite checkParentPaths_cb_delivers, H2; reflexivity).
Qed.

(** The entry points, once the warning is out and the pre-flight checks
    have been run: what is left is the filter and the copy proper. *)
Lemma copyFn_run (fuel : nat) (src dest : string) (opts : Opts World)
  (st : St World) :
  Copy.copyFn fuel src dest opts st
  = let st1 := mkSt (world st) (trace st ++ warning_events opts) in
    match fst (Copy.checkPaths src dest opts st) with
    | Ok (s, d) =>
        match fst (Copy.checkParentPaths fuel src s dest st) with
        | Ok _ =>
            match filter opts with
            | Some f =>
                Copy.handleFilter (Copy.checkParentDir fuel) f d src dest opts
                  st1
            | None => Copy.checkParentDir fuel d src dest opts st1
            end
        | Throw e => (Throw e, st1)
        | OutOfFuel => (OutOfFuel, st1)
        end
    | Throw e => (Throw e, st1)
    | OutOfFuel => (OutOfFuel, st1)
    end.
Proof.
  cbv zeta.
  assert (Hst : exists st1,
            st1 = mkSt (world st) (trace st ++ warning_events opts) /\
            world st1 = world st /\
            (if preserveTimestamps opts && (process_arch =? "ia32") then
               Fs.emitWarning
                 ("Using the preserveTimestamps option in 32-bit" ++
                  "node is not recommended")
                 "TimestampPrecisionWarning"
             else ret tt) st = (Ok tt, st1)).
  { eexists. split; [reflexivity|]. split; [reflexivity|].
    unfold warning_events, Fs.emitWarning, ret.
    destruct (preserveTimestamps opts && (process_arch =? "ia32"));
      [reflexivity|]. rewrite with_no_events. reflexivity. }
  destruct Hst as (st1 & <- & Hw & Hwarn).
  unfold Copy.copyFn. rewrite bind_run, Hwarn, bind_run.
  rewrite (checkPaths_world src dest opts st st1 Hw).
  destruct (fst (Copy.checkPaths src dest opts st)) as [[s d]|e|];
    try reflexivity.
  rewrite bind_run, (checkParentPaths_world fuel src s dest st st1 Hw).
  destruct (fst (Copy.checkParentPaths fuel src s dest st)) as [[]|e|];
    try reflexivity; destruct (filter opts); reflexivity.
Qed.

Lemma copySyncFn_run (fuel : nat) (src dest : string) (opts : Opts World)
  (st : St World) :
  CopySync.copySyncFn fuel src dest opts st
  = let st1 := mkSt (world st) (trace st ++ warning_events opts) in
    match fst (Copy.checkPaths src dest opts st) with
    | Ok (s, d) =>
        match fst (Copy.checkParentPaths fuel src s dest st) with
        | Ok _ => CopySync.handleFilterAndCopy fuel d src dest opts st1
        | Throw e => (Throw e, st1)
        | OutOfFuel => (OutOfFuel, st1)
        end
    | Throw e => (Throw e, st1)
    | OutOfFuel => (OutOfFuel, st1)
    end.
Proof.
  cbv zeta.
  assert (Hst : exists st1,
            st1 = mkSt (world st) (trace st ++ warning_events opts) /\
            world st1 = world st /\
            (if preserveTimestamps opts && (process_arch =? "ia32") then
               Fs.emitWarning
                 ("Using the preserveTimestamps option in 32-bit" ++
                  "node is not recommended")
                 "TimestampPrecisionWarning"
             else ret tt) st = (Ok tt, st1)).
  { eexists. split; [reflexivity|]. split; [reflexivity|].
    unfold warning_events, Fs.emitWarning, ret.
    destruct (preserveTimestamps opts && (process_arch =? "ia32"));
      [reflexivity|]. rewrite with_no_events. reflexivity. }
  destruct Hst as (st1 & <- & Hw & Hwarn).
  unfold CopySync.copySyncFn. rewrite bind_run, Hwarn, bind_run.
  rewrite checkPathsSync_eq, (checkPaths_world src dest opts st st1 Hw).
  destruct (fst (Copy.checkPaths src dest opts st)) as [[s d]|e|];
    try reflexivity.
  rewrite bind_run, checkParentPathsSync_eq,
    (checkParentPaths_world fuel src s dest st st1 Hw).
  destruct (fst (Copy.checkParentPaths fuel src s dest st)) as [[]|e|];
    try reflexivity; destruct (filter opts); reflexivity.
Qed.

Lemma copyFn_cb_run (fuel : nat) (src dest : string) (opts : Opts World)
  (cb : Cb World unit) (st : St World) :
  CopyCb.copyFn fuel src dest opts cb st
  = let st1 := mkSt (world st) (trace st ++ console_warning_events opts) in
    match fst (Copy.checkPaths src dest opts st) with
    | Ok (s, d) =>
        match fst (Copy.checkParentPaths fuel src s dest st) with
        | Ok _ =>
            match filter opts with
            | Some f =>
                CopyCb.handleFilter (CopyCb.checkParentDir fuel) f d src dest
                  opts cb st1
            | None => CopyCb.checkParentDir fuel d src dest opts cb st1
            end
        | Throw e => cb (CbErr e) st1
        | OutOfFuel => FuelOut
        end
    | Throw e => cb (CbErr e) st1
    | OutOfFuel => FuelOut
    end.
Proof.
  cbv zeta.
  assert (Hst : exists st1,
            st1 = mkSt (world st) (trace st ++ console_warning_events opts) /\
            world st1 = world st /\
            forall k : K World,
              (if preserveTimestamps opts && (process_arch =? "ia32") then
                 FsCb.console_warn
                   ("Using the preserveTimestamps option in 32-bit" ++
                    "node is not recommended; see" ++
                    "https://github.com/jprichardson/node-fs-extra/issues/269")
               else fun k => k) k st = k st1).
  { eexists. split; [reflexivity|]. split; [reflexivity|]. intros k.
    unfold console_warning_events, FsCb.console_warn.
    destruct (preserveTimestamps opts && (process_arch =? "ia32"));
      [reflexivity|]. rewrite with_no_events. reflexivity. }
  destruct Hst as (st1 & <- & Hw & Hwarn).
  unfold CopyCb.copyFn. rewrite Hwarn, checkPaths_cb_delivers.
  rewrite (checkPaths_world src dest opts st st1 Hw). cbn [fst].
  destruct (fst (Copy.checkPaths src dest opts st)) as [[s d]|e|];
    cbn [delivered]; try reflexivity.
  rewrite checkParentPaths_cb_delivers,
    (checkParentPaths_world fuel src s dest st st1 Hw). cbn [fst].
  destruct (fst (Copy.checkParentPaths fuel src s dest st)) as [[]|e|];
    try reflexivity; destruct (filter opts); reflexivity.
Qed.

(** X6: a source the filter rejects is validated and then skipped by the
    entry point of every dialect: the call returns without an error and
    nothing is created, not even the parent directory of [dest]. *)
Theorem rejected_source_creates_nothing (fuel : nat) (src dest : string)
  (opts : Opts World) (st : St World)
  (f : string -> string -> World -> bool) :
  filter opts = Some f ->
  f src dest (world st) = false ->
  fst (preflight fuel src dest opts st) = Ok tt ->
  Copy.copyFn fuel src dest opts st
  = (Ok tt, mkSt (world st) (trace st ++ warning_events opts)) /\
  CopySync.copySyncFn fuel src dest opts st
  = (Ok tt, mkSt (world st) (trace st ++ warning_events opts)) /\
  CopyCb.copyPromises fuel src dest opts st
  = Called (CbOk tt)
      (mkSt (world st) (trace st ++ console_warning_events opts)).
Proof.
  intros Hf Hrej Hpre.
  assert (Hok : exists s d,
            fst (Copy.checkPaths src dest opts st) = Ok (s, d) /\
            fst (Copy.checkParentPaths fuel src s dest st) = Ok tt).
  { revert Hpre. unfold preflight. rewrite bind_run.
    rewrite (surjective_pairing (Copy.checkPaths src dest opts st)).
    rewrite checkPaths_reads.
    destruct (fst (Copy.checkPaths src dest opts st)) as [[s d]|e|];
      simpl; try discriminate.
    intros H. exists s, d. split; [reflexivity|exact H]. }
  destruct Hok as (s & d & H1 & H2).
  refine (conj _ (conj _ _)).
  - rewrite copyFn_run. cbv zeta. rewrite H1, H2, Hf.
    unfold Copy.handleFilter, Fs.call_filter. rewrite bind_run.
    cbn [world]. rewrite Hrej. reflexivity.
  - rewrite copySyncFn_run. cbv zeta. rewrite H1, H2.
    unfold CopySync.handleFilterAndCopy. rewrite Hf, bind_run, bind_run.
    unfold Fs.call_filter. cbn [world]. rewrite Hrej. reflexivity.
  - unfold CopyCb.copyPromises. rewrite copyFn_cb_run. cbv zeta.
    rewrite H1, H2, Hf. unfold CopyCb.handleFilter. cbn [world].
    rewrite Hrej. reflexivity.
Qed.
End EntryFacts.

(** ** Further facts: the filter and the parent directory *)

Section FilterFacts.
Context {World : Type} {FS : FsApi World} {P : PathApi} {E : ProcessEnv}.

Lemma checkPaths_run (src dest : string) (opts : Opts World) (st : St World) :
  Copy.checkPaths src dest opts st
  = (fst (Copy.checkPaths src dest opts st), st).
Proof.
  rewrite (surjective_pairing (Copy.checkPaths src dest opts st)) at 1.
  rewrite checkPaths_reads. reflexivity.
Qed.

Lemma validate_children_reads (src dest : string) (opts : Opts World)
  (items : list string) (st : St World) :
  snd (validate_children src dest opts items st) = st.
Proof.
  unfold validate_children.
  induction items as [|x t IH]; simpl; [reflexivity|].
  rewrite bind_run, bind_run, checkPaths_run.
  destruct (fst (Copy.checkPaths (join src x) (join dest x) opts st));
    simpl; [exact IH|reflexivity|reflexivity].
Qed.

Section Rejected.
Variable f : string -> string -> World -> bool.
Variables (src dest : string) (opts : Opts World) (st : St World).
Hypothesis Hfilter : filter opts = Some f.

Lemma rejected_promise_children rec (items : list string) :
  (forall item, In item items ->
     f (join src item) (join dest item) (world st) = false) ->
  forEach items (promise_child rec src dest opts) st
  = validate_children src dest opts items st.
Proof.
  unfold validate_children.
  induction items as [|x t IH]; intros Hrej; simpl; [reflexivity|].
  rewrite !bind_run. unfold promise_child at 1. rewrite !bind_run.
  rewrite checkPaths_run.
  destruct (fst (Copy.checkPaths (join src x) (join dest x) opts st))
    as [stats|e|]; cbn [ret]; try reflexivity.
  unfold Copy.startCopy. rewrite Hfilter.
  unfold Copy.handleFilter, Fs.call_filter. rewrite bind_run.
  rewrite (Hrej x (or_introl eq_refl)). cbn [ret].
  apply IH. intros item Hin. apply Hrej. right. exact Hin.
Qed.

Lemma rejected_sync_children rec (items : list string) :
  (forall item, In item items ->
     f (join src item) (join dest item) (world st) = false) ->
  forEach items (fun item => CopySync.copyDirItem rec item src dest opts) st
  = validate_children src dest opts items st.
Proof.
  unfold validate_children.
  induction items as [|x t IH]; intros Hrej; simpl; [reflexivity|].
  rewrite !bind_run. unfold CopySync.copyDirItem at 1. rewrite !bind_run.
  rewrite checkPathsSync_eq, checkPaths_run.
  destruct (fst (Copy.checkPaths (join src x) (join dest x) opts st))
    as [[s d]|e|]; cbn [ret]; try reflexivity.
  unfold CopySync.startCopy. rewrite Hfilter.
  unfold Fs.call_filter. rewrite bind_run.
  rewrite (Hrej x (or_introl eq_refl)). cbn [negb ret].
  apply IH. intros item Hin. apply Hrej. right. exact Hin.
Qed.

Lemma rejected_callback_children rec (items : list string)
  (cb : Cb World unit) :
  (forall item, In item items ->
     f (join src item) (join dest item) (world st) = false) ->
  forEachK items (callback_child rec src dest opts) cb st
  = delivered (fst (validate_children src dest opts items st)) cb st.
Proof.
  unfold validate_children.
  induction items as [|x t IH]; intros Hrej; simpl; [reflexivity|].
  rewrite !bind_run. unfold callback_child at 1.
  rewrite checkPaths_cb_delivers, checkPaths_run.
  destruct (fst (Copy.checkPaths (join src x) (join dest x) opts st))
    as [stats|e|]; cbn [ret delivered fst]; try reflexivity.
  unfold CopyCb.startCopy. rewrite Hfilter.
  unfold CopyCb.handleFilter.
  rewrite (Hrej x (or_introl eq_refl)).
  apply IH. intros item Hin. apply Hrej. right. exact Hin.
Qed.
End Rejected.

Lemma callback_order_In (items : list string) (x : string) :
  In x (callback_order items) -> In x items.
Proof.
  unfold callback_order. intros Hin.
  destruct (take_truthy_prefix (rev items)) as [r Hr].
  apply in_rev. rewrite Hr. apply in_or_app. left. exact Hin.
Qed.

(** X7: when the filter rejects every child of a directory, [copyDir] still
    runs [checkPaths] on every pair of children (in the order of the
    dialect) and fails with the first error it finds, but changes nothing
    and never enters the recursion. *)
Theorem rejected_children_are_still_validated
  (rec : option Stats -> string -> string -> Opts World -> M World unit)
  (rec_cb : option Stats -> string -> string -> Opts World -> Cb World unit ->
            K World)
  (src dest : string) (opts : Opts World) (st : St World)
  (f : string -> string -> World -> bool) (items : list string) :
  filter opts = Some f ->
  fs_readdir src (world st) = SysOk items ->
  (forall item, In item items ->
     f (join src item) (join dest item) (world st) = false) ->
  Copy.copyDir rec src dest opts st
  = (fst (validate_children src dest opts items st), st) /\
  CopySync.copyDir rec src dest opts st
  = (fst (validate_children src dest opts items st), st) /\
  forall cb,
    CopyCb.copyDir rec_cb src dest opts cb st
    = delivered
        (fst (validate_children src dest opts (callback_order items) st))
        cb st.
Proof.
  intros Hf Hdir Hrej.
  assert (Hv : forall l, validate_children src dest opts l st
                         = (fst (validate_children src dest opts l st), st)).
  { intros l.
    rewrite (surjective_pairing (validate_children src dest opts l st)) at 1.
    rewrite validate_children_reads. reflexivity. }
  refine (conj _ (conj _ _)).
  - unfold Copy.copyDir, Fs.readdir, Fs.read. rewrite bind_run, Hdir.
    cbn [of_sys].
    rewrite copyDir_loop_forEach by (rewrite Nat.sub_0_r; reflexivity).
    cbn [skipn].
    rewrite (rejected_promise_children f src dest opts st Hf rec items Hrej).
    apply Hv.
  - unfold CopySync.copyDir, Fs.readdir, Fs.read. rewrite bind_run, Hdir.
    cbn [of_sys].
    rewrite (rejected_sync_children f src dest opts st Hf rec items Hrej).
    apply Hv.
  - intros cb. unfold CopyCb.copyDir, FsCb.readdir, FsCb.read.
    rewrite Hdir. cbn [arg_of_sys].
    rewrite copyDirItems_forEachK by lia.
    apply (rejected_callback_children f src dest opts st Hf).
    intros item Hin. apply Hrej. apply callback_order_In. exact Hin.
Qed.

(** X8: the parent directory of [dest] is created, with a recursive
    [mkdir], before the copy proper and only when [stat] on it fails: in
    the promise and callback dialects when it fails with ENOENT (any other
    failure ends the copy at once), in the blocking dialect, which asks
    [existsSync], on every failure.  When the parent exists no [mkdir] is
    issued; when the [mkdir] fails the copy ends with its error. *)
Theorem parent_directory_is_created_when_missing (fuel : nat)
  (destStat : option Stats) (src dest : string) (opts : Opts World)
  (st : St World) :
  accepted opts src dest (world st) = true ->
  let after :=
    mkSt (snd (fs_mkdir (dirname dest) true (world st)))
      (trace st ++ [EvMkdir (dirname dest) true]) in
  match fs_stat (dirname dest) (world st) with
  | SysOk _ =>
      Copy.checkParentDir fuel destStat src dest opts st
      = Copy.getStatsForCopy fuel destStat src dest opts st /\
      CopySync.handleFilterAndCopy fuel destStat src dest opts st
      = CopySync.getStats fuel destStat src dest opts st /\
      forall cb,
        CopyCb.checkParentDir fuel destStat src dest opts cb st
        = CopyCb.getStatsForCopy fuel destStat src dest opts cb st
  | SysErr code =>
      match fst (fs_mkdir (dirname dest) true (world st)) with
      | SysOk _ =>
          CopySync.handleFilterAndCopy fuel destStat src dest opts st
          = CopySync.getStats fuel destStat src dest opts after /\
          if code =? "ENOENT" then
            Copy.checkParentDir fuel destStat src dest opts st
            = Copy.getStatsForCopy fuel destStat src dest opts after /\
            forall cb,
              CopyCb.checkParentDir fuel destStat src dest opts cb st
              = CopyCb.getStatsForCopy fuel destStat src dest opts cb after
          else
            Copy.checkParentDir fuel destStat src dest opts st
            = (Throw (SystemError code), st) /\
            forall cb,
              CopyCb.checkParentDir fuel destStat src dest opts cb st
              = cb (CbErr (SystemError code)) st
      | SysErr c =>
          CopySync.handleFilterAndCopy fuel destStat src dest opts st
          = (Throw (SystemError c), after) /\
          if code =? "ENOENT" then
            Copy.checkParentDir fuel destStat src dest opts st
            = (Throw (SystemError c), after) /\
            forall cb,
              CopyCb.checkParentDir fuel destStat src dest opts cb st
              = cb (CbErr (SystemError c)) after
          else
            Copy.checkParentDir fuel destStat src dest opts st
            = (Throw (SystemError code), st) /\
            forall cb,
              CopyCb.checkParentDir fuel destStat src dest opts cb st
              = cb (CbErr (SystemError code)) st
      end
  end.
Proof.
  intros Hacc after. subst after.
  assert (Hsync : CopySync.handleFilterAndCopy fuel destStat src dest opts st
                  = bind (Fs.existsSync (dirname dest))
                      (fun parentExists =>
                         bind (if negb parentExists
                               then Fs.mkdir (dirname dest) true else ret tt)
                           (fun _ =>
                              CopySync.getStats fuel destStat src dest opts))
                      st).
  { unfold CopySync.handleFilterAndCopy, accepted in *. rewrite bind_run.
    destruct (filter opts) as [f|].
    - unfold Fs.call_filter. rewrite bind_run. rewrite Hacc. reflexivity.
    - reflexivity. }
  rewrite Hsync.
  unfold Copy.checkParentDir, CopyCb.checkParentDir, Copy.pathExists,
    CopyCb.pathExists, FsCb.stat, FsCb.read, FsCb.mkdir, FsCb.mutate.
  monad_unfold.
  destruct (fs_stat (dirname dest) (world st)) as [s|code]; simpl.
  - repeat split.
  - destruct (code =? "ENOENT"); simpl;
      destruct (fs_mkdir (dirname dest) true (world st)) as [[[]|c] w1];
      simpl; repeat split.
Qed.
End FilterFacts.

(** ** Further facts: the file copier *)

(** One ambient call of the goal, by cases on its outcome. *)
Ltac fs_call_cases :=
  match goal with
  | |- context [fs_copyFile ?a ?b ?w] =>
      destruct (fs_copyFile a b w) as [[[]|?] ?]
  | |- context [fs_chmod ?p ?m ?w] =>
      destruct (fs_chmod p m w) as [[[]|?] ?]
  | |- context [fs_stat ?p ?w] => destruct (fs_stat p w) as [?|?] eqn:?
  | |- context [fs_open ?p ?f ?w] =>
      destruct (fs_open p f w) as [[?|?] ?] eqn:?
  | |- context [fs_futimes ?fd ?a ?m ?w] =>
      destruct (fs_futimes fd a m w) as [[[]|?] ?]
  | |- context [fs_close ?fd ?w] => destruct (fs_close fd w) as [[[]|?] ?]
  | |- context [fs_unlink ?p ?w] => destruct (fs_unlink p w) as [[[]|?] ?]
  | |- context [fs_symlink ?t ?p ?w] =>
      destruct (fs_symlink t p w) as [[[]|?] ?]
  | |- context [fs_mkdir ?p ?r ?w] =>
      destruct (fs_mkdir p r w) as [[[]|?] ?]
  end; simpl; try discriminate.

(** Closes a branch of a successful file copy: the trace is the expected
    one, and the [stat] and [open] met on the way are the ones named. *)
Ltac file_copy_done srcStat st :=
  first
    [ exists 0%Z, srcStat, (world st);
      split; [rewrite <- !app_assoc; reflexivity | discriminate]
    | do 3 eexists;
      split;
        [ rewrite <- !app_assoc; reflexivity
        | intros _; split;
            [ eassumption
            | match goal with
              | H : fs_open _ _ _ = _ |- _ => rewrite H; reflexivity
              end ] ] ].

Section FileCopyFacts.
Context {World : Type} {FS : FsApi World} {P : PathApi} {E : ProcessEnv}.

(** X9: a file copy that succeeds has issued exactly the calls of
    [file_copy_events], in every dialect: [copyFile] first and
    [chmod(dest, srcStat.mode)] last, nothing in between without
    [preserveTimestamps], and with it the transient [chmod] (only for a
    source that is not writable) followed by [open], [futimes] and
    [close]; the times are those of a [stat] of the source taken after the
    byte copy, in the world [dest] is opened in, and the descriptor is the
    one [open] returned. *)
Theorem successful_file_copy_calls (srcStat : Stats) (src dest : string)
  (opts : Opts World) (st st' : St World) :
  (Copy._copyFile srcStat src dest opts st = (Ok tt, st') ->
   exists fd updated w,
     trace st'
     = trace st ++ file_copy_events srcStat src dest opts fd updated /\
     (preserveTimestamps opts = true ->
      fs_stat src w = SysOk updated /\
      fst (fs_open dest "r+" w) = SysOk fd)) /\
  (CopySync.copyFile srcStat src dest opts st = (Ok tt, st') ->
   exists fd updated w,
     trace st'
     = trace st ++ file_copy_events srcStat src dest opts fd updated /\
     (preserveTimestamps opts = true ->
      fs_stat src w = SysOk updated /\
      fst (fs_open dest "r+" w) = SysOk fd)) /\
  (CopyCb._copyFile srcStat src dest opts (fun r s => Called r s) st
   = Called (CbOk tt) st' ->
   exists fd updated w,
     trace st'
     = trace st ++ file_copy_events srcStat src dest opts fd updated /\
     (preserveTimestamps opts = true ->
      fs_stat src w = SysOk updated /\
      fst (fs_open dest "r+" w) = SysOk fd)).
Proof.
  unfold file_copy_events.
  change (CopySync.fileIsNotWritable (mode srcStat))
    with (Copy.fileIsNotWritable (mode srcStat)).
  refine (conj _ (conj _ _)).
  - unfold Copy._copyFile, Copy.handleTimestampsAndMode,
      Copy.setDestTimestampsAndMode, Copy.setDestTimestamps,
      Copy.utimesMillis, Copy.makeFileWritable, Copy.setDestMode.
    monad_unfold.
    destruct (preserveTimestamps opts);
      [destruct (Copy.fileIsNotWritable (mode srcStat))|];
      simpl; repeat fs_call_cases;
      intros H; injection H as <-; simpl;
      file_copy_done srcStat st.
  - unfold CopySync.copyFile, CopySync.handleTimestamps,
      CopySync.setDestTimestamps, CopySync.utimesMillisSync,
      CopySync.makeFileWritable, CopySync.setDestMode.
    change (CopySync.fileIsNotWritable (mode srcStat))
      with (Copy.fileIsNotWritable (mode srcStat)).
    monad_unfold.
    destruct (preserveTimestamps opts);
      [destruct (Copy.fileIsNotWritable (mode srcStat))|];
      simpl; repeat fs_call_cases;
      intros H; injection H as <-; simpl;
      file_copy_done srcStat st.
  - unfold CopyCb._copyFile, CopyCb.handleTimestampsAndMode,
      CopyCb.setDestTimestampsAndMode, CopyCb.setDestTimestamps,
      CopyCb.utimesMillis, CopyCb.makeFileWritable, CopyCb.setDestMode,
      FsCb.copyFile, FsCb.chmod, FsCb.stat, FsCb.open, FsCb.futimes,
      FsCb.close, FsCb.mutate, FsCb.read.
    change (CopyCb.fileIsNotWritable (mode srcStat))
      with (Copy.fileIsNotWritable (mode srcStat)).
    destruct (preserveTimestamps opts);
      [destruct (Copy.fileIsNotWritable (mode srcStat))|];
      simpl; repeat fs_call_cases;
      intros H; injection H as <-; simpl;
      file_copy_done srcStat st.
Qed.

Lemma land_128_testbit (z : Z) : (Z.land z 128 =? 0)%Z = negb (Z.testbit z 7).
Proof.
  destruct (Z.testbit z 7) eqn:Hb; simpl.
  - apply Z.eqb_neq. intros H.
    apply (f_equal (fun x => Z.testbit x 7)) in H.
    rewrite Z.land_spec, Hb in H. discriminate H.
  - apply Z.eqb_eq. apply Z.bits_inj'. intros n Hn.
    rewrite Z.land_spec, Z.bits_0.
    change 128%Z with (2 ^ 7)%Z. rewrite Z.pow2_bits_eqb by lia.
    destruct (Z.eqb_spec 7 n) as [<-|_];
      [rewrite Hb; reflexivity | apply andb_false_r].
Qed.

Lemma lor_128_testbit (z n : Z) :
  Z.testbit (Z.lor z 128) n = Z.testbit z n || (n =? 7)%Z.
Proof.
  destruct (Z.neg_nonneg_cases n) as [Hneg|Hn].
  - rewrite !Z.testbit_neg_r by lia.
    destruct (Z.eqb_spec n 7); [lia|reflexivity].
  - rewrite Z.lor_spec. change 128%Z with (2 ^ 7)%Z.
    rewrite Z.pow2_bits_eqb by lia. rewrite (Z.eqb_sym 7 n). reflexivity.
Qed.

(** X10: [fileIsNotWritable] looks at bit 7 (0o200, the owner's write bit)
    of the mode and at nothing else, and the one call [makeFileWritable]
    issues is a [chmod] of [dest] to a mode that passes that test and
    differs from the source mode, as a 32-bit integer, in that bit only;
    the three dialects issue the same call. *)
Theorem makeFileWritable_sets_owner_write_bit (dest : string) (srcMode : Z)
  (st : St World) :
  Copy.fileIsNotWritable srcMode = negb (Z.testbit srcMode 7) /\
  exists m,
    Copy.fileIsNotWritable m = false /\
    (forall n, Z.testbit m n = Z.testbit (ToInt32 srcMode) n || (n =? 7)%Z) /\
    trace (snd (Copy.makeFileWritable dest srcMode st))
    = trace st ++ [EvChmod dest m] /\
    trace (snd (CopySync.makeFileWritable dest srcMode st))
    = trace st ++ [EvChmod dest m] /\
    forall cb, exists r st',
      CopyCb.makeFileWritable dest srcMode cb st = cb r st' /\
      trace st' = trace st ++ [EvChmod dest m].
Proof.
  split.
  - unfold Copy.fileIsNotWritable.
    rewrite land_ToInt32_128. apply land_128_testbit.
  - exists (Z.lor (ToInt32 srcMode) 128).
    refine (conj _ (conj _ (conj _ (conj _ _)))).
    + unfold Copy.fileIsNotWritable.
      rewrite land_ToInt32_128, land_128_testbit, lor_128_testbit.
      rewrite orb_true_r. reflexivity.
    + intros n. apply lor_128_testbit.
    + unfold Copy.makeFileWritable, Copy.setDestMode, Fs.chmod, Fs.mutate.
      destruct (fs_chmod dest _ (world st)); reflexivity.
    + unfold CopySync.makeFileWritable, CopySync.setDestMode, Fs.chmod,
        Fs.mutate.
      destruct (fs_chmod dest _ (world st)); reflexivity.
    + intros cb.
      unfold CopyCb.makeFileWritable, CopyCb.setDestMode, FsCb.chmod,
        FsCb.mutate.
      destruct (fs_chmod dest _ (world st)) as [r w1].
      do 2 eexists. split; reflexivity.
Qed.

(** X11: the descriptor of the timestamp path in the promise and callback
    dialects.  A failed [open] is reported as it is and nothing else is
    called.  After a successful [open] both dialects call [futimes] and
    then [close], whatever [futimes] answered; when only one of the two
    fails both report that error, and when both fail the promise dialect
    (try/finally) reports the error of [close] and the callback dialect
    ([futimesErr || closeErr]) the error of [futimes]. *)
Theorem utimesMillis_error_precedence (path : string) (a m : Z)
  (st : St World) :
  match fs_open path "r+" (world st) with
  | (SysErr code, w1) =>
      let st1 := mkSt w1 (trace st ++ [EvOpen path "r+"]) in
      Copy.utimesMillis path a m st = (Throw (SystemError code), st1) /\
      forall cb,
        CopyCb.utimesMillis path a m cb st = cb (CbErr (SystemError code)) st1
  | (SysOk fd, w1) =>
      let (futimesRes, w2) := fs_futimes fd a m w1 in
      let (closeRes, w3) := fs_close fd w2 in
      let st3 :=
        mkSt w3
          (trace st ++ [EvOpen path "r+"; EvFutimes fd a m; EvClose fd]) in
      Copy.utimesMillis path a m st
      = (match closeRes with
         | SysErr code => Throw (SystemError code)
         | SysOk _ => of_sys futimesRes
         end, st3) /\
      forall cb,
        CopyCb.utimesMillis path a m cb st
        = cb (match futimesRes with
              | SysErr code => CbErr (SystemError code)
              | SysOk _ => arg_of_sys closeRes
              end) st3
  end.
Proof.
  unfold Copy.utimesMillis, CopyCb.utimesMillis, FsCb.open, FsCb.futimes,
    FsCb.close, FsCb.mutate.
  monad_unfold.
  destruct (fs_open path "r+" (world st)) as [[fd|code] w1]; simpl;
    [|split; reflexivity].
  destruct (fs_futimes fd a m w1) as [[[]|c1] w2]; simpl;
    destruct (fs_close fd w2) as [[[]|c2] w3]; simpl;
    rewrite <- !app_assoc; split; reflexivity.
Qed.
End FileCopyFacts.

(** ** Further facts: the directory copier *)

Section DirectoryFacts.
Context {World : Type} {FS : FsApi World} {P : PathApi} {E : ProcessEnv}.

Lemma extends_copyDir (fuel : nat) (src dest : string) (opts : Opts World) :
  extends (Copy.copyDir (Copy.getStatsForCopy fuel) src dest opts) /\
  extends (CopySync.copyDir (CopySync.getStats fuel) src dest opts).
Proof.
  split.
  - unfold Copy.copyDir. apply extends_bind; [apply extends_read|].
    intros dir. generalize 0 as i. generalize (length dir) as n.
    induction n as [|n IH]; intros i; simpl; [apply extends_ret|].
    unfold Copy.startCopy, Copy.handleFilter.
    extends_auto; try apply IH; try apply extends_getStatsForCopy;
      try apply extends_checkPaths.
  - unfold CopySync.copyDir, CopySync.copyDirItem, CopySync.startCopy.
    extends_auto; try apply extends_getStats; try apply extends_checkPaths.
Qed.

Lemma chmod_last {A} (m : M World A) (path : string) (md : Z)
  (st st' : St World) :
  extends m ->
  bind m (fun _ => Fs.chmod path md) st = (Ok tt, st') ->
  exists mid, trace st' = trace st ++ mid ++ [EvChmod path md].
Proof.
  intros Hm. rewrite bind_run. destruct (Hm st) as [mid Hmid].
  destruct (m st) as [[a|e|] s1]; simpl in Hmid; try discriminate.
  unfold Fs.chmod, Fs.mutate. destruct (fs_chmod path md (world s1)).
  intros H. injection H as _ <-. exists mid. simpl.
  rewrite Hmid, app_assoc. reflexivity.
Qed.

(** X12: a directory that is new at [dest] is created first, by a plain
    [mkdir], and is given the mode of the source directory last, after
    everything below it has been copied; this holds for every copy of a
    directory that succeeds, in the three dialects. *)
Theorem new_directory_gets_mode_last (fuel : nat) (src dest : string)
  (opts : Opts World) (st st' : St World) (srcStat : Stats) :
  stat_for opts src (world st) = SysOk srcStat ->
  isDirectory srcStat = true ->
  (Copy.getStatsForCopy (S fuel) None src dest opts st = (Ok tt, st') ->
   exists mid,
     trace st'
     = trace st ++ EvMkdir dest false :: mid ++ [EvChmod dest (mode srcStat)])
  /\
  (CopySync.getStats (S fuel) None src dest opts st = (Ok tt, st') ->
   exists mid,
     trace st'
     = trace st ++ EvMkdir dest false :: mid ++ [EvChmod dest (mode srcStat)])
  /\
  (run_cb (CopyCb.getStatsForCopy (S fuel) None src dest opts) st
   = Called (CbOk tt) st' ->
   exists mid,
     trace st'
     = trace st ++ EvMkdir dest false :: mid ++ [EvChmod dest (mode srcStat)]).
Proof.
  unfold stat_for. intros Hstat Hdir.
  refine (conj _ (conj _ _)).
  - simpl. unfold Copy.getStatsForCopy_body. rewrite bind_run.
    assert (Hs : (if dereference opts then Fs.stat else Fs.lstat) src st
                 = (Ok srcStat, st)).
    { unfold Fs.stat, Fs.lstat, Fs.read.
      destruct (dereference opts); rewrite Hstat; reflexivity. }
    rewrite Hs, Hdir. unfold Copy.onDir, Copy.mkDirAndCopy.
    rewrite bind_run. unfold Fs.mkdir at 1, Fs.mutate at 1.
    destruct (fs_mkdir dest false (world st)) as [[[]|c] w1]; simpl;
      try discriminate.
    intros H.
    apply (chmod_last _ dest (mode srcStat)) in H;
      [|apply extends_copyDir].
    destruct H as [mid H]. exists mid. rewrite H. simpl.
    rewrite <- app_assoc. reflexivity.
  - simpl. unfold CopySync.getStats_body. rewrite bind_run.
    assert (Hs : (if dereference opts then Fs.stat else Fs.lstat) src st
                 = (Ok srcStat, st)).
    { unfold Fs.stat, Fs.lstat, Fs.read.
      destruct (dereference opts); rewrite Hstat; reflexivity. }
    rewrite Hs, Hdir. unfold CopySync.onDir, CopySync.mkDirAndCopy.
    rewrite bind_run. unfold Fs.mkdir at 1, Fs.mutate at 1.
    destruct (fs_mkdir dest false (world st)) as [[[]|c] w1]; simpl;
      try discriminate.
    intros H.
    apply (chmod_last _ dest (mode srcStat)) in H;
      [|apply extends_copyDir].
    destruct H as [mid H]. exists mid. rewrite H. simpl.
    rewrite <- app_assoc. reflexivity.
  - unfold run_cb. simpl. unfold CopyCb.getStatsForCopy_body.
    assert (Hs : forall k : Cb World Stats,
               (if dereference opts then FsCb.stat else FsCb.lstat) src k st
               = k (CbOk srcStat) st).
    { intros k. unfold FsCb.stat, FsCb.lstat, FsCb.read.
      destruct (dereference opts); rewrite Hstat; reflexivity. }
    rewrite Hs, Hdir. unfold CopyCb.onDir, CopyCb.mkDirAndCopy.
    unfold FsCb.mkdir at 1, FsCb.mutate at 1.
    destruct (fs_mkdir dest false (world st)) as [[[]|c] w1]; simpl;
      try discriminate.
    destruct (wb_copyDir (CopyCb.getStatsForCopy fuel)
                (wb_getStatsForCopy fuel) src dest opts
                (mkSt w1 (trace st ++ [EvMkdir dest false])))
      as (x & Hx & Hg).
    rewrite Hx. destruct x as [r s1|msg s1|]; simpl; try discriminate.
    destruct r as [e|[]]; try discriminate.
    unfold CopyCb.setDestMode, FsCb.chmod, FsCb.mutate.
    destruct (fs_chmod dest (mode srcStat) (world s1)) as [rc w2].
    intros H. injection H as _ <-. destruct Hg as [mid Hmid]. exists mid.
    simpl in *. rewrite Hmid, <- !app_assoc. reflexivity.
Qed.

(** X13: copying an empty directory to a [dest] that does not exist is, in
    the three dialects, [mkdir(dest)] followed by
    [chmod(dest, srcStat.mode)] and nothing else. *)
Theorem empty_directory_copy (fuel : nat) (src dest : string)
  (opts : Opts World) (st : St World) (srcStat : Stats) (w1 w2 : World) :
  stat_for opts src (world st) = SysOk srcStat ->
  isDirectory srcStat = true ->
  fs_mkdir dest false (world st) = (SysOk tt, w1) ->
  fs_readdir src w1 = SysOk [] ->
  fs_chmod dest (mode srcStat) w1 = (SysOk tt, w2) ->
  let final :=
    mkSt w2 (trace st ++ [EvMkdir dest false; EvChmod dest (mode srcStat)]) in
  Copy.getStatsForCopy (S fuel) None src dest opts st = (Ok tt, final) /\
  CopySync.getStats (S fuel) None src dest opts st = (Ok tt, final) /\
  forall cb,
    CopyCb.getStatsForCopy (S fuel) None src dest opts cb st
    = cb (CbOk tt) final.
Proof.
  intros Hstat Hdir Hmk Hrd Hch. unfold stat_for in Hstat. cbv zeta.
  simpl.
  unfold Copy.getStatsForCopy_body, Copy.onDir, Copy.mkDirAndCopy,
    Copy.copyDir, Copy.setDestMode,
    CopySync.getStats_body, CopySync.onDir, CopySync.mkDirAndCopy,
    CopySync.copyDir, CopySync.setDestMode,
    CopyCb.getStatsForCopy_body, CopyCb.onDir, CopyCb.mkDirAndCopy,
    CopyCb.copyDir, CopyCb.setDestMode,
    FsCb.stat, FsCb.lstat, FsCb.mkdir, FsCb.readdir, FsCb.chmod, FsCb.read,
    FsCb.mutate.
  monad_unfold.
  destruct (dereference opts); rewrite Hstat; simpl; rewrite Hdir, Hmk;
    simpl; rewrite Hrd; simpl; rewrite Hch; simpl;
    rewrite <- !app_assoc; repeat split.
Qed.
End DirectoryFacts.

(** ** Further facts: the symlink copier *)

Section LinkCopyFacts.
Context {World : Type} {FS : FsApi World} {P : PathApi} {E : ProcessEnv}.

(** X14: when [dest] exists and is not a symbolic link ([readlink(dest)]
    fails with EINVAL, or UNKNOWN on Windows), no dialect removes it: the
    one call issued is [symlink] onto the occupied path, whose outcome is
    the outcome of the copy.  Any other failure of [readlink(dest)] ends
    the copy with that error and without a change. *)
Theorem onLink_keeps_a_destination_that_is_no_link (d : Stats)
  (src dest : string) (opts : Opts World) (st : St World)
  (target code : string) :
  fs_readlink src (world st) = SysOk target ->
  fs_readlink dest (world st) = SysErr code ->
  if (code =? "EINVAL") || (code =? "UNKNOWN") then
    Copy.onLink (Some d) src dest st
    = Fs.symlink (anchored_target src target) dest st /\
    CopySync.onLink (Some d) src dest opts st
    = Fs.symlink (cwd_target opts target) dest st /\
    forall cb,
      CopyCb.onLink (Some d) src dest opts cb st
      = FsCb.symlink (cwd_target opts target) dest cb st
  else
    Copy.onLink (Some d) src dest st = (Throw (SystemError code), st) /\
    CopySync.onLink (Some d) src dest opts st
    = (Throw (SystemError code), st) /\
    forall cb,
      CopyCb.onLink (Some d) src dest opts cb st
      = cb (CbErr (SystemError code)) st.
Proof.
  intros Hsrc Hdest.
  unfold Copy.onLink, CopySync.onLink, CopyCb.onLink, anchored_target,
    cwd_target, FsCb.readlink, FsCb.read.
  monad_unfold. rewrite Hsrc. simpl.
  unfold FsCb.symlink, FsCb.mutate.
  destruct (isAbsolute target), (dereference opts); simpl;
    rewrite !Hdest; simpl;
    destruct ((code =? "EINVAL") || (code =? "UNKNOWN")); simpl;
    repeat split.
Qed.

(** X15: a symbolic link is never copied over an existing link whose
    target lies at or below its own target (as [isSrcSubdir] sees the two
    targets, each dialect after its own re-anchoring): the copy fails with
    ERR_FS_COPY_TO_SUBDIRECTORY (EINVAL, path [dest]) and nothing is
    changed.  In the blocking and callback dialects this is the case, in
    particular, whenever the two links have the same target string. *)
Theorem onLink_refuses_link_below_source_target (d : Stats)
  (src dest : string) (opts : Opts World) (st : St World)
  (srcTarget destTarget : string) :
  fs_readlink src (world st) = SysOk srcTarget ->
  fs_readlink dest (world st) = SysOk destTarget ->
  (Copy.isSrcSubdir (anchored_target src srcTarget)
     (anchored_target dest destTarget) = true ->
   raises (fst (Copy.onLink (Some d) src dest st))
     ERR_FS_COPY_TO_SUBDIRECTORY EINVAL dest /\
   snd (Copy.onLink (Some d) src dest st) = st) /\
  (Copy.isSrcSubdir (cwd_target opts srcTarget) (cwd_target opts destTarget)
   = true \/ srcTarget = destTarget ->
   exists e,
     raises (@Throw unit e) ERR_FS_COPY_TO_SUBDIRECTORY EINVAL dest /\
     CopySync.onLink (Some d) src dest opts st = (Throw e, st) /\
     forall cb, CopyCb.onLink (Some d) src dest opts cb st = cb (CbErr e) st).
Proof.
  intros Hsrc Hdest. split.
  - unfold anchored_target. intros Hsub.
    unfold Copy.onLink. monad_unfold. rewrite Hsrc, Hdest. simpl.
    destruct (isAbsolute srcTarget), (isAbsolute destTarget); simpl in *;
      rewrite Hsub; simpl; (split; [eexists; reflexivity|reflexivity]).
  - intros Hsub.
    assert (Hsub' : Copy.isSrcSubdir (cwd_target opts srcTarget)
                      (cwd_target opts destTarget) = true).
    { destruct Hsub as [H| ->]; [exact H|].
      apply isSrcSubdir_same_array. reflexivity. }
    clear Hsub. unfold cwd_target in Hsub'.
    unfold CopySync.onLink, CopyCb.onLink, FsCb.readlink, FsCb.read.
    monad_unfold. rewrite Hsrc. simpl.
    destruct (dereference opts); simpl in *; rewrite !Hdest; simpl;
      rewrite !isSrcSubdir_cb_eq, Hsub'; simpl;
      (eexists; split; [eexists; reflexivity|split; reflexivity]).
Qed.
End LinkCopyFacts.

Section LinkReplaceFacts.
Context {World : Type} {FS : FsApi World} {P : PathApi} {E : ProcessEnv}.

(** X16: an existing symbolic link at [dest] is replaced whatever
    [force], [overwrite] and [errorOnExist] say: once the two subdirectory
    guards pass, every dialect goes on to [copyLink], which unlinks [dest]
    and, when that succeeded, creates the new link; a failed [unlink] ends
    the copy with its error and no [symlink] is attempted.  (In the
    callback dialect the second guard is passed when [destStat] is not a
    directory.) *)
Theorem onLink_replaces_a_link_whatever_the_flags (d : Stats)
  (src dest : string) (opts : Opts World) (st : St World)
  (srcTarget destTarget : string) :
  fs_readlink src (world st) = SysOk srcTarget ->
  fs_readlink dest (world st) = SysOk destTarget ->
  let replaced (target : string) : Res unit * St World :=
    let after := mkSt (snd (fs_unlink dest (world st)))
                   (trace st ++ [EvUnlink dest]) in
    match fst (fs_unlink dest (world st)) with
    | SysOk _ => Fs.symlink target dest after
    | SysErr code => (Throw (SystemError code), after)
    end in
  (forall srcStat,
     Copy.isSrcSubdir (anchored_target src srcTarget)
       (anchored_target dest destTarget) = false ->
     fs_stat src (world st) = SysOk srcStat ->
     isDirectory srcStat &&
     Copy.isSrcSubdir (anchored_target dest destTarget)
       (anchored_target src srcTarget) = false ->
     Copy.onLink (Some d) src dest st
     = replaced (anchored_target src srcTarget)) /\
  (forall destTargetStat,
     Copy.isSrcSubdir (cwd_target opts srcTarget)
       (cwd_target opts destTarget) = false ->
     fs_stat dest (world st) = SysOk destTargetStat ->
     isDirectory destTargetStat &&
     Copy.isSrcSubdir (cwd_target opts destTarget)
       (cwd_target opts srcTarget) = false ->
     CopySync.onLink (Some d) src dest opts st
     = replaced (cwd_target opts srcTarget)) /\
  (Copy.isSrcSubdir (cwd_target opts srcTarget) (cwd_target opts destTarget)
   = false ->
   isDirectory d = false ->
   forall cb,
     CopyCb.onLink (Some d) src dest opts cb st
     = delivered_run (replaced (cwd_target opts srcTarget)) cb).
Proof.
  intros Hsrc Hdest. cbv zeta.
  refine (conj _ (conj _ _)).
  - intros srcStat Hsub Hstat Hguard. unfold anchored_target in *.
    unfold Copy.onLink, Copy.copyLink. monad_unfold.
    rewrite Hsrc, Hdest. simpl.
    destruct (isAbsolute srcTarget), (isAbsolute destTarget); simpl in *;
      rewrite Hsub; simpl; rewrite Hstat; simpl;
      rewrite Hguard; simpl;
      destruct (fs_unlink dest (world st)) as [[[]|c] w1]; reflexivity.
  - intros destTargetStat Hsub Hstat Hguard. unfold cwd_target in *.
    unfold CopySync.onLink, CopySync.copyLink. monad_unfold.
    rewrite Hsrc, Hdest. simpl.
    destruct (dereference opts); simpl in *;
      rewrite Hsub; simpl; rewrite Hstat; simpl;
      rewrite Hguard; simpl;
      destruct (fs_unlink dest (world st)) as [[[]|c] w1]; reflexivity.
  - intros Hsub Hd cb. unfold cwd_target, delivered_run in *.
    unfold CopyCb.onLink, CopyCb.copyLink, FsCb.readlink, FsCb.read,
      FsCb.unlink, FsCb.symlink, FsCb.mutate, Fs.symlink, Fs.mutate.
    rewrite Hsrc. simpl.
    destruct (dereference opts); simpl in *;
      rewrite !Hdest; simpl; rewrite isSrcSubdir_cb_eq, Hsub, Hd; simpl;
      destruct (fs_unlink dest (world st)) as [[[]|c] w1]; simpl;
      try reflexivity;
      destruct (fs_symlink _ dest w1) as [[[]|c'] w2]; reflexivity.
Qed.
End LinkReplaceFacts.

(** ** Further facts: where the engine writes *)

Section AppendsFacts.
Context {World : Type} {FS : FsApi World}.
Variable Q : Event -> Prop.

Lemma appends_pure {A} (m : M World A) :
  (forall st, snd (m st) = st) -> appends Q m.
Proof.
  intros H st. exists []. rewrite H, app_nil_r. split; [reflexivity|constructor].
Qed.

Lemma appends_ret {A} (a : A) : appends Q (@ret World A a).
Proof. apply appends_pure. reflexivity. Qed.

Lemma appends_throw {A} (e : Error) : appends Q (@throw World A e).
Proof. apply appends_pure. reflexivity. Qed.

Lemma appends_out_of_fuel {A} : appends Q (@out_of_fuel World A).
Proof. apply appends_pure. reflexivity. Qed.

Lemma appends_read {A} (f : World -> Sys A) : appends Q (Fs.read f).
Proof. apply appends_pure. reflexivity. Qed.

Lemma appends_call_filter (f : string -> string -> World -> bool)
  (src dest : string) :
  appends Q (Fs.call_filter f src dest).
Proof. apply appends_pure. reflexivity. Qed.

Lemma appends_existsSync (path : string) : appends Q (Fs.existsSync path).
Proof.
  apply appends_pure. intros st. unfold Fs.existsSync.
  destruct (fs_stat path (world st)); reflexivity.
Qed.

Lemma appends_mutate {A} (ev : Event) (f : World -> Sys A * World) :
  Q ev -> appends Q (Fs.mutate ev f).
Proof.
  intros Hev st. exists [ev]. unfold Fs.mutate.
  destruct (f (world st)). split; [reflexivity|].
  constructor; [exact Hev|constructor].
Qed.

Lemma appends_bind {A B} (m : M World A) (k : A -> M World B) :
  appends Q m -> (forall a, appends Q (k a)) -> appends Q (bind m k).
Proof.
  intros Hm Hk st. unfold bind. destruct (Hm st) as (r1 & H1 & Q1).
  destruct (m st) as [[a|e|] st1]; simpl in *.
  - destruct (Hk a st1) as (r2 & H2 & Q2). exists (r1 ++ r2).
    rewrite H2, H1, <- app_assoc. split; [reflexivity|].
    apply Forall_app. split; assumption.
  - exists r1. split; assumption.
  - exists r1. split; assumption.
Qed.

Lemma appends_catch {A} (m : M World A) (h : Error -> M World A) :
  appends Q m -> (forall e, appends Q (h e)) -> appends Q (catch m h).
Proof.
  intros Hm Hh st. unfold catch. destruct (Hm st) as (r1 & H1 & Q1).
  destruct (m st) as [[a|e|] st1]; simpl in *.
  - exists r1. split; assumption.
  - destruct (Hh e st1) as (r2 & H2 & Q2). exists (r1 ++ r2).
    rewrite H2, H1, <- app_assoc. split; [reflexivity|].
    apply Forall_app. split; assumption.
  - exists r1. split; assumption.
Qed.

Lemma appends_finally {A} (m : M World A) (f : M World unit) :
  appends Q m -> appends Q f -> appends Q (finally m f).
Proof.
  intros Hm Hf st. unfold finally. destruct (Hm st) as (r1 & H1 & Q1).
  destruct (m st) as [[a|e|] st1]; simpl in *;
    try (exists r1; split; assumption);
    destruct (Hf st1) as (r2 & H2 & Q2); exists (r1 ++ r2);
    (destruct (f st1) as [[[]|e'|] st2]; simpl in *;
     rewrite H2, H1, <- app_assoc;
     (split; [reflexivity | apply Forall_app; split; assumption])).
Qed.

Lemma appends_forEach {A} (items : list A) (f : A -> M World unit) :
  (forall item, appends Q (f item)) -> appends Q (forEach items f).
Proof.
  intros Hf. induction items as [|x t IH]; simpl.
  - apply appends_ret.
  - apply appends_bind; [apply Hf | intros _; exact IH].
Qed.

Lemma appends_weaken {A} (Q' : Event -> Prop) (m : M World A) :
  (forall ev, Q' ev -> Q ev) -> appends Q' m -> appends Q m.
Proof.
  intros HQ Hm st. destruct (Hm st) as (r & H & HF). exists r.
  split; [exact H|]. eapply Forall_impl; eassumption.
Qed.
End AppendsFacts.

(** Decomposes a goal [appends Q m] along the structure of [m]. *)
Ltac appends_step :=
  match goal with
  | |- @appends _ _ _ (bind _ _) => apply appends_bind
  | |- @appends _ _ _ (catch _ _) => apply appends_catch
  | |- @appends _ _ _ (finally _ _) => apply appends_finally
  | |- @appends _ _ _ (ret _) => apply appends_ret
  | |- @appends _ _ _ (throw _) => apply appends_throw
  | |- @appends _ _ _ out_of_fuel => apply appends_out_of_fuel
  | |- @appends _ _ _ (Fs.read _) => apply appends_read
  | |- @appends _ _ _ (Fs.mutate _ _) => apply appends_mutate
  | |- @appends _ _ _ (Fs.existsSync _) => apply appends_existsSync
  | |- @appends _ _ _ (Fs.call_filter _ _ _) => apply appends_call_filter
  | |- @appends _ _ _ (forEach _ _) => apply appends_forEach
  | |- @appends _ _ _ (if ?b then _ else _) => destruct b
  | |- @appends _ _ _ ((if ?b then _ else _) _) => destruct b; cbv beta
  | |- @appends _ _ _ (match ?x with _ => _ end) => destruct x
  | |- @appends _ _ _ (let '(_, _) := ?x in _) => destruct x
  | |- forall _, _ => intro
  end.

Ltac appends_auto := fs_unfold; repeat appends_step.

Section MirrorFacts.
Context {World : Type} {FS : FsApi World} {P : PathApi} {E : ProcessEnv}.
Variables (src0 dest0 : string).

Lemma appends_checkPaths Q (src dest : string) (opts : Opts World) :
  appends Q (Copy.checkPaths src dest opts) /\
  appends Q (CopySync.checkPathsSync src dest opts).
Proof.
  split; apply appends_pure; intros st.
  - apply checkPaths_reads.
  - rewrite checkPathsSync_eq. apply checkPaths_reads.
Qed.

(** Discharges the side conditions on the calls of a visited pair. *)
Ltac mirrored_call :=
  simpl;
  first
    [ exact I
    | assumption
    | eexists; eassumption
    | split; [reflexivity | eexists; eassumption] ].

Lemma appends_onFile_promise (srcStat : Stats) (destStat : option Stats)
  (s d : string) (opts : Opts World) :
  Mirrored src0 dest0 s d ->
  appends (mirrored_event src0 dest0) (Copy.onFile srcStat destStat s d opts).
Proof.
  intros HM.
  unfold Copy.onFile, Copy.mayCopyFile, Copy._copyFile,
    Copy.handleTimestampsAndMode, Copy.setDestTimestampsAndMode,
    Copy.setDestTimestamps, Copy.utimesMillis, Copy.makeFileWritable,
    Copy.setDestMode.
  appends_auto; mirrored_call.
Qed.

Lemma appends_onFile_sync (srcStat : Stats) (destStat : option Stats)
  (s d : string) (opts : Opts World) :
  Mirrored src0 dest0 s d ->
  appends (mirrored_event src0 dest0)
    (CopySync.onFile srcStat destStat s d opts).
Proof.
  intros HM.
  unfold CopySync.onFile, CopySync.mayCopyFile, CopySync.copyFile,
    CopySync.handleTimestamps, CopySync.setDestTimestamps,
    CopySync.utimesMillisSync, CopySync.makeFileWritable,
    CopySync.setDestMode.
  appends_auto; mirrored_call.
Qed.

Lemma appends_onLink_promise (destStat : option Stats) (s d : string) :
  Mirrored src0 dest0 s d ->
  appends (mirrored_event src0 dest0) (Copy.onLink destStat s d).
Proof.
  intros HM. unfold Copy.onLink, Copy.copyLink.
  appends_auto; mirrored_call.
Qed.

Lemma appends_onLink_sync (destStat : option Stats) (s d : string)
  (opts : Opts World) :
  Mirrored src0 dest0 s d ->
  appends (mirrored_event src0 dest0) (CopySync.onLink destStat s d opts).
Proof.
  intros HM. unfold CopySync.onLink, CopySync.copyLink.
  appends_auto; mirrored_call.
Qed.

Lemma appends_getStatsForCopy (fuel : nat) :
  forall destStat s d (opts : Opts World),
    Mirrored src0 dest0 s d ->
    appends (mirrored_event src0 dest0)
      (Copy.getStatsForCopy fuel destStat s d opts).
Proof.
  induction fuel as [|fuel IH]; intros destStat s d opts HM; simpl.
  - apply appends_out_of_fuel.
  - unfold Copy.getStatsForCopy_body, Copy.onDir, Copy.mkDirAndCopy,
      Copy.copyDir, Copy.setDestMode.
    assert (Hloop : forall n i dir,
               appends (mirrored_event src0 dest0)
                 (Copy.copyDir_loop (Copy.getStatsForCopy fuel) n i dir
                    s d opts)).
    { induction n as [|n IHn]; intros i dir; simpl.
      - apply appends_ret.
      - unfold Copy.startCopy, Copy.handleFilter.
        appends_auto; try apply IHn; try apply appends_checkPaths;
          try (apply IH; apply Mirrored_child; exact HM). }
    appends_auto;
      try apply Hloop;
      try (apply appends_onFile_promise; exact HM);
      try (apply appends_onLink_promise; exact HM);
      mirrored_call.
Qed.

Lemma appends_getStats (fuel : nat) :
  forall destStat s d (opts : Opts World),
    Mirrored src0 dest0 s d ->
    appends (mirrored_event src0 dest0)
      (CopySync.getStats fuel destStat s d opts).
Proof.
  induction fuel as [|fuel IH]; intros destStat s d opts HM; simpl.
  - apply appends_out_of_fuel.
  - unfold CopySync.getStats_body, CopySync.onDir, CopySync.mkDirAndCopy,
      CopySync.copyDir, CopySync.copyDirItem, CopySync.startCopy,
      CopySync.setDestMode.
    appends_auto;
      try apply appends_checkPaths;
      try (apply IH; apply Mirrored_child; exact HM);
      try (apply appends_onFile_sync; exact HM);
      try (apply appends_onLink_sync; exact HM);
      mirrored_call.
Qed.
End MirrorFacts.

Section BehavesFacts.
Context {World : Type} {FS : FsApi World} {P : PathApi} {E : ProcessEnv}.
Variable Q : Event -> Prop.

Lemma grows_by_refl (st : St World) (r : CbArg unit) :
  grows_by Q st (Called r st).
Proof.
  exists []. split; [symmetry; apply app_nil_r | constructor].
Qed.

Lemma grows_by_trans (st st1 : St World) (x : Final World)
  (rest : list Event) :
  trace st1 = trace st ++ rest -> Forall Q rest ->
  grows_by Q st1 x -> grows_by Q st x.
Proof.
  intros H1 Q1. destruct x as [r s|m s|]; simpl; auto;
    intros (r2 & H2 & Q2); exists (rest ++ r2);
    (split; [rewrite H2, H1; symmetry; apply app_assoc
            | apply Forall_app; split; assumption]).
Qed.

Lemma behaves_ret (r : CbArg unit) :
  behaves Q (fun cb : Cb World unit => cb r).
Proof.
  intros st. exists (Called r st). split; [reflexivity|apply grows_by_refl].
Qed.

Lemma behaves_uncaught (msg : string) :
  behaves Q (fun _ : Cb World unit => Uncaught msg).
Proof.
  intros st. exists (Uncaught msg st). split; [reflexivity|].
  exists []. split; [symmetry; apply app_nil_r | constructor].
Qed.

Lemma behaves_fuel_out :
  behaves Q (fun (_ : Cb World unit) (_ : St World) => @FuelOut World).
Proof. intros st. exists FuelOut. split; [reflexivity|exact I]. Qed.

Lemma behaves_read {A} (g : World -> Sys A)
  (k : CbArg A -> Cb World unit -> K World) :
  (forall r, behaves Q (k r)) ->
  behaves Q (fun cb => FsCb.read g (fun r => k r cb)).
Proof.
  intros Hk st. unfold FsCb.read.
  destruct (Hk (arg_of_sys (g (world st))) st) as (x & Hx & Hg).
  exists x. split; assumption.
Qed.

Lemma behaves_mutate {A} (ev : Event) (g : World -> Sys A * World)
  (k : CbArg A -> Cb World unit -> K World) :
  Q ev -> (forall r, behaves Q (k r)) ->
  behaves Q (fun cb => FsCb.mutate ev g (fun r => k r cb)).
Proof.
  intros Hev Hk st. unfold FsCb.mutate.
  destruct (g (world st)) as [r w'].
  destruct (Hk (arg_of_sys r) (mkSt w' (trace st ++ [ev]))) as (x & Hx & Hg).
  exists x. split; [assumption|].
  apply (grows_by_trans st (mkSt w' (trace st ++ [ev])) x [ev]);
    [reflexivity | constructor; [exact Hev|constructor] | exact Hg].
Qed.

Lemma behaves_then (f : Cb World unit -> K World)
  (k : CbArg unit -> Cb World unit -> K World) :
  behaves Q f -> (forall r, behaves Q (k r)) ->
  behaves Q (fun cb => f (fun r => k r cb)).
Proof.
  intros Hf Hk st. destruct (Hf st) as (x & Hx & Hg).
  destruct x as [r st1|msg st1|].
  - destruct (Hk r st1) as (y & Hy & Hgy). exists y. split.
    + intros cb. rewrite Hx. simpl. apply Hy.
    + destruct Hg as (rest & Hrest & HQ).
      eapply grows_by_trans; eassumption.
  - exists (Uncaught msg st1). split; [|exact Hg].
    intros cb. rewrite Hx. reflexivity.
  - exists FuelOut. split; [|exact I].
    intros cb. rewrite Hx. reflexivity.
Qed.

Lemma behaves_delivered {A} (r : Res A)
  (k : CbArg A -> Cb World unit -> K World) :
  (forall r, behaves Q (k r)) ->
  behaves Q (fun cb => delivered r (fun a => k a cb)).
Proof.
  intros Hk. destruct r as [a|e|]; simpl.
  - apply Hk.
  - apply Hk.
  - apply behaves_fuel_out.
Qed.

Lemma behaves_ext (f g : Cb World unit -> K World) :
  (forall cb st, f cb st = g cb st) -> behaves Q g -> behaves Q f.
Proof.
  intros Hfg Hg st. destruct (Hg st) as (x & Hx & Hgr). exists x.
  split; [|exact Hgr]. intros cb. rewrite Hfg. apply Hx.
Qed.

Lemma behaves_checkPaths (src dest : string) (opts : Opts World)
  (k : CbArg (Stats * option Stats) -> Cb World unit -> K World) :
  (forall r, behaves Q (k r)) ->
  behaves Q (fun cb => CopyCb.checkPaths src dest opts (fun r => k r cb)).
Proof.
  intros Hk st.
  destruct (behaves_delivered (fst (Copy.checkPaths src dest opts st)) k Hk st)
    as (x & Hx & Hg).
  exists x. split; [|exact Hg]. intros cb.
  rewrite checkPaths_cb_delivers. apply Hx.
Qed.

Lemma behaves_checkParentPaths (fuel : nat) (src : string) (srcStat : Stats)
  (dest : string) (k : CbArg unit -> Cb World unit -> K World) :
  (forall r, behaves Q (k r)) ->
  behaves Q
    (fun cb => CopyCb.checkParentPaths fuel src srcStat dest (fun r => k r cb)).
Proof.
  intros Hk st.
  destruct (behaves_delivered
              (fst (Copy.checkParentPaths fuel src srcStat dest st)) k Hk st)
    as (x & Hx & Hg).
  exists x. split; [|exact Hg]. intros cb.
  rewrite checkParentPaths_cb_delivers. apply Hx.
Qed.

Lemma behaves_weaken (Q' : Event -> Prop) (f : Cb World unit -> K World) :
  (forall ev, Q' ev -> Q ev) -> behaves Q' f -> behaves Q f.
Proof.
  intros HQ Hf st. destruct (Hf st) as (x & Hx & Hg). exists x.
  split; [exact Hx|].
  destruct x as [r s|m s|]; simpl in *; auto;
    destruct Hg as (rest & H & HF); exists rest;
    (split; [exact H | eapply Forall_impl; eassumption]).
Qed.
End BehavesFacts.

(** Decomposes a goal [behaves Q f] along the structure of [f]. *)
Ltac behaves_step :=
  match goal with
  | |- behaves _ (fun cb => FsCb.read _ _) => apply behaves_read; intro
  | |- behaves _ (fun cb => FsCb.mutate _ _ _) =>
      apply behaves_mutate; [|intro]
  | |- behaves _ (fun cb => CopyCb.checkPaths _ _ _ _) =>
      apply behaves_checkPaths; intro
  | |- behaves _ (fun cb => CopyCb.checkParentPaths _ _ _ _ _) =>
      apply behaves_checkParentPaths; intro
  | |- behaves _ (fun cb => cb _) => apply behaves_ret
  | |- behaves _ (fun cb => Uncaught _) => apply behaves_uncaught
  | |- behaves _ (fun cb => if ?b then _ else _) => destruct b
  | |- behaves _ (fun cb => match ?x with _ => _ end) => destruct x
  | |- behaves _ (fun cb => let (_, _) := ?x in _) => destruct x
  end.

Section MirrorCallbackFacts.
Context {World : Type} {FS : FsApi World} {P : PathApi} {E : ProcessEnv}.
Variables (src0 dest0 : string).

Ltac mirrored_call :=
  simpl;
  first
    [ exact I
    | assumption
    | eexists; eassumption
    | split; [reflexivity | eexists; eassumption] ].

Lemma behaves_onFile (srcStat : Stats) (destStat : option Stats)
  (s d : string) (opts : Opts World) :
  Mirrored src0 dest0 s d ->
  behaves (mirrored_event src0 dest0)
    (CopyCb.onFile srcStat destStat s d opts).
Proof.
  intros HM.
  unfold CopyCb.onFile, CopyCb.mayCopyFile, CopyCb._copyFile,
    CopyCb.handleTimestampsAndMode, CopyCb.setDestTimestampsAndMode,
    CopyCb.setDestTimestamps, CopyCb.utimesMillis, CopyCb.makeFileWritable,
    CopyCb.setDestMode.
  fscb_unfold.
  repeat behaves_step; mirrored_call.
Qed.

Lemma behaves_onLink (destStat : option Stats) (s d : string)
  (opts : Opts World) :
  Mirrored src0 dest0 s d ->
  behaves (mirrored_event src0 dest0) (CopyCb.onLink destStat s d opts).
Proof.
  intros HM. unfold CopyCb.onLink, CopyCb.copyLink. fscb_unfold.
  repeat behaves_step; mirrored_call.
Qed.

Section Knot.
Variable rec :
  option Stats -> string -> string -> Opts World -> Cb World unit -> K World.
Hypothesis behaves_rec :
  forall destStat s d opts,
    Mirrored src0 dest0 s d ->
    behaves (mirrored_event src0 dest0) (rec destStat s d opts).

Lemma behaves_startCopy (destStat : option Stats) (s d : string)
  (opts : Opts World) :
  Mirrored src0 dest0 s d ->
  behaves (mirrored_event src0 dest0) (CopyCb.startCopy rec destStat s d opts).
Proof.
  intros HM. unfold CopyCb.startCopy, CopyCb.handleFilter.
  destruct (filter opts) as [f|]; [|apply behaves_rec; exact HM].
  intros st. destruct (f s d (world st)) eqn:Hf.
  - destruct (behaves_rec destStat s d opts HM st) as (x & Hx & Hg).
    exists x. split; [|exact Hg]. intros cb. apply Hx.
  - exists (Called (CbOk tt) st).
    split; [intros cb; reflexivity | apply grows_by_refl].
Qed.

Lemma behaves_callback_child (s d : string) (opts : Opts World)
  (item : string) :
  Mirrored src0 dest0 s d ->
  behaves (mirrored_event src0 dest0) (callback_child rec s d opts item).
Proof.
  intros HM. unfold callback_child. apply behaves_checkPaths.
  intros [e|[a b]].
  - apply behaves_ret.
  - apply behaves_startCopy. apply Mirrored_child. exact HM.
Qed.

Lemma behaves_forEachK Q (f : string -> Cb World unit -> K World)
  (items : list string) :
  (forall item, behaves Q (f item)) -> behaves Q (forEachK items f).
Proof.
  intros Hf. induction items as [|x t IH]; simpl.
  - apply behaves_ret.
  - apply (behaves_then Q (f x)
             (fun r cb => match r with
                          | CbErr err => cb (CbErr err)
                          | CbOk _ => forEachK t f cb
                          end)); [apply Hf|].
    intros [e|[]]; [apply behaves_ret | exact IH].
Qed.

Lemma behaves_copyDir (s d : string) (opts : Opts World) :
  Mirrored src0 dest0 s d ->
  behaves (mirrored_event src0 dest0) (CopyCb.copyDir rec s d opts).
Proof.
  intros HM. unfold CopyCb.copyDir. fscb_unfold. apply behaves_read.
  intros [e|items].
  - apply behaves_ret.
  - apply (behaves_ext _ _
             (forEachK (callback_order items) (callback_child rec s d opts))).
    + intros cb st. rewrite copyDirItems_forEachK by lia. reflexivity.
    + apply behaves_forEachK. intros item.
      apply behaves_callback_child. exact HM.
Qed.

Lemma behaves_getStatsForCopy_body (destStat : option Stats) (s d : string)
  (opts : Opts World) :
  Mirrored src0 dest0 s d ->
  behaves (mirrored_event src0 dest0)
    (CopyCb.getStatsForCopy_body rec destStat s d opts).
Proof.
  intros HM.
  unfold CopyCb.getStatsForCopy_body, CopyCb.onDir, CopyCb.mkDirAndCopy,
    CopyCb.setDestMode.
  fscb_unfold.
  destruct (dereference opts); cbv beta;
  repeat first
    [ behaves_step
    | apply behaves_onFile; exact HM
    | apply behaves_onLink; exact HM
    | apply behaves_copyDir; exact HM
    | apply (behaves_then _ (CopyCb.copyDir rec s d opts)
               (fun r cb => match r with
                            | CbErr err => cb (CbErr err)
                            | CbOk _ =>
                                FsCb.mutate (EvChmod d (mode _))
                                  (fs_chmod d (mode _)) cb
                            end)); [apply behaves_copyDir; exact HM | intro]
    | mirrored_call ].
Qed.
End Knot.

Lemma behaves_getStatsForCopy (fuel : nat) :
  forall destStat s d (opts : Opts World),
    Mirrored src0 dest0 s d ->
    behaves (mirrored_event src0 dest0)
      (CopyCb.getStatsForCopy fuel destStat s d opts).
Proof.
  induction fuel as [|fuel IH]; intros destStat s d opts HM; simpl.
  - apply behaves_fuel_out.
  - apply behaves_getStatsForCopy_body; [exact IH|exact HM].
Qed.
End MirrorCallbackFacts.

Section EntryWrites.
Context {World : Type} {FS : FsApi World} {P : PathApi} {E : ProcessEnv}.

Lemma mirrored_is_entry_event (src dest : string) (ev : Event) :
  mirrored_event src dest ev -> entry_event src dest ev.
Proof.
  destruct ev as [msg name|p [|]| | | | | | |]; simpl; auto.
  intros [H _]. discriminate H.
Qed.

Lemma checkParentPaths_reads (fuel : nat) (src : string) (srcStat : Stats)
  (dest : string) (st : St World) :
  snd (Copy.checkParentPaths fuel src srcStat dest st) = st.
Proof.
  rewrite (checkParentPaths_world fuel src srcStat dest st st eq_refl).
  reflexivity.
Qed.

Lemma appends_checkParentDir (fuel : nat) (destStat : option Stats)
  (src dest : string) (opts : Opts World) :
  appends (entry_event src dest)
    (Copy.checkParentDir fuel destStat src dest opts).
Proof.
  unfold Copy.checkParentDir, Copy.pathExists.
  appends_auto;
    try (apply (appends_weaken _ (mirrored_event src dest));
         [apply mirrored_is_entry_event
         |apply appends_getStatsForCopy; constructor]);
    reflexivity.
Qed.

Lemma behaves_checkParentDir (fuel : nat) (destStat : option Stats)
  (src dest : string) (opts : Opts World) :
  behaves (entry_event src dest)
    (CopyCb.checkParentDir fuel destStat src dest opts).
Proof.
  assert (Hrec : behaves (entry_event src dest)
                   (CopyCb.getStatsForCopy fuel destStat src dest opts)).
  { apply (behaves_weaken _ (mirrored_event src dest));
      [apply mirrored_is_entry_event
      |apply behaves_getStatsForCopy; constructor]. }
  unfold CopyCb.checkParentDir, CopyCb.pathExists. fscb_unfold.
  repeat first [behaves_step | exact Hrec | reflexivity].
Qed.

Lemma appends_handleFilterAndCopy (fuel : nat) (destStat : option Stats)
  (src dest : string) (opts : Opts World) :
  appends (entry_event src dest)
    (CopySync.handleFilterAndCopy fuel destStat src dest opts).
Proof.
  unfold CopySync.handleFilterAndCopy.
  appends_auto;
    try (apply (appends_weaken _ (mirrored_event src dest));
         [apply mirrored_is_entry_event
         |apply appends_getStats; constructor]);
    reflexivity.
Qed.

(** X17: where an entry point writes.  After the 32-bit warning, which
    comes first if it comes at all, every call that names a path to be
    written names a path on the destination side: a byte copy goes from
    [src], or from a path reached from [src] by joining names, to the path
    reached from [dest] by joining the same names; [mkdir], [unlink],
    [chmod], [symlink] and [open] name such a destination path; the one
    recursive [mkdir] is that of the parent of [dest].  This holds in the
    three dialects, for every run, whether it succeeds or not. *)
Theorem entry_points_write_on_the_destination_side (fuel : nat)
  (src dest : string) (opts : Opts World) (st : St World) :
  (exists rest,
     trace (snd (Copy.copyFn fuel src dest opts st))
     = trace st ++ warning_events opts ++ rest /\
     Forall (entry_event src dest) rest) /\
  (exists rest,
     trace (snd (CopySync.copySyncFn fuel src dest opts st))
     = trace st ++ warning_events opts ++ rest /\
     Forall (entry_event src dest) rest) /\
  match final_trace (CopyCb.copyPromises fuel src dest opts st) with
  | Some t =>
      exists rest,
        t = trace st ++ console_warning_events opts ++ rest /\
        Forall (entry_event src dest) rest
  | None => True
  end.
Proof.
  assert (Hnil : forall (r : Res unit) (st1 : St World) (ws : list Event),
            st1 = mkSt (world st) (trace st ++ ws) ->
            exists rest,
              trace (snd (r, st1)) = trace st ++ ws ++ rest /\
              Forall (entry_event src dest) rest).
  { intros r st1 ws ->. exists []. simpl. rewrite app_nil_r.
    split; [reflexivity|constructor]. }
  assert (Hrun : forall (m : M World unit) (st1 : St World)
                        (ws : list Event),
            st1 = mkSt (world st) (trace st ++ ws) ->
            appends (entry_event src dest) m ->
            exists rest,
              trace (snd (m st1)) = trace st ++ ws ++ rest /\
              Forall (entry_event src dest) rest).
  { intros m st1 ws -> Hm. destruct (Hm (mkSt (world st) (trace st ++ ws)))
      as (rest & H & HF).
    exists rest. rewrite H. simpl. rewrite <- app_assoc.
    split; [reflexivity|exact HF]. }
  refine (conj _ (conj _ _)).
  - rewrite copyFn_run. cbv zeta.
    destruct (fst (Copy.checkPaths src dest opts st)) as [[s d]|e|];
      try (apply Hnil; reflexivity).
    destruct (fst (Copy.checkParentPaths fuel src s dest st)) as [[]|e|];
      try (apply Hnil; reflexivity).
    destruct (filter opts) as [f|];
      (apply Hrun; [reflexivity|]);
      [|apply appends_checkParentDir].
    unfold Copy.handleFilter.
    apply appends_bind; [apply appends_call_filter|].
    intros [|]; [apply appends_checkParentDir|apply appends_ret].
  - rewrite copySyncFn_run. cbv zeta.
    destruct (fst (Copy.checkPaths src dest opts st)) as [[s d]|e|];
      try (apply Hnil; reflexivity).
    destruct (fst (Copy.checkParentPaths fuel src s dest st)) as [[]|e|];
      try (apply Hnil; reflexivity).
    apply Hrun; [reflexivity|apply appends_handleFilterAndCopy].
  - unfold CopyCb.copyPromises. rewrite copyFn_cb_run. cbv zeta.
    set (st1 := mkSt (world st) (trace st ++ console_warning_events opts)).
    assert (Hfin : forall x, grows_by (entry_event src dest) st1 x ->
              match final_trace x with
              | Some t =>
                  exists rest,
                    t = trace st ++ console_warning_events opts ++ rest /\
                    Forall (entry_event src dest) rest
              | None => True
              end).
    { intros [r s|m s|]; simpl; auto;
        intros (rest & H & HF); exists rest;
        (split; [rewrite H, app_assoc; reflexivity | exact HF]). }
    destruct (fst (Copy.checkPaths src dest opts st)) as [[s d]|e|];
      [|apply Hfin; apply grows_by_refl|exact I].
    destruct (fst (Copy.checkParentPaths fuel src s dest st)) as [[]|e|];
      [|apply Hfin; apply grows_by_refl|exact I].
    destruct (behaves_checkParentDir fuel d src dest opts st1)
      as (x & Hx & Hg).
    destruct (filter opts) as [f|].
    + unfold CopyCb.handleFilter. destruct (f src dest (world st1)).
      * rewrite Hx, then_cb_Called. apply Hfin. exact Hg.
      * apply Hfin. apply grows_by_refl.
    + rewrite Hx, then_cb_Called. apply Hfin. exact Hg.
Qed.
End EntryWrites.

(** ** Further facts: where the blocking and the promise dialects agree *)

Section DirectAgreement.
Context {World : Type} {FS : FsApi World} {P : PathApi} {E : ProcessEnv}.
Variable Inv : World -> Prop.
Variable opts : Opts World.
Hypothesis no_links :
  forall p w s, Inv w -> stat_for opts p w = SysOk s ->
                isSymbolicLink s = false.
Hypothesis mkdir_keeps :
  forall p r w, Inv w -> Inv (snd (fs_mkdir p r w)).
Hypothesis unlink_keeps : forall p w, Inv w -> Inv (snd (fs_unlink p w)).
Hypothesis copyFile_keeps :
  forall s d w, Inv w -> Inv (snd (fs_copyFile s d w)).
Hypothesis chmod_keeps : forall p m w, Inv w -> Inv (snd (fs_chmod p m w)).
Hypothesis no_timestamps : preserveTimestamps opts = false.
Hypothesis same_flag : force opts = overwrite opts.

Lemma onFile_agree (srcStat : Stats) (destStat : option Stats)
  (s d : string) (st : St World) :
  Inv (world st) ->
  CopySync.onFile srcStat destStat s d opts st
  = Copy.onFile srcStat destStat s d opts st /\
  Inv (world (snd (Copy.onFile srcStat destStat s d opts st))).
Proof.
  intros HI.
  unfold CopySync.onFile, CopySync.mayCopyFile, CopySync.copyFile,
    CopySync.setDestMode, Copy.onFile, Copy.mayCopyFile, Copy._copyFile,
    Copy.setDestMode.
  rewrite no_timestamps, same_flag. monad_unfold.
  pose proof (unlink_keeps d (world st) HI) as Hu.
  destruct destStat as [ds|].
  - destruct (overwrite opts); [|destruct (errorOnExist opts); auto].
    destruct (fs_unlink d (world st)) as [[[]|c] w1]; simpl in *; auto.
    pose proof (copyFile_keeps s d w1 Hu) as Hc.
    destruct (fs_copyFile s d w1) as [[[]|c] w2]; simpl in *; auto.
    pose proof (chmod_keeps d (mode srcStat) w2 Hc) as Hm.
    destruct (fs_chmod d (mode srcStat) w2) as [[[]|c] w3]; simpl in *; auto.
  - pose proof (copyFile_keeps s d (world st) HI) as Hc.
    destruct (fs_copyFile s d (world st)) as [[[]|c] w2]; simpl in *; auto.
    pose proof (chmod_keeps d (mode srcStat) w2 Hc) as Hm.
    destruct (fs_chmod d (mode srcStat) w2) as [[[]|c] w3]; simpl in *; auto.
Qed.

Lemma children_agree (fuel : nat) (s d : string) :
  (forall destStat s' d' st,
     Inv (world st) ->
     CopySync.getStats fuel destStat s' d' opts st
     = Copy.getStatsForCopy fuel destStat s' d' opts st /\
     Inv (world (snd (Copy.getStatsForCopy fuel destStat s' d' opts st)))) ->
  forall items st,
    Inv (world st) ->
    forEach items
      (fun item => CopySync.copyDirItem (CopySync.getStats fuel) item s d opts)
      st
    = forEach items (promise_child (Copy.getStatsForCopy fuel) s d opts) st /\
    Inv (world
           (snd (forEach items
                   (promise_child (Copy.getStatsForCopy fuel) s d opts) st))).
Proof.
  intros IH. induction items as [|x t IHt]; intros st HI; simpl;
    [split; [reflexivity|exact HI]|].
  rewrite !bind_run.
  assert (Hchild :
            CopySync.copyDirItem (CopySync.getStats fuel) x s d opts st
            = promise_child (Copy.getStatsForCopy fuel) s d opts x st /\
            Inv (world (snd (promise_child (Copy.getStatsForCopy fuel) s d
                               opts x st)))).
  { unfold CopySync.copyDirItem, promise_child.
    rewrite !bind_run, checkPathsSync_eq, checkPaths_run.
    destruct (fst (Copy.checkPaths (join s x) (join d x) opts st))
      as [[a b]|e|]; simpl; try (split; [reflexivity|exact HI]).
    unfold CopySync.startCopy, Copy.startCopy, Copy.handleFilter.
    destruct (filter opts) as [f|]; [|apply IH; exact HI].
    unfold Fs.call_filter. rewrite !bind_run.
    destruct (f (join s x) (join d x) (world st)); simpl;
      [apply IH; exact HI | split; [reflexivity|exact HI]]. }
  destruct Hchild as [Heq HI1]. rewrite Heq.
  destruct (promise_child (Copy.getStatsForCopy fuel) s d opts x st)
    as [[[]|e|] st1]; simpl in *;
    [apply IHt; exact HI1 | split; [reflexivity|exact HI1]
    | split; [reflexivity|exact HI1]].
Qed.

Lemma recursion_agree (fuel : nat) :
  forall destStat s d st,
    Inv (world st) ->
    CopySync.getStats fuel destStat s d opts st
    = Copy.getStatsForCopy fuel destStat s d opts st /\
    Inv (world (snd (Copy.getStatsForCopy fuel destStat s d opts st))).
Proof.
  induction fuel as [|fuel IH]; intros destStat s d st HI; simpl;
    [split; [reflexivity|exact HI]|].
  unfold CopySync.getStats_body, Copy.getStatsForCopy_body.
  rewrite !bind_run.
  assert (Hs : (if dereference opts then Fs.stat else Fs.lstat) s st
               = (of_sys (stat_for opts s (world st)), st)).
  { unfold stat_for, Fs.stat, Fs.lstat, Fs.read.
    destruct (dereference opts); reflexivity. }
  rewrite Hs.
  destruct (stat_for opts s (world st)) as [srcStat|code] eqn:Hstat; simpl;
    [|split; [reflexivity|exact HI]].
  rewrite (no_links s (world st) srcStat HI Hstat).
  destruct (isDirectory srcStat).
  - assert (Hdir : forall st1, Inv (world st1) ->
              CopySync.copyDir (CopySync.getStats fuel) s d opts st1
              = Copy.copyDir (Copy.getStatsForCopy fuel) s d opts st1 /\
              Inv (world (snd (Copy.copyDir (Copy.getStatsForCopy fuel) s d
                                 opts st1)))).
    { intros st1 HI1. unfold CopySync.copyDir, Copy.copyDir.
      rewrite !bind_run. unfold Fs.readdir, Fs.read.
      destruct (fs_readdir s (world st1)) as [items|code]; simpl;
        [|split; [reflexivity|exact HI1]].
      rewrite copyDir_loop_forEach by (rewrite Nat.sub_0_r; reflexivity).
      simpl. apply (children_agree fuel s d IH). exact HI1. }
    unfold CopySync.onDir, Copy.onDir, CopySync.mkDirAndCopy,
      Copy.mkDirAndCopy, CopySync.setDestMode, Copy.setDestMode.
    destruct destStat as [ds|]; [apply Hdir; exact HI|].
    rewrite !bind_run. unfold Fs.mkdir, Fs.mutate.
    pose proof (mkdir_keeps d false (world st) HI) as Hm.
    destruct (fs_mkdir d false (world st)) as [[[]|c] w1]; simpl in *;
      [|split; [reflexivity|exact Hm]].
    rewrite !bind_run.
    destruct (Hdir (mkSt w1 (trace st ++ [EvMkdir d false])) Hm)
      as [Heq HI2].
    rewrite Heq.
    destruct (Copy.copyDir (Copy.getStatsForCopy fuel) s d opts
                (mkSt w1 (trace st ++ [EvMkdir d false])))
      as [[[]|e|] st2]; simpl in *; try (split; [reflexivity|exact HI2]).
    unfold Fs.chmod, Fs.mutate.
    pose proof (chmod_keeps d (mode srcStat) (world st2) HI2) as Hc.
    destruct (fs_chmod d (mode srcStat) (world st2)) as [rc w3].
    split; [reflexivity|exact Hc].
  - destruct (isFile srcStat || isCharacterDevice srcStat
              || isBlockDevice srcStat);
      [apply onFile_agree; exact HI|].
    destruct (isSocket srcStat); [split; [reflexivity|exact HI]|].
    destruct (isFIFO srcStat); split; try reflexivity; exact HI.
Qed.
End DirectAgreement.

(** X18: where the blocking and the promise dialects agree.  On a
    filesystem without symbolic links (a set of worlds, closed under the
    calls the copy issues, in which the stat call in use never reports
    one), without [preserveTimestamps], with [force] and [overwrite] set
    alike, and when [stat] on the parent of [dest] either succeeds or fails
    with ENOENT, [copySyncFn] and [copyFn] are the same function of the
    state: the same outcome, the same calls in the same order, the same
    final world. *)
Theorem blocking_and_promise_agree_without_links
  {World : Type} {FS : FsApi World} {P : PathApi} {E : ProcessEnv}
  (Inv : World -> Prop) (fuel : nat) (src dest : string) (opts : Opts World)
  (st : St World) :
  (forall p w s, Inv w -> stat_for opts p w = SysOk s ->
                 isSymbolicLink s = false) ->
  (forall p r w, Inv w -> Inv (snd (fs_mkdir p r w))) ->
  (forall p w, Inv w -> Inv (snd (fs_unlink p w))) ->
  (forall s d w, Inv w -> Inv (snd (fs_copyFile s d w))) ->
  (forall p m w, Inv w -> Inv (snd (fs_chmod p m w))) ->
  Inv (world st) ->
  preserveTimestamps opts = false ->
  force opts = overwrite opts ->
  (forall code,
     fs_stat (dirname dest) (world st) = SysErr code -> code = "ENOENT") ->
  CopySync.copySyncFn fuel src dest opts st
  = Copy.copyFn fuel src dest opts st.
Proof.
  intros Hlinks Hmk Hun Hcp Hch HI Hts Hflag Hparent.
  rewrite copySyncFn_run, copyFn_run. cbv zeta.
  destruct (fst (Copy.checkPaths src dest opts st)) as [[s d]|e|];
    try reflexivity.
  destruct (fst (Copy.checkParentPaths fuel src s dest st)) as [[]|e|];
    try reflexivity.
  set (st1 := mkSt (world st) (trace st ++ warning_events opts)).
  assert (Hrec : forall st2, Inv (world st2) ->
            CopySync.getStats fuel d src dest opts st2
            = Copy.getStatsForCopy fuel d src dest opts st2).
  { intros st2 HI2.
    apply (recursion_agree Inv opts Hlinks Hmk Hun Hcp Hch Hts Hflag fuel
             d src dest st2 HI2). }
  assert (Hgo : bind (Fs.existsSync (dirname dest))
                  (fun parentExists =>
                     bind (if negb parentExists
                           then Fs.mkdir (dirname dest) true else ret tt)
                       (fun _ => CopySync.getStats fuel d src dest opts))
                  st1
                = Copy.checkParentDir fuel d src dest opts st1).
  { unfold Copy.checkParentDir, Copy.pathExists, Fs.existsSync.
    monad_unfold. simpl.
    destruct (fs_stat (dirname dest) (world st)) as [ps|code] eqn:Hp; simpl.
    - apply Hrec. exact HI.
    - rewrite (Hparent code eq_refl). simpl.
      pose proof (Hmk (dirname dest) true (world st) HI) as Hm.
      destruct (fs_mkdir (dirname dest) true (world st)) as [[[]|c] w1];
        simpl in *; [|reflexivity].
      apply Hrec. exact Hm. }
  unfold CopySync.handleFilterAndCopy, Copy.handleFilter.
  destruct (filter opts) as [f|]; [|exact Hgo].
  rewrite !bind_run. unfold Fs.call_filter. unfold ret at 1.
  destruct (f src dest (world st1)); cbn [negb]; [exact Hgo|reflexivity].
Qed.

Section MoreAgreement.
Context {World : Type} {FS : FsApi World} {P : PathApi} {E : ProcessEnv}.

Lemma isSrcSubdir_no_components (src dest : string) :
  Copy.normalizePathToArray src = [] -> Copy.isSrcSubdir src dest = true.
Proof. intros H. unfold Copy.isSrcSubdir. rewrite H. reflexivity. Qed.

(** X19: a directory is never copied to a path [isSrcSubdir] places at or
    below it, whatever is or is not at that path: [checkPaths] fails in
    every dialect (with one of its own errors, or with the error of the
    stat of [dest]), so every entry point fails with that error before any
    filesystem call that changes something.  This includes every copy of a
    directory whose resolved path has no components, the root: [every]
    over its empty component array holds for every [dest]. *)
Theorem directory_is_never_copied_below_itself (fuel : nat)
  (src dest : string) (opts : Opts World) (st : St World) (srcStat : Stats) :
  stat_for opts src (world st) = SysOk srcStat ->
  isDirectory srcStat = true ->
  Copy.isSrcSubdir src dest = true ->
  exists e,
    Copy.checkPaths src dest opts st = (Throw e, st) /\
    Copy.copyFn fuel src dest opts st
    = (Throw e, mkSt (world st) (trace st ++ warning_events opts)) /\
    CopySync.copySyncFn fuel src dest opts st
    = (Throw e, mkSt (world st) (trace st ++ warning_events opts)) /\
    CopyCb.copyPromises fuel src dest opts st
    = Called (CbErr e)
        (mkSt (world st) (trace st ++ console_warning_events opts)).
Proof.
  intros Hstat Hdir Hsub.
  assert (H : exists e, fst (Copy.checkPaths src dest opts st) = Throw e).
  { unfold stat_for in Hstat.
    unfold Copy.checkPaths, Copy.getStats. monad_unfold.
    destruct (dereference opts); rewrite Hstat; simpl;
      [destruct (fs_stat dest (world st)) as [d|code]
      |destruct (fs_lstat dest (world st)) as [d|code]]; simpl;
      try (destruct (code =? "ENOENT"); simpl;
           rewrite ?Hdir, ?Hsub; simpl; eexists; reflexivity);
      destruct (Copy.areIdentical srcStat d); simpl;
      try (eexists; reflexivity);
      rewrite Hdir; simpl; destruct (isDirectory d); simpl;
      rewrite ?Hsub; simpl; eexists; reflexivity. }
  destruct H as [e He]. exists e.
  rewrite checkPaths_run, copyFn_run, copySyncFn_run.
  unfold CopyCb.copyPromises. rewrite copyFn_cb_run. cbv zeta.
  rewrite He. repeat split.
Qed.

(** X20: copying a regular file (or a character or block device) without
    [preserveTimestamps] and with [force] and [overwrite] set alike is the
    same in the three dialects: the same outcome after the same calls, the
    callback being handed what the other two return or throw. *)
Theorem file_copy_is_the_same_in_every_dialect (fuel : nat)
  (destStat : option Stats) (src dest : string) (opts : Opts World)
  (st : St World) (srcStat : Stats) :
  stat_for opts src (world st) = SysOk srcStat ->
  isFile srcStat || isCharacterDevice srcStat || isBlockDevice srcStat
  = true ->
  preserveTimestamps opts = false ->
  force opts = overwrite opts ->
  CopySync.getStats (S fuel) destStat src dest opts st
  = Copy.getStatsForCopy (S fuel) destStat src dest opts st /\
  forall cb,
    CopyCb.getStatsForCopy (S fuel) destStat src dest opts cb st
    = delivered_run (Copy.getStatsForCopy (S fuel) destStat src dest opts st)
        cb.
Proof.
  unfold stat_for, delivered_run. intros Hstat Hkind Hts Hflag. simpl.
  assert (Hnd : isDirectory srcStat = false).
  { unfold isDirectory, isFile, isCharacterDevice, isBlockDevice in *.
    destruct (st_kind srcStat); try reflexivity; discriminate. }
  unfold CopySync.getStats_body, Copy.getStatsForCopy_body,
    CopyCb.getStatsForCopy_body,
    CopySync.onFile, CopySync.mayCopyFile, CopySync.copyFile,
    CopySync.setDestMode, Copy.onFile, Copy.mayCopyFile, Copy._copyFile,
    Copy.setDestMode, CopyCb.onFile, CopyCb.mayCopyFile, CopyCb._copyFile,
    CopyCb.setDestMode,
    FsCb.stat, FsCb.lstat, FsCb.unlink, FsCb.copyFile, FsCb.chmod,
    FsCb.read, FsCb.mutate.
  monad_unfold.
  destruct (dereference opts); rewrite Hstat; simpl;
    rewrite Hnd, Hkind, Hts, Hflag;
    (destruct destStat as [d|];
     [destruct (overwrite opts);
      [|destruct (errorOnExist opts); split; reflexivity]|]);
    simpl; repeat fs_call_cases; split; reflexivity.
Qed.

(** X21: what a [checkPaths] that succeeds guarantees, in every dialect:
    the two stats it returns are those of [src] and [dest] in the current
    world ([destStat] is null exactly for a [dest] whose stat failed with
    ENOENT); an existing [dest] is not the same inode as [src] and is a
    directory exactly when [src] is one; and a directory [src] does not
    contain [dest], as [isSrcSubdir] sees the two paths. *)
Theorem checkPaths_guarantees (src dest : string) (opts : Opts World)
  (st : St World) (srcStat : Stats) (destStat : option Stats) :
  fst (Copy.checkPaths src dest opts st) = Ok (srcStat, destStat) ->
  (CopySync.checkPathsSync src dest opts st = (Ok (srcStat, destStat), st) /\
   forall cb,
     CopyCb.checkPaths src dest opts cb st
     = cb (CbOk (srcStat, destStat)) st) /\
  stat_for opts src (world st) = SysOk srcStat /\
  (isDirectory srcStat = true -> Copy.isSrcSubdir src dest = false) /\
  match destStat with
  | Some d =>
      stat_for opts dest (world st) = SysOk d /\
      Copy.areIdentical srcStat d = false /\
      isDirectory d = isDirectory srcStat
  | None => stat_for opts dest (world st) = SysErr "ENOENT"
  end.
Proof.
  intros Hok. split.
  { rewrite checkPathsSync_eq, checkPaths_run, Hok.
    split; [reflexivity|]. intros cb.
    rewrite checkPaths_cb_delivers, Hok. reflexivity. }
  revert Hok. unfold stat_for, Copy.checkPaths, Copy.getStats.
  monad_unfold.
  destruct (dereference opts);
    [destruct (fs_stat src (world st)) as [s|c]
    |destruct (fs_lstat src (world st)) as [s|c]]; simpl;
    try discriminate;
    [destruct (fs_stat dest (world st)) as [d|c]
    |destruct (fs_lstat dest (world st)) as [d|c]]; simpl;
    try (destruct (String.eqb_spec c "ENOENT") as [->|Hne]; simpl;
         [|discriminate]);
    try (destruct (Copy.areIdentical s d) eqn:Hid; simpl; try discriminate;
         destruct (isDirectory s) eqn:Hs, (isDirectory d) eqn:Hd; simpl;
         try discriminate);
    try (destruct (isDirectory s) eqn:Hs; simpl);
    try (destruct (Copy.isSrcSubdir src dest) eqn:Hsub; simpl;
         try discriminate);
    intros H; injection H as <- <-;
    rewrite ?Hs; repeat split; auto; try discriminate.
Qed.
End MoreAgreement.

(** ** Further facts: a filter that accepts everything *)

Section AcceptingFilter.
Context {World : Type} {FS : FsApi World} {P : PathApi} {E : ProcessEnv}.
Variable opts : Opts World.
Variable f : string -> string -> World -> bool.
Hypothesis accept_all : forall s d w, f s d w = true.

Lemma bind_cong {A B} (m1 m2 : M World A) (k1 k2 : A -> M World B)
  (st : St World) :
  m1 st = m2 st -> (forall a s, k1 a s = k2 a s) ->
  bind m1 k1 st = bind m2 k2 st.
Proof.
  intros Hm Hk. unfold bind. rewrite Hm.
  destruct (m2 st) as [[a|e|] s]; auto.
Qed.

Lemma forEachK_ext (f1 f2 : string -> Cb World unit -> K World)
  (items : list string) (cb : Cb World unit) (st : St World) :
  (forall item k s, f1 item k s = f2 item k s) ->
  forEachK items f1 cb st = forEachK items f2 cb st.
Proof.
  intros Hf. revert st. induction items as [|x t IH]; intros st; simpl;
    [reflexivity|].
  rewrite Hf. f_equal. extensionality r. destruct r as [e|[]];
    [reflexivity|]. extensionality s. apply IH.
Qed.

Lemma promise_accepting (fuel : nat) :
  forall destStat s d st,
    Copy.getStatsForCopy fuel destStat s d (with_filter opts (Some f)) st
    = Copy.getStatsForCopy fuel destStat s d (with_filter opts None) st.
Proof.
  induction fuel as [|fuel IH]; intros destStat s d st; simpl;
    [reflexivity|].
  unfold Copy.getStatsForCopy_body.
  apply bind_cong; [reflexivity|]. intros srcStat st1.
  assert (Hdir : forall st2,
            Copy.copyDir (Copy.getStatsForCopy fuel) s d
              (with_filter opts (Some f)) st2
            = Copy.copyDir (Copy.getStatsForCopy fuel) s d
                (with_filter opts None) st2).
  { intros st2. unfold Copy.copyDir. apply bind_cong; [reflexivity|].
    intros dir st3. generalize 0 as i. revert st3.
    induction (length dir) as [|n IHn]; intros st3 i; simpl; [reflexivity|].
    destruct (nth_error dir i) as [item|]; [|reflexivity].
    apply bind_cong; [reflexivity|]. intros [a b] st4.
    apply bind_cong; [|intros _ st5; apply IHn].
    unfold Copy.startCopy, Copy.handleFilter, Fs.call_filter. simpl.
    rewrite bind_run, accept_all. apply IH. }
  destruct (isDirectory srcStat).
  - unfold Copy.onDir, Copy.mkDirAndCopy. destruct destStat as [ds|];
      [apply Hdir|].
    apply bind_cong; [reflexivity|]. intros _ st2.
    apply bind_cong; [apply Hdir|reflexivity].
  - reflexivity.
Qed.

Lemma sync_accepting (fuel : nat) :
  forall destStat s d st,
    CopySync.getStats fuel destStat s d (with_filter opts (Some f)) st
    = CopySync.getStats fuel destStat s d (with_filter opts None) st.
Proof.
  induction fuel as [|fuel IH]; intros destStat s d st; simpl;
    [reflexivity|].
  unfold CopySync.getStats_body.
  apply bind_cong; [reflexivity|]. intros srcStat st1.
  assert (Hdir : forall st2,
            CopySync.copyDir (CopySync.getStats fuel) s d
              (with_filter opts (Some f)) st2
            = CopySync.copyDir (CopySync.getStats fuel) s d
                (with_filter opts None) st2).
  { intros st2. unfold CopySync.copyDir. apply bind_cong; [reflexivity|].
    intros items st3. apply forEach_ext. intros item st4.
    unfold CopySync.copyDirItem.
    apply bind_cong; [reflexivity|]. intros [a b] st5.
    unfold CopySync.startCopy, Fs.call_filter. simpl.
    rewrite bind_run, accept_all. apply IH. }
  destruct (isDirectory srcStat).
  - unfold CopySync.onDir, CopySync.mkDirAndCopy. destruct destStat as [ds|];
      [apply Hdir|].
    apply bind_cong; [reflexivity|]. intros _ st2.
    apply bind_cong; [apply Hdir|reflexivity].
  - reflexivity.
Qed.

Lemma callback_accepting (fuel : nat) :
  forall destStat s d cb st,
    CopyCb.getStatsForCopy fuel destStat s d (with_filter opts (Some f)) cb st
    = CopyCb.getStatsForCopy fuel destStat s d (with_filter opts None) cb st.
Proof.
  induction fuel as [|fuel IH]; intros destStat s d cb st; simpl;
    [reflexivity|].
  unfold CopyCb.getStatsForCopy_body.
  assert (Hdir : forall k st2,
            CopyCb.copyDir (CopyCb.getStatsForCopy fuel) s d
              (with_filter opts (Some f)) k st2
            = CopyCb.copyDir (CopyCb.getStatsForCopy fuel) s d
                (with_filter opts None) k st2).
  { intros k st2. unfold CopyCb.copyDir, FsCb.readdir, FsCb.read.
    destruct (fs_readdir s (world st2)) as [items|code]; cbn [arg_of_sys];
      [|reflexivity].
    rewrite !copyDirItems_forEachK by lia.
    apply forEachK_ext. intros item k' st3. unfold callback_child.
    rewrite !checkPaths_cb_delivers.
    change (Copy.checkPaths (join s item) (join d item)
              (with_filter opts (Some f)))
      with (Copy.checkPaths (join s item) (join d item)
              (with_filter opts None)).
    destruct (fst (Copy.checkPaths (join s item) (join d item)
                     (with_filter opts None) st3)) as [stats|e|];
      simpl; try reflexivity.
    unfold CopyCb.startCopy, CopyCb.handleFilter. simpl.
    rewrite accept_all. apply IH. }
  change (dereference (with_filter opts (Some f))) with (dereference opts).
  change (dereference (with_filter opts None)) with (dereference opts).
  unfold FsCb.stat, FsCb.lstat, FsCb.read.
  destruct (dereference opts);
    [destruct (fs_stat s (world st)) as [srcStat|code]
    |destruct (fs_lstat s (world st)) as [srcStat|code]]; simpl;
    try reflexivity;
    (destruct (isDirectory srcStat); [|reflexivity];
     unfold CopyCb.onDir, CopyCb.mkDirAndCopy, FsCb.mkdir, FsCb.mutate;
     destruct destStat as [ds|]; [apply Hdir|];
     destruct (fs_mkdir d false (world st)) as [[[]|c] w1]; simpl;
     [apply Hdir|reflexivity]).
Qed.

(** X22: a filter that accepts every pair changes nothing: with it every
    entry point does exactly what it does without a filter. *)
Theorem accepting_filter_is_no_filter (fuel : nat) (src dest : string)
  (st : St World) :
  Copy.copyFn fuel src dest (with_filter opts (Some f)) st
  = Copy.copyFn fuel src dest (with_filter opts None) st /\
  CopySync.copySyncFn fuel src dest (with_filter opts (Some f)) st
  = CopySync.copySyncFn fuel src dest (with_filter opts None) st /\
  CopyCb.copyPromises fuel src dest (with_filter opts (Some f)) st
  = CopyCb.copyPromises fuel src dest (with_filter opts None) st.
Proof.
  refine (conj _ (conj _ _)).
  - rewrite !copyFn_run. cbv zeta.
    change (Copy.checkPaths src dest (with_filter opts (Some f)))
      with (Copy.checkPaths src dest (with_filter opts None)).
    change (@warning_events World E (with_filter opts (Some f)))
      with (@warning_events World E (with_filter opts None)).
    destruct (fst (Copy.checkPaths src dest (with_filter opts None) st))
      as [[s d]|e|]; try reflexivity.
    destruct (fst (Copy.checkParentPaths fuel src s dest st)) as [[]|e|];
      try reflexivity.
    simpl. unfold Copy.handleFilter, Fs.call_filter.
    rewrite bind_run, accept_all.
    unfold Copy.checkParentDir. apply bind_cong; [reflexivity|].
    intros [|] st2; [apply promise_accepting|].
    apply bind_cong; [reflexivity|]. intros _ st3. apply promise_accepting.
  - rewrite !copySyncFn_run. cbv zeta.
    change (Copy.checkPaths src dest (with_filter opts (Some f)))
      with (Copy.checkPaths src dest (with_filter opts None)).
    change (@warning_events World E (with_filter opts (Some f)))
      with (@warning_events World E (with_filter opts None)).
    destruct (fst (Copy.checkPaths src dest (with_filter opts None) st))
      as [[s d]|e|]; try reflexivity.
    destruct (fst (Copy.checkParentPaths fuel src s dest st)) as [[]|e|];
      try reflexivity.
    unfold CopySync.handleFilterAndCopy, Fs.call_filter. simpl.
    rewrite !bind_run, accept_all. simpl.
    apply bind_cong; [reflexivity|]. intros b st2.
    apply bind_cong; [reflexivity|]. intros _ st3. apply sync_accepting.
  - unfold CopyCb.copyPromises. rewrite !copyFn_cb_run. cbv zeta.
    change (Copy.checkPaths src dest (with_filter opts (Some f)))
      with (Copy.checkPaths src dest (with_filter opts None)).
    change (@console_warning_events World E (with_filter opts (Some f)))
      with (@console_warning_events World E (with_filter opts None)).
    destruct (fst (Copy.checkPaths src dest (with_filter opts None) st))
      as [[s d]|e|]; try reflexivity.
    destruct (fst (Copy.checkParentPaths fuel src s dest st)) as [[]|e|];
      try reflexivity.
    simpl. unfold CopyCb.handleFilter. rewrite accept_all.
    unfold CopyCb.checkParentDir, CopyCb.pathExists, FsCb.stat, FsCb.read,
      FsCb.mkdir, FsCb.mutate. simpl.
    destruct (fs_stat (dirname dest) (world st)) as [ps|code]; simpl;
      [apply callback_accepting|].
    destruct (code =? "ENOENT"); simpl; [|reflexivity].
    destruct (fs_mkdir (dirname dest) true (world st)) as [[[]|c] w1]; simpl;
      [apply callback_accepting|reflexivity].
Qed.
End AcceptingFilter.

(** ** Further facts: in-memory worlds without symbolic links *)

Section LinkFreeWorlds.

Lemma find_node_link_free (key : string) (ns : list (string * MemFs.Node))
  (n : MemFs.Node) :
  forallb (fun kn => negb (is_link (snd kn))) ns = true ->
  MemFs.find_node key ns = Some n -> is_link n = false.
Proof.
  induction ns as [|[k n'] t IH]; simpl; [discriminate|].
  intros H. apply andb_true_iff in H. destruct H as [Hn Ht].
  destruct (k =? key).
  - intros Heq. injection Heq as <-. apply negb_true_iff. exact Hn.
  - apply IH. exact Ht.
Qed.

Lemma set_node_link_free (key : string) (n : MemFs.Node)
  (ns : list (string * MemFs.Node)) :
  is_link n = false ->
  forallb (fun kn => negb (is_link (snd kn))) ns = true ->
  forallb (fun kn => negb (is_link (snd kn))) (MemFs.set_node key n ns)
  = true.
Proof.
  intros Hn. induction ns as [|[k n'] t IH]; simpl.
  - intros _. rewrite Hn. reflexivity.
  - intros H. apply andb_true_iff in H. destruct H as [Hn' Ht].
    destruct (k =? key); simpl.
    + rewrite Hn, Ht. reflexivity.
    + rewrite Hn', (IH Ht). reflexivity.
Qed.

Lemma remove_node_link_free (key : string) (ns : list (string * MemFs.Node)) :
  forallb (fun kn => negb (is_link (snd kn))) ns = true ->
  forallb (fun kn => negb (is_link (snd kn))) (MemFs.remove_node key ns)
  = true.
Proof.
  unfold MemFs.remove_node. induction ns as [|[k n'] t IH]; simpl;
    [reflexivity|].
  intros H. apply andb_true_iff in H. destruct H as [Hn' Ht].
  destruct (negb (k =? key)); simpl; [rewrite Hn'|]; apply IH; exact Ht.
Qed.

Lemma stat_link_free (follow : bool) (cwd path : string) (w : MemFs.World)
  (s : Stats) :
  link_free w -> MemFs.stat_with follow cwd path w = SysOk s ->
  isSymbolicLink s = false.
Proof.
  unfold link_free, MemFs.stat_with. intros Hw.
  destruct (MemFs.locate cwd path follow w) as [key|code]; [|discriminate].
  destruct (MemFs.find_node key (MemFs.nodes w)) as [n|] eqn:Hn;
    [|discriminate].
  intros H. injection H as <-.
  pose proof (find_node_link_free key _ n Hw Hn) as Hl.
  destruct n; simpl in *; try reflexivity; discriminate.
Qed.

Lemma mkdir_one_link_free (cwd path : string) (w : MemFs.World) :
  link_free w -> link_free (snd (MemFs.mkdir_one cwd path w)).
Proof.
  unfold MemFs.mkdir_one. intros Hw.
  destruct (MemFs.locate cwd path false w) as [key|code]; [|exact Hw].
  destruct (MemFs.find_node key (MemFs.nodes w)); [exact Hw|].
  unfold link_free, MemFs.add_node. simpl.
  apply set_node_link_free; [reflexivity|exact Hw].
Qed.

Lemma mkdir_prefixes_link_free (cwd : string) (todo done : list string)
  (w : MemFs.World) :
  link_free w -> link_free (snd (MemFs.mkdir_prefixes cwd done todo w)).
Proof.
  revert done w. induction todo as [|s rest IH]; intros done w Hw; simpl;
    [exact Hw|].
  destruct (MemFs.stat_with true cwd (Posix.render (done ++ [s])) w)
    as [st|code].
  - destruct (isDirectory st); [apply IH; exact Hw|exact Hw].
  - pose proof (mkdir_one_link_free cwd (Posix.render (done ++ [s])) w Hw)
      as H1.
    destruct (MemFs.mkdir_one cwd (Posix.render (done ++ [s])) w)
      as [[[]|c] w']; simpl in *; [apply IH; exact H1|exact H1].
Qed.

Lemma mkdir_link_free (cwd path : string) (recursive : bool)
  (w : MemFs.World) :
  link_free w -> link_free (snd (MemFs.mkdir cwd path recursive w)).
Proof.
  unfold MemFs.mkdir. intros Hw.
  destruct (MemFs.fails "mkdir" w); [exact Hw|].
  destruct recursive;
    [apply mkdir_prefixes_link_free | apply mkdir_one_link_free]; exact Hw.
Qed.

Lemma unlink_link_free (cwd path : string) (w : MemFs.World) :
  link_free w -> link_free (snd (MemFs.unlink cwd path w)).
Proof.
  unfold MemFs.unlink. intros Hw.
  destruct (MemFs.fails "unlink" w); [exact Hw|].
  destruct (MemFs.locate cwd path false w) as [key|code]; [|exact Hw].
  destruct (MemFs.find_node key (MemFs.nodes w)) as [[]|]; try exact Hw;
    unfold link_free; simpl; apply remove_node_link_free; exact Hw.
Qed.

Lemma copyFile_link_free (cwd src dest : string) (w : MemFs.World) :
  link_free w -> link_free (snd (MemFs.copyFile cwd src dest w)).
Proof.
  unfold MemFs.copyFile. intros Hw.
  destruct (MemFs.fails "copyFile" w); [exact Hw|].
  destruct (MemFs.locate cwd src true w) as [skey|code]; [|exact Hw].
  destruct (MemFs.locate cwd dest true w) as [dkey|code]; [|exact Hw].
  destruct (MemFs.find_node skey (MemFs.nodes w)) as [[]|]; try exact Hw.
  destruct (MemFs.find_node dkey (MemFs.nodes w)) as [[]|]; try exact Hw.
  - match goal with
    | |- context [if ?b then _ else _] => destruct b; [exact Hw|]
    end.
    unfold link_free. simpl.
    repeat (apply set_node_link_free; [reflexivity|]). exact Hw.
  - unfold link_free. simpl.
    repeat (apply set_node_link_free; [reflexivity|]). exact Hw.
Qed.

Lemma chmod_link_free (cwd path : string) (m : Z) (w : MemFs.World) :
  link_free w -> link_free (snd (MemFs.chmod cwd path m w)).
Proof.
  unfold MemFs.chmod. intros Hw.
  destruct (MemFs.fails "chmod" w); [exact Hw|].
  destruct (MemFs.locate cwd path true w) as [key|code]; [|exact Hw].
  destruct (MemFs.find_node key (MemFs.nodes w)) as [[]|]; try exact Hw;
    unfold link_free; simpl; apply set_node_link_free;
    try reflexivity; exact Hw.
Qed.
End LinkFreeWorlds.

(** ** Further facts on the in-memory filesystem *)

Section MoreRuns.
#[local] Existing Instance fs0.
#[local] Existing Instance path0.
#[local] Existing Instance env0.

(** [/a] contains [/a/d], which contains [/a/d/e]. *)
Lemma isSrcSubdir_transitive_witness :
  Copy.isSrcSubdir "/a" "/a/d" = true /\
  Copy.isSrcSubdir "/a/d" "/a/d/e" = true /\
  Copy.isSrcSubdir "/a" "/a/d/e" = true /\
  length (Copy.normalizePathToArray "/a")
  <= length (Copy.normalizePathToArray "/a/d").
Proof.
  assert (H1 : Copy.isSrcSubdir "/a" "/a/d" = true) by reflexivity.
  assert (H2 : Copy.isSrcSubdir "/a/d" "/a/d/e" = true) by reflexivity.
  pose proof (isSrcSubdir_transitive "/a" "/a/d" "/a/d/e" H1) as H.
  exact (conj H1 (conj H2 (conj (proj1 H H2) (proj2 (proj2 H))))).
Defined.

(** The components of [/a//d/] are [a] and [d]. *)
Lemma normalizePathToArray_components_witness :
  In "d" (Copy.normalizePathToArray "/a//d/") /\
  "d" <> "" /\ ~ In sep (list_ascii_of_string "d").
Proof.
  assert (H : In "d" (Copy.normalizePathToArray "/a//d/"))
    by (right; left; reflexivity).
  exact (conj H (normalizePathToArray_components "/a//d/" "d" H)).
Defined.

(** The socket [/k/sock] is refused with ERR_FS_COPY_SOCKET. *)
Lemma getStatsForCopy_refuses_unsupported_kinds_witness :
  stat_for no_opts "/k/sock" world_special
  = SysOk (mkStats KSocket 49645 0 0 1 4) /\
  exists e,
    raises (@Throw unit e) ERR_FS_COPY_SOCKET EINVAL "/out/sock" /\
    Copy.getStatsForCopy 1 None "/k/sock" "/out/sock" no_opts
      (mkSt world_special [])
    = (Throw e, mkSt world_special []) /\
    CopySync.getStats 1 None "/k/sock" "/out/sock" no_opts
      (mkSt world_special [])
    = (Throw e, mkSt world_special []) /\
    forall cb,
      CopyCb.getStatsForCopy 1 None "/k/sock" "/out/sock" no_opts cb
        (mkSt world_special [])
      = cb (CbErr e) (mkSt world_special []).
Proof.
  split; [reflexivity|].
  exact (getStatsForCopy_refuses_unsupported_kinds 0 None "/k/sock"
           "/out/sock" no_opts (mkSt world_special [])
           (mkStats KSocket 49645 0 0 1 4) ERR_FS_COPY_SOCKET
           eq_refl eq_refl).
Defined.

(** Copying [/src] into [/dst/b/c], which lies inside [/src] under another
    name: the ancestor walk fails and nothing is created. *)
Lemma preflight_errors_precede_mutations_witness :
  exists e,
    fst (preflight 8 "/src" "/dst/b/c" no_opts (mkSt world_alias []))
    = Throw e /\
    Copy.copyFn 8 "/src" "/dst/b/c" no_opts (mkSt world_alias [])
    = (Throw e, mkSt world_alias ([] ++ warning_events no_opts)) /\
    CopySync.copySyncFn 8 "/src" "/dst/b/c" no_opts (mkSt world_alias [])
    = (Throw e, mkSt world_alias ([] ++ warning_events no_opts)) /\
    CopyCb.copyPromises 8 "/src" "/dst/b/c" no_opts (mkSt world_alias [])
    = Called (CbErr e)
        (mkSt world_alias ([] ++ console_warning_events no_opts)).
Proof.
  eexists. split; [vm_compute; reflexivity|].
  apply (preflight_errors_precede_mutations 8 "/src" "/dst/b/c" no_opts
           (mkSt world_alias [])).
  vm_compute. reflexivity.
Defined.

(** With a filter that rejects everything, copying [/k/foo.txt] to
    [/out/sub/foo.txt] does not even create [/out/sub]. *)
Lemma rejected_source_creates_nothing_witness :
  fst (preflight 8 "/k/foo.txt" "/out/sub/foo.txt" reject_all_opts
         (mkSt world_no_parent []))
  = Ok tt /\
  Copy.copyFn 8 "/k/foo.txt" "/out/sub/foo.txt" reject_all_opts
    (mkSt world_no_parent [])
  = (Ok tt, mkSt world_no_parent ([] ++ warning_events reject_all_opts)) /\
  CopySync.copySyncFn 8 "/k/foo.txt" "/out/sub/foo.txt" reject_all_opts
    (mkSt world_no_parent [])
  = (Ok tt, mkSt world_no_parent ([] ++ warning_events reject_all_opts)) /\
  CopyCb.copyPromises 8 "/k/foo.txt" "/out/sub/foo.txt" reject_all_opts
    (mkSt world_no_parent [])
  = Called (CbOk tt)
      (mkSt world_no_parent ([] ++ console_warning_events reject_all_opts)).
Proof.
  assert (H : fst (preflight 8 "/k/foo.txt" "/out/sub/foo.txt"
                     reject_all_opts (mkSt world_no_parent []))
              = Ok tt) by (vm_compute; reflexivity).
  split; [exact H|].
  exact (rejected_source_creates_nothing 8 "/k/foo.txt" "/out/sub/foo.txt"
           reject_all_opts (mkSt world_no_parent []) (fun _ _ _ => false)
           eq_refl eq_refl H).
Defined.

(** The two files of [/k], both rejected: [copyDir] validates the two
    pairs and copies nothing. *)
Lemma rejected_children_are_still_validated_witness :
  fs_readdir "/k" world_two = SysOk ["a.txt"; "b.txt"] /\
  Copy.copyDir (Copy.getStatsForCopy 4) "/k" "/out" reject_all_opts
    (mkSt world_two [])
  = (fst (validate_children "/k" "/out" reject_all_opts ["a.txt"; "b.txt"]
            (mkSt world_two [])),
     mkSt world_two []) /\
  CopySync.copyDir (Copy.getStatsForCopy 4) "/k" "/out" reject_all_opts
    (mkSt world_two [])
  = (fst (validate_children "/k" "/out" reject_all_opts ["a.txt"; "b.txt"]
            (mkSt world_two [])),
     mkSt world_two []) /\
  forall cb,
    CopyCb.copyDir (CopyCb.getStatsForCopy 4) "/k" "/out" reject_all_opts cb
      (mkSt world_two [])
    = delivered
        (fst (validate_children "/k" "/out" reject_all_opts
                (callback_order ["a.txt"; "b.txt"]) (mkSt world_two [])))
        cb (mkSt world_two []).
Proof.
  split; [reflexivity|].
  exact (rejected_children_are_still_validated (Copy.getStatsForCopy 4)
           (CopyCb.getStatsForCopy 4) "/k" "/out" reject_all_opts
           (mkSt world_two []) (fun _ _ _ => false) ["a.txt"; "b.txt"]
           eq_refl eq_refl (fun _ _ => eq_refl)).
Defined.

(** The parent [/out/sub] of the destination does not exist: it is created
    recursively, and the copy proper starts from the state that leaves. *)
Lemma parent_directory_is_created_when_missing_witness :
  accepted no_opts "/k/foo.txt" "/out/sub/foo.txt" world_no_parent = true /\
  fs_stat "/out/sub" world_no_parent = SysErr "ENOENT" /\
  let after :=
    mkSt (snd (fs_mkdir "/out/sub" true world_no_parent))
      [EvMkdir "/out/sub" true] in
  CopySync.handleFilterAndCopy 4 None "/k/foo.txt" "/out/sub/foo.txt" no_opts
    (mkSt world_no_parent [])
  = CopySync.getStats 4 None "/k/foo.txt" "/out/sub/foo.txt" no_opts after /\
  Copy.checkParentDir 4 None "/k/foo.txt" "/out/sub/foo.txt" no_opts
    (mkSt world_no_parent [])
  = Copy.getStatsForCopy 4 None "/k/foo.txt" "/out/sub/foo.txt" no_opts
      after /\
  forall cb,
    CopyCb.checkParentDir 4 None "/k/foo.txt" "/out/sub/foo.txt" no_opts cb
      (mkSt world_no_parent [])
    = CopyCb.getStatsForCopy 4 None "/k/foo.txt" "/out/sub/foo.txt" no_opts
        cb after.
Proof.
  split; [reflexivity|]. split; [reflexivity|].
  exact (parent_directory_is_created_when_missing 4 None "/k/foo.txt"
           "/out/sub/foo.txt" no_opts (mkSt world_no_parent []) eq_refl).
Defined.

(** Copying the read-only [/k/foo.txt] with its timestamps: the six calls,
    on descriptor 3, with the times of the source after the byte copy. *)
Lemma successful_file_copy_calls_witness :
  let run :=
    Copy._copyFile (mkStats KFile 33060 10 20 1 4) "/k/foo.txt"
      "/out/foo.txt" timestamp_opts (mkSt world_readonly []) in
  run = (Ok tt, snd run) /\
  exists fd updated w,
    trace (snd run)
    = [] ++ file_copy_events (mkStats KFile 33060 10 20 1 4) "/k/foo.txt"
              "/out/foo.txt" timestamp_opts fd updated /\
    (preserveTimestamps timestamp_opts = true ->
     fs_stat "/k/foo.txt" w = SysOk updated /\
     fst (fs_open "/out/foo.txt" "r+" w) = SysOk fd).
Proof.
  cbv zeta.
  assert (H : Copy._copyFile (mkStats KFile 33060 10 20 1 4) "/k/foo.txt"
                "/out/foo.txt" timestamp_opts (mkSt world_readonly [])
              = (Ok tt,
                 snd (Copy._copyFile (mkStats KFile 33060 10 20 1 4)
                        "/k/foo.txt" "/out/foo.txt" timestamp_opts
                        (mkSt world_readonly []))))
    by (vm_compute; reflexivity).
  split; [exact H|].
  exact (proj1 (successful_file_copy_calls
                  (mkStats KFile 33060 10 20 1 4) "/k/foo.txt"
                  "/out/foo.txt" timestamp_opts (mkSt world_readonly [])
                  _) H).
Defined.

(** Copying the directory [/k] to the absent [/out]: [mkdir] first, the
    mode of [/k] last. *)
Lemma new_directory_gets_mode_last_witness :
  let run := Copy.getStatsForCopy 4 None "/k" "/out" no_opts
               (mkSt world_two []) in
  stat_for no_opts "/k" world_two = SysOk (mkStats KDirectory 16877 0 0 1 3) /\
  run = (Ok tt, snd run) /\
  exists mid,
    trace (snd run)
    = [] ++ EvMkdir "/out" false :: mid ++ [EvChmod "/out" 16877].
Proof.
  cbv zeta.
  assert (H : Copy.getStatsForCopy 4 None "/k" "/out" no_opts
                (mkSt world_two [])
              = (Ok tt,
                 snd (Copy.getStatsForCopy 4 None "/k" "/out" no_opts
                        (mkSt world_two []))))
    by (vm_compute; reflexivity).
  split; [reflexivity|]. split; [exact H|].
  exact (proj1 (new_directory_gets_mode_last 3 "/k" "/out" no_opts
                  (mkSt world_two []) _ (mkStats KDirectory 16877 0 0 1 3)
                  eq_refl eq_refl) H).
Defined.

(** The empty directory [/k/e], of mode 0o40555, copied to [/out/e]. *)
Lemma empty_directory_copy_witness :
  let w1 := snd (fs_mkdir "/out/e" false world_empty_dir) in
  let w2 := snd (fs_chmod "/out/e" 16749 w1) in
  fs_readdir "/k/e" w1 = SysOk [] /\
  Copy.getStatsForCopy 1 None "/k/e" "/out/e" no_opts
    (mkSt world_empty_dir [])
  = (Ok tt, mkSt w2 [EvMkdir "/out/e" false; EvChmod "/out/e" 16749]) /\
  CopySync.getStats 1 None "/k/e" "/out/e" no_opts (mkSt world_empty_dir [])
  = (Ok tt, mkSt w2 [EvMkdir "/out/e" false; EvChmod "/out/e" 16749]) /\
  forall cb,
    CopyCb.getStatsForCopy 1 None "/k/e" "/out/e" no_opts cb
      (mkSt world_empty_dir [])
    = cb (CbOk tt)
        (mkSt w2 [EvMkdir "/out/e" false; EvChmod "/out/e" 16749]).
Proof.
  cbv zeta. split; [reflexivity|].
  exact (empty_directory_copy 0 "/k/e" "/out/e" no_opts
           (mkSt world_empty_dir []) (mkStats KDirectory 16749 0 0 1 4)
           (snd (fs_mkdir "/out/e" false world_empty_dir))
           (snd (fs_chmod "/out/e" 16749
                   (snd (fs_mkdir "/out/e" false world_empty_dir))))
           eq_refl eq_refl eq_refl eq_refl eq_refl).
Defined.

(** The link [/s/rel] copied onto the regular file [/s/t]: the file is not
    removed, [symlink] is called on the occupied path. *)
Lemma onLink_keeps_a_destination_that_is_no_link_witness :
  fs_readlink "/s/rel" world_targets = SysOk "t" /\
  fs_readlink "/s/t" world_targets = SysErr "EINVAL" /\
  Copy.onLink (Some (mkStats KFile 33188 10 20 1 4)) "/s/rel" "/s/t"
    (mkSt world_targets [])
  = Fs.symlink (anchored_target "/s/rel" "t") "/s/t" (mkSt world_targets [])
  /\
  CopySync.onLink (Some (mkStats KFile 33188 10 20 1 4)) "/s/rel" "/s/t"
    no_opts (mkSt world_targets [])
  = Fs.symlink (cwd_target no_opts "t") "/s/t" (mkSt world_targets []) /\
  forall cb,
    CopyCb.onLink (Some (mkStats KFile 33188 10 20 1 4)) "/s/rel" "/s/t"
      no_opts cb (mkSt world_targets [])
    = FsCb.symlink (cwd_target no_opts "t") "/s/t" cb (mkSt world_targets []).
Proof.
  split; [reflexivity|]. split; [reflexivity|].
  exact (onLink_keeps_a_destination_that_is_no_link
           (mkStats KFile 33188 10 20 1 4) "/s/rel" "/s/t" no_opts
           (mkSt world_targets []) "t" "EINVAL" eq_refl eq_refl).
Defined.

(** The link [/t/l] (to [/d]) copied onto the link [/s/l] (to [/d/x]). *)
Lemma onLink_refuses_link_below_source_target_witness :
  fs_readlink "/t/l" world_links = SysOk "/d" /\
  fs_readlink "/s/l" world_links = SysOk "/d/x" /\
  Copy.isSrcSubdir "/d" "/d/x" = true /\
  (raises (fst (Copy.onLink (Some (mkStats KSymbolicLink 41471 0 0 1 4))
                  "/t/l" "/s/l" (mkSt world_links [])))
     ERR_FS_COPY_TO_SUBDIRECTORY EINVAL "/s/l" /\
   snd (Copy.onLink (Some (mkStats KSymbolicLink 41471 0 0 1 4))
          "/t/l" "/s/l" (mkSt world_links []))
   = mkSt world_links []) /\
  exists e,
    raises (@Throw unit e) ERR_FS_COPY_TO_SUBDIRECTORY EINVAL "/s/l" /\
    CopySync.onLink (Some (mkStats KSymbolicLink 41471 0 0 1 4))
      "/t/l" "/s/l" no_opts (mkSt world_links [])
    = (Throw e, mkSt world_links []) /\
    forall cb,
      CopyCb.onLink (Some (mkStats KSymbolicLink 41471 0 0 1 4))
        "/t/l" "/s/l" no_opts cb (mkSt world_links [])
      = cb (CbErr e) (mkSt world_links []).
Proof.
  pose proof (onLink_refuses_link_below_source_target
                (mkStats KSymbolicLink 41471 0 0 1 4) "/t/l" "/s/l" no_opts
                (mkSt world_links []) "/d" "/d/x" eq_refl eq_refl)
    as [Hpromise Hothers].
  split; [reflexivity|]. split; [reflexivity|]. split; [reflexivity|].
  split; [apply Hpromise; reflexivity|].
  apply Hothers. left. reflexivity.
Defined.

(** The link [/s/l] (to [/d/x]) copied over the link [/t/l] (to [/e]) with
    no flag set: [/t/l] is unlinked and linked anew. *)
Lemma onLink_replaces_a_link_whatever_the_flags_witness :
  force no_opts = false /\ overwrite no_opts = false /\
  fs_readlink "/s/l" world_unrelated_links = SysOk "/d/x" /\
  fs_readlink "/t/l" world_unrelated_links = SysOk "/e" /\
  trace (snd (Copy.onLink (Some (mkStats KSymbolicLink 41471 0 0 1 6))
                "/s/l" "/t/l" (mkSt world_unrelated_links [])))
  = [EvUnlink "/t/l"; EvSymlink "/d/x" "/t/l"] /\
  trace (snd (CopySync.onLink (Some (mkStats KSymbolicLink 41471 0 0 1 6))
                "/s/l" "/t/l" no_opts (mkSt world_unrelated_links [])))
  = [EvUnlink "/t/l"; EvSymlink "/d/x" "/t/l"] /\
  final_trace
    (CopyCb.onLink (Some (mkStats KSymbolicLink 41471 0 0 1 6))
       "/s/l" "/t/l" no_opts (fun r s => Called r s)
       (mkSt world_unrelated_links []))
  = Some [EvUnlink "/t/l"; EvSymlink "/d/x" "/t/l"].
Proof.
  pose proof (onLink_replaces_a_link_whatever_the_flags
                (mkStats KSymbolicLink 41471 0 0 1 6) "/s/l" "/t/l" no_opts
                (mkSt world_unrelated_links []) "/d/x" "/e" eq_refl eq_refl)
    as H.
  cbv zeta in H. destruct H as (Hp & Hs & Hc).
  split; [reflexivity|]. split; [reflexivity|].
  split; [reflexivity|]. split; [reflexivity|].
  rewrite (Hp (mkStats KDirectory 16877 0 0 1 8) eq_refl eq_refl eq_refl).
  rewrite (Hs (mkStats KDirectory 16877 0 0 1 9) eq_refl eq_refl eq_refl).
  rewrite (Hc eq_refl eq_refl).
  split; [reflexivity|]. split; reflexivity.
Defined.

(** Copying the directory [/k] to [/out] in a world without links. *)
Lemma blocking_and_promise_agree_without_links_witness :
  link_free world_two /\
  CopySync.copySyncFn 8 "/k" "/out" overwrite_opts (mkSt world_two [])
  = Copy.copyFn 8 "/k" "/out" overwrite_opts (mkSt world_two []).
Proof.
  assert (HI : link_free world_two) by reflexivity.
  split; [exact HI|].
  apply (blocking_and_promise_agree_without_links link_free 8 "/k" "/out"
           overwrite_opts (mkSt world_two [])).
  - intros p w s Hw Hs. exact (stat_link_free false cwd0 p w s Hw Hs).
  - intros p r w Hw. exact (mkdir_link_free cwd0 p r w Hw).
  - intros p w Hw. exact (unlink_link_free cwd0 p w Hw).
  - intros s d w Hw. exact (copyFile_link_free cwd0 s d w Hw).
  - intros p m w Hw. exact (chmod_link_free cwd0 p m w Hw).
  - exact HI.
  - reflexivity.
  - reflexivity.
  - intros code H. discriminate H.
Defined.

(** The root [/] resolves to no component: it cannot be copied to
    [/out]. *)
Lemma directory_is_never_copied_below_itself_witness :
  Copy.normalizePathToArray "/" = [] /\
  Copy.isSrcSubdir "/" "/out" = true /\
  exists e,
    Copy.checkPaths "/" "/out" no_opts (mkSt world_two [])
    = (Throw e, mkSt world_two []) /\
    Copy.copyFn 8 "/" "/out" no_opts (mkSt world_two [])
    = (Throw e, mkSt world_two ([] ++ warning_events no_opts)) /\
    CopySync.copySyncFn 8 "/" "/out" no_opts (mkSt world_two [])
    = (Throw e, mkSt world_two ([] ++ warning_events no_opts)) /\
    CopyCb.copyPromises 8 "/" "/out" no_opts (mkSt world_two [])
    = Called (CbErr e) (mkSt world_two ([] ++ console_warning_events no_opts)).
Proof.
  assert (Harr : Copy.normalizePathToArray "/" = []) by reflexivity.
  split; [exact Harr|].
  split; [exact (isSrcSubdir_no_components "/" "/out" Harr)|].
  exact (directory_is_never_copied_below_itself 8 "/" "/out" no_opts
           (mkSt world_two []) (mkStats KDirectory 16877 0 0 1 1)
           eq_refl eq_refl (isSrcSubdir_no_components "/" "/out" Harr)).
Defined.

(** [/k/a.txt] copied over the existing [/out/a.txt] with the overwrite
    flags set. *)
Lemma file_copy_is_the_same_in_every_dialect_witness :
  let run :=
    Copy.getStatsForCopy 1 (Some (mkStats KFile 33188 11 21 1 6))
      "/k/a.txt" "/out/a.txt" overwrite_opts (mkSt world_existing []) in
  CopySync.getStats 1 (Some (mkStats KFile 33188 11 21 1 6))
    "/k/a.txt" "/out/a.txt" overwrite_opts (mkSt world_existing [])
  = run /\
  forall cb,
    CopyCb.getStatsForCopy 1 (Some (mkStats KFile 33188 11 21 1 6))
      "/k/a.txt" "/out/a.txt" overwrite_opts cb (mkSt world_existing [])
    = delivered_run run cb.
Proof.
  exact (file_copy_is_the_same_in_every_dialect 0
           (Some (mkStats KFile 33188 11 21 1 6)) "/k/a.txt" "/out/a.txt"
           overwrite_opts (mkSt world_existing [])
           (mkStats KFile 33188 10 20 1 4) eq_refl eq_refl eq_refl eq_refl).
Defined.

(** A filter that is constantly true, on the copy of [/k] to [/out]. *)
Lemma accepting_filter_is_no_filter_witness :
  Copy.copyFn 8 "/k" "/out" (with_filter no_opts (Some accept_all_filter))
    (mkSt world_two [])
  = Copy.copyFn 8 "/k" "/out" (with_filter no_opts None) (mkSt world_two [])
  /\
  CopySync.copySyncFn 8 "/k" "/out"
    (with_filter no_opts (Some accept_all_filter)) (mkSt world_two [])
  = CopySync.copySyncFn 8 "/k" "/out" (with_filter no_opts None)
      (mkSt world_two []) /\
  CopyCb.copyPromises 8 "/k" "/out"
    (with_filter no_opts (Some accept_all_filter)) (mkSt world_two [])
  = CopyCb.copyPromises 8 "/k" "/out" (with_filter no_opts None)
      (mkSt world_two []).
Proof.
  exact (accepting_filter_is_no_filter no_opts accept_all_filter
           (fun _ _ _ => eq_refl) 8 "/k" "/out" (mkSt world_two [])).
Defined.

(** [/k/a.txt] against the existing [/out/a.txt]: two regular files with
    different inodes. *)
Lemma checkPaths_guarantees_witness :
  fst (Copy.checkPaths "/k/a.txt" "/out/a.txt" no_opts
         (mkSt world_existing []))
  = Ok (mkStats KFile 33188 10 20 1 4, Some (mkStats KFile 33188 11 21 1 6))
  /\
  stat_for no_opts "/out/a.txt" world_existing
  = SysOk (mkStats KFile 33188 11 21 1 6) /\
  Copy.areIdentical (mkStats KFile 33188 10 20 1 4)
    (mkStats KFile 33188 11 21 1 6) = false /\
  isDirectory (mkStats KFile 33188 11 21 1 6)
  = isDirectory (mkStats KFile 33188 10 20 1 4).
Proof.
  assert (H : fst (Copy.checkPaths "/k/a.txt" "/out/a.txt" no_opts
                     (mkSt world_existing []))
              = Ok (mkStats KFile 33188 10 20 1 4,
                    Some (mkStats KFile 33188 11 21 1 6)))
    by reflexivity.
  split; [exact H|].
  exact (proj2 (proj2 (proj2 (checkPaths_guarantees "/k/a.txt" "/out/a.txt"
                                no_opts (mkSt world_existing []) _ _ H)))).
Defined.
End MoreRuns.

(** ** Further facts: the descriptor calls of the promise and callback
    dialects *)

Section BracketedLaws.
Context {World : Type} {FS : FsApi World}.

Lemma Bracketed_app (w1 w2 w3 : World) (l1 l2 : list Event) :
  Bracketed w1 l1 w2 -> Bracketed w2 l2 w3 -> Bracketed w1 (l1 ++ l2) w3.
Proof.
  intros H1 H2. induction H1; simpl.
  - exact H2.
  - apply Bracketed_other; auto.
  - eapply Bracketed_failed; eauto.
  - apply Bracketed_triple; auto.
Qed.

Lemma Bracketed_one (ev : Event) (w : World) :
  descriptor_free ev -> Bracketed w [ev] (apply_event ev w).
Proof. intros H. apply Bracketed_other; [exact H|apply Bracketed_nil]. Qed.

Lemma Bracketed_failed_run (path flags code : string) (w w1 : World) :
  fs_open path flags w = (SysErr code, w1) ->
  Bracketed w [EvOpen path flags] w1.
Proof.
  intros H. apply (Bracketed_failed path flags code); simpl; rewrite H;
    [reflexivity|apply Bracketed_nil].
Qed.

Lemma Bracketed_triple_run (path flags : string) (fd : Fd) (a m : Z)
  (w w1 w2 w3 : World) (r2 r3 : Sys unit) :
  fs_open path flags w = (SysOk fd, w1) ->
  fs_futimes fd a m w1 = (r2, w2) ->
  fs_close fd w2 = (r3, w3) ->
  Bracketed w [EvOpen path flags; EvFutimes fd a m; EvClose fd] w3.
Proof.
  intros H1 H2 H3. apply Bracketed_triple; simpl; rewrite H1; simpl;
    [reflexivity|]. rewrite H2. simpl. rewrite H3. apply Bracketed_nil.
Qed.

(** A successful [open] with nothing after it is not complete, and neither
    is an [open] followed by [futimes] alone. *)
Lemma Bracketed_open_alone (path flags : string) (fd : Fd) (w w' : World) :
  fst (fs_open path flags w) = SysOk fd ->
  ~ Bracketed w [EvOpen path flags] w'.
Proof.
  intros Hopen H.
  inversion H as [|ev l w0 w0' Hfree Hl|p f code l w0 w0' Hfail Hl|];
    subst; [exact Hfree|]. rewrite Hopen in Hfail. discriminate Hfail.
Qed.

Lemma Bracketed_no_close (path flags : string) (fd : Fd) (a m : Z)
  (w w' : World) :
  ~ Bracketed w [EvOpen path flags; EvFutimes fd a m] w'.
Proof.
  intros H.
  inversion H as [|ev l w0 w0' Hfree Hl|p f code l w0 w0' Hfail Hl|];
    subst; [exact Hfree|].
  inversion Hl as [|ev l w0 w0' Hfree Hl'| |]; subst. exact Hfree.
Qed.
End BracketedLaws.

Section SeqFacts.
Context {World : Type} {FS : FsApi World}.
Variable L : World -> list Event -> World -> Prop.
Hypothesis L_nil : forall w, L w [] w.
Hypothesis L_app :
  forall w1 w2 w3 l1 l2, L w1 l1 w2 -> L w2 l2 w3 -> L w1 (l1 ++ l2) w3.

Lemma seq_pure {A} (m : M World A) :
  (forall st, snd (m st) = st) -> appends_seq L m.
Proof.
  intros H st. exists []. rewrite H, app_nil_r.
  split; [reflexivity|apply L_nil].
Qed.

Lemma seq_mutate {A} (ev : Event) (f : World -> Sys A * World) :
  (forall w, L w [ev] (snd (f w))) -> appends_seq L (Fs.mutate ev f).
Proof.
  intros Hev st. exists [ev]. unfold Fs.mutate.
  specialize (Hev (world st)).
  destruct (f (world st)). split; [reflexivity|exact Hev].
Qed.

Lemma seq_bind {A B} (m : M World A) (k : A -> M World B) :
  appends_seq L m -> (forall a, appends_seq L (k a)) ->
  appends_seq L (bind m k).
Proof.
  intros Hm Hk st. unfold bind. destruct (Hm st) as (r1 & H1 & Q1).
  destruct (m st) as [[a|e|] st1]; simpl in *.
  - destruct (Hk a st1) as (r2 & H2 & Q2). exists (r1 ++ r2).
    rewrite H2, H1, <- app_assoc. split; [reflexivity|].
    eapply L_app; eassumption.
  - exists r1. split; assumption.
  - exists r1. split; assumption.
Qed.

Lemma seq_catch {A} (m : M World A) (h : Error -> M World A) :
  appends_seq L m -> (forall e, appends_seq L (h e)) ->
  appends_seq L (catch m h).
Proof.
  intros Hm Hh st. unfold catch. destruct (Hm st) as (r1 & H1 & Q1).
  destruct (m st) as [[a|e|] st1]; simpl in *.
  - exists r1. split; assumption.
  - destruct (Hh e st1) as (r2 & H2 & Q2). exists (r1 ++ r2).
    rewrite H2, H1, <- app_assoc. split; [reflexivity|].
    eapply L_app; eassumption.
  - exists r1. split; assumption.
Qed.



Lemma grows_seq_refl (st : St World) (r : CbArg unit) :
  grows_seq L st (Called r st).
Proof. exists []. split; [symmetry; apply app_nil_r | apply L_nil]. Qed.

Lemma grows_seq_trans (st st1 : St World) (x : Final World)
  (rest : list Event) :
  trace st1 = trace st ++ rest -> L (world st) rest (world st1) ->
  grows_seq L st1 x -> grows_seq L st x.
Proof.
  intros H1 Q1. destruct x as [r s|m s|]; simpl; auto;
    intros (r2 & H2 & Q2); exists (rest ++ r2);
    (split; [rewrite H2, H1; symmetry; apply app_assoc
            | eapply L_app; eassumption]).
Qed.

Lemma bseq_ret (r : CbArg unit) :
  behaves_seq L (fun cb : Cb World unit => cb r).
Proof.
  intros st. exists (Called r st). split; [reflexivity|apply grows_seq_refl].
Qed.

Lemma bseq_uncaught (msg : string) :
  behaves_seq L (fun _ : Cb World unit => Uncaught msg).
Proof.
  intros st. exists (Uncaught msg st). split; [reflexivity|].
  exists []. split; [symmetry; apply app_nil_r | apply L_nil].
Qed.

Lemma bseq_fuel_out :
  behaves_seq L (fun (_ : Cb World unit) (_ : St World) => @FuelOut World).
Proof. intros st. exists FuelOut. split; [reflexivity|exact I]. Qed.

Lemma bseq_read {A} (g : World -> Sys A)
  (k : CbArg A -> Cb World unit -> K World) :
  (forall r, behaves_seq L (k r)) ->
  behaves_seq L (fun cb => FsCb.read g (fun r => k r cb)).
Proof.
  intros Hk st. unfold FsCb.read.
  destruct (Hk (arg_of_sys (g (world st))) st) as (x & Hx & Hg).
  exists x. split; assumption.
Qed.

Lemma bseq_mutate {A} (ev : Event) (g : World -> Sys A * World)
  (k : CbArg A -> Cb World unit -> K World) :
  (forall w, L w [ev] (snd (g w))) -> (forall r, behaves_seq L (k r)) ->
  behaves_seq L (fun cb => FsCb.mutate ev g (fun r => k r cb)).
Proof.
  intros Hev Hk st. unfold FsCb.mutate.
  specialize (Hev (world st)).
  destruct (g (world st)) as [r w'].
  destruct (Hk (arg_of_sys r) (mkSt w' (trace st ++ [ev]))) as (x & Hx & Hg).
  exists x. split; [assumption|].
  apply (grows_seq_trans st (mkSt w' (trace st ++ [ev])) x [ev]);
    [reflexivity | exact Hev | exact Hg].
Qed.

Lemma bseq_then (f : Cb World unit -> K World)
  (k : CbArg unit -> Cb World unit -> K World) :
  behaves_seq L f -> (forall r, behaves_seq L (k r)) ->
  behaves_seq L (fun cb => f (fun r => k r cb)).
Proof.
  intros Hf Hk st. destruct (Hf st) as (x & Hx & Hg).
  destruct x as [r st1|msg st1|].
  - destruct (Hk r st1) as (y & Hy & Hgy). exists y. split.
    + intros cb. rewrite Hx. simpl. apply Hy.
    + destruct Hg as (rest & Hrest & HQ).
      eapply grows_seq_trans; eassumption.
  - exists (Uncaught msg st1). split; [|exact Hg].
    intros cb. rewrite Hx. reflexivity.
  - exists FuelOut. split; [|exact I].
    intros cb. rewrite Hx. reflexivity.
Qed.

Lemma bseq_ext (f g : Cb World unit -> K World) :
  (forall cb st, f cb st = g cb st) -> behaves_seq L g -> behaves_seq L f.
Proof.
  intros Hfg Hg st. destruct (Hg st) as (x & Hx & Hgr). exists x.
  split; [|exact Hgr]. intros cb. rewrite Hfg. apply Hx.
Qed.

Lemma bseq_delivered {A} (r : Res A)
  (k : CbArg A -> Cb World unit -> K World) :
  (forall r, behaves_seq L (k r)) ->
  behaves_seq L (fun cb => delivered r (fun a => k a cb)).
Proof.
  intros Hk. destruct r as [a|e|]; simpl.
  - apply Hk.
  - apply Hk.
  - apply bseq_fuel_out.
Qed.
End SeqFacts.

Section SeqCopyFacts.
Context {World : Type} {FS : FsApi World} {P : PathApi} {E : ProcessEnv}.
Variable L : World -> list Event -> World -> Prop.
Hypothesis L_nil : forall w, L w [] w.
Hypothesis L_app :
  forall w1 w2 w3 l1 l2, L w1 l1 w2 -> L w2 l2 w3 -> L w1 (l1 ++ l2) w3.

Lemma bseq_checkPaths (src dest : string) (opts : Opts World)
  (k : CbArg (Stats * option Stats) -> Cb World unit -> K World) :
  (forall r, behaves_seq L (k r)) ->
  behaves_seq L (fun cb => CopyCb.checkPaths src dest opts (fun r => k r cb)).
Proof.
  intros Hk st.
  destruct (bseq_delivered L (fst (Copy.checkPaths src dest opts st)) k Hk st)
    as (x & Hx & Hg).
  exists x. split; [|exact Hg]. intros cb.
  rewrite checkPaths_cb_delivers. apply Hx.
Qed.

Lemma bseq_forEachK (f : string -> Cb World unit -> K World)
  (items : list string) :
  (forall item, behaves_seq L (f item)) -> behaves_seq L (forEachK items f).
Proof.
  intros Hf. induction items as [|x t IH]; simpl.
  - apply (bseq_ret _ L_nil).
  - apply (bseq_then _ L_app (f x)
             (fun r cb => match r with
                          | CbErr err => cb (CbErr err)
                          | CbOk _ => forEachK t f cb
                          end)); [apply Hf|].
    intros [e|[]]; [apply (bseq_ret _ L_nil) | exact IH].
Qed.
End SeqCopyFacts.

(** Decomposes a goal [appends_seq Bracketed m] along the structure of
    [m]. *)
Ltac seq_step :=
  match goal with
  | |- @appends_seq _ _ _ (bind _ _) =>
      apply (seq_bind _ Bracketed_app)
  | |- @appends_seq _ _ _ (catch _ _) =>
      apply (seq_catch _ Bracketed_app)
  | |- @appends_seq _ _ _ (ret _) =>
      apply (seq_pure _ Bracketed_nil); reflexivity
  | |- @appends_seq _ _ _ (throw _) =>
      apply (seq_pure _ Bracketed_nil); reflexivity
  | |- @appends_seq _ _ _ out_of_fuel =>
      apply (seq_pure _ Bracketed_nil); reflexivity
  | |- @appends_seq _ _ _ (Fs.read _) =>
      apply (seq_pure _ Bracketed_nil); reflexivity
  | |- @appends_seq _ _ _ (Fs.call_filter _ _ _) =>
      apply (seq_pure _ Bracketed_nil); reflexivity
  | |- @appends_seq _ _ _ (Fs.mutate ?ev _) =>
      apply seq_mutate; intro; apply (Bracketed_one ev); exact I
  | |- @appends_seq _ _ _ (if ?b then _ else _) => destruct b
  | |- @appends_seq _ _ _ ((if ?b then _ else _) _) => destruct b; cbv beta
  | |- @appends_seq _ _ _ (match ?x with _ => _ end) => destruct x
  | |- @appends_seq _ _ _ (let '(_, _) := ?x in _) => destruct x
  | |- forall _, _ => intro
  end.

Ltac bseq_step :=
  match goal with
  | |- behaves_seq _ (fun cb => FsCb.read _ _) =>
      apply (bseq_read _); intro
  | |- behaves_seq _ (fun cb => FsCb.mutate ?ev _ _) =>
      apply (bseq_mutate _ Bracketed_app);
      [intro; apply (Bracketed_one ev); exact I | intro]
  | |- behaves_seq _ (fun cb => cb _) => apply (bseq_ret _ Bracketed_nil)
  | |- behaves_seq _ (fun cb => Uncaught _) =>
      apply (bseq_uncaught _ Bracketed_nil)
  | |- behaves_seq _ (fun cb => if ?b then _ else _) => destruct b
  | |- behaves_seq _ (fun cb => match ?x with _ => _ end) => destruct x
  | |- behaves_seq _ (fun cb => let (_, _) := ?x in _) => destruct x
  end.

Section BracketedFacts.
Context {World : Type} {FS : FsApi World} {P : PathApi} {E : ProcessEnv}.

Lemma seq_utimesMillis (path : string) (a m : Z) :
  appends_seq Bracketed (Copy.utimesMillis path a m).
Proof.
  intros st. unfold Copy.utimesMillis. monad_unfold.
  destruct (fs_open path "r+" (world st)) as [[fd|code] w1] eqn:Hopen; simpl.
  - destruct (fs_futimes fd a m w1) as [[[]|c1] w2] eqn:Hf; simpl;
      destruct (fs_close fd w2) as [[[]|c2] w3] eqn:Hc; simpl;
      exists [EvOpen path "r+"; EvFutimes fd a m; EvClose fd];
      (split;
       [rewrite <- !app_assoc; reflexivity
       |exact (Bracketed_triple_run _ _ _ _ _ _ _ _ _ _ _ Hopen Hf Hc)]).
  - exists [EvOpen path "r+"]. split; [reflexivity|].
    exact (Bracketed_failed_run _ _ _ _ _ Hopen).
Qed.

Lemma bseq_utimesMillis (path : string) (a m : Z) :
  behaves_seq Bracketed (CopyCb.utimesMillis path a m).
Proof.
  intros st.
  unfold CopyCb.utimesMillis, FsCb.open, FsCb.futimes, FsCb.close,
    FsCb.mutate.
  destruct (fs_open path "r+" (world st)) as [[fd|code] w1] eqn:Hopen; simpl.
  - destruct (fs_futimes fd a m w1) as [[[]|c1] w2] eqn:Hf; simpl;
      destruct (fs_close fd w2) as [rc w3] eqn:Hc; simpl;
      eexists (Called _ _);
      (split; [intros cb; reflexivity|]);
      exists [EvOpen path "r+"; EvFutimes fd a m; EvClose fd];
      (split;
       [simpl; rewrite <- !app_assoc; reflexivity
       |exact (Bracketed_triple_run _ _ _ _ _ _ _ _ _ _ _ Hopen Hf Hc)]).
  - eexists (Called _ _). split; [intros cb; reflexivity|].
    exists [EvOpen path "r+"]. split; [reflexivity|].
    exact (Bracketed_failed_run _ _ _ _ _ Hopen).
Qed.

Lemma seq_checkPaths (src dest : string) (opts : Opts World) :
  appends_seq Bracketed (Copy.checkPaths src dest opts).
Proof. apply (seq_pure _ Bracketed_nil). apply checkPaths_reads. Qed.

Lemma seq_onFile (srcStat : Stats) (destStat : option Stats)
  (s d : string) (opts : Opts World) :
  appends_seq Bracketed (Copy.onFile srcStat destStat s d opts).
Proof.
  unfold Copy.onFile, Copy.mayCopyFile, Copy._copyFile,
    Copy.handleTimestampsAndMode, Copy.setDestTimestampsAndMode,
    Copy.setDestTimestamps, Copy.makeFileWritable, Copy.setDestMode.
  fs_unfold.
  repeat first [apply seq_utimesMillis | seq_step].
Qed.

Lemma seq_onLink (destStat : option Stats) (s d : string) :
  appends_seq Bracketed (Copy.onLink destStat s d).
Proof.
  unfold Copy.onLink, Copy.copyLink. fs_unfold. repeat seq_step.
Qed.

Lemma seq_getStatsForCopy (fuel : nat) :
  forall destStat s d (opts : Opts World),
    appends_seq Bracketed (Copy.getStatsForCopy fuel destStat s d opts).
Proof.
  induction fuel as [|fuel IH]; intros destStat s d opts; simpl.
  - apply (seq_pure _ Bracketed_nil). reflexivity.
  - unfold Copy.getStatsForCopy_body, Copy.onDir, Copy.mkDirAndCopy,
      Copy.copyDir, Copy.setDestMode.
    assert (Hloop : forall n i dir,
               appends_seq Bracketed
                 (Copy.copyDir_loop (Copy.getStatsForCopy fuel) n i dir
                    s d opts)).
    { induction n as [|n IHn]; intros i dir; simpl.
      - apply (seq_pure _ Bracketed_nil). reflexivity.
      - unfold Copy.startCopy, Copy.handleFilter. fs_unfold.
        repeat first
          [apply IHn | apply IH | apply seq_checkPaths | seq_step]. }
    fs_unfold.
    repeat first
      [apply Hloop | apply seq_onFile | apply seq_onLink | seq_step].
Qed.

Lemma bseq_onFile (srcStat : Stats) (destStat : option Stats)
  (s d : string) (opts : Opts World) :
  behaves_seq Bracketed (CopyCb.onFile srcStat destStat s d opts).
Proof.
  assert (Hts : forall srcMode,
            behaves_seq Bracketed
              (CopyCb.setDestTimestampsAndMode srcMode s d)).
  { intros srcMode.
    unfold CopyCb.setDestTimestampsAndMode, CopyCb.setDestMode.
    apply (bseq_then _ Bracketed_app (CopyCb.setDestTimestamps s d)
             (fun r cb => match r with
                          | CbErr err => cb (CbErr err)
                          | CbOk _ => FsCb.chmod d srcMode cb
                          end)).
    - unfold CopyCb.setDestTimestamps, FsCb.stat.
      apply (bseq_read _). intros [e|u];
        [apply (bseq_ret _ Bracketed_nil) | apply bseq_utimesMillis].
    - intros [e|[]]; [apply (bseq_ret _ Bracketed_nil)|].
      unfold FsCb.chmod. repeat bseq_step. }
  unfold CopyCb.onFile, CopyCb.mayCopyFile, CopyCb._copyFile,
    CopyCb.handleTimestampsAndMode, CopyCb.makeFileWritable,
    CopyCb.setDestMode.
  fscb_unfold.
  repeat first [apply Hts | bseq_step].
Qed.

Lemma bseq_onLink (destStat : option Stats) (s d : string)
  (opts : Opts World) :
  behaves_seq Bracketed (CopyCb.onLink destStat s d opts).
Proof.
  unfold CopyCb.onLink, CopyCb.copyLink. fscb_unfold.
  repeat bseq_step.
Qed.

Lemma bseq_getStatsForCopy (fuel : nat) :
  forall destStat s d (opts : Opts World),
    behaves_seq Bracketed (CopyCb.getStatsForCopy fuel destStat s d opts).
Proof.
  induction fuel as [|fuel IH]; intros destStat s d opts; simpl.
  - apply bseq_fuel_out.
  - assert (Hstart : forall ds s' d',
              behaves_seq Bracketed
                (CopyCb.startCopy (CopyCb.getStatsForCopy fuel) ds s' d'
                   opts)).
    { intros ds s' d'. unfold CopyCb.startCopy, CopyCb.handleFilter.
      destruct (filter opts) as [f|]; [|apply IH].
      intros st. destruct (f s' d' (world st)) eqn:Hf.
      - destruct (IH ds s' d' opts st) as (x & Hx & Hg).
        exists x. split; [|exact Hg]. intros cb. apply Hx.
      - exists (Called (CbOk tt) st).
        split; [intros cb; reflexivity
               |apply (grows_seq_refl _ Bracketed_nil)]. }
    assert (Hdir : behaves_seq Bracketed
                     (CopyCb.copyDir (CopyCb.getStatsForCopy fuel) s d opts)).
    { unfold CopyCb.copyDir. fscb_unfold. apply (bseq_read _).
      intros [e|items]; [apply (bseq_ret _ Bracketed_nil)|].
      apply (bseq_ext _ _
               (forEachK (callback_order items)
                  (callback_child (CopyCb.getStatsForCopy fuel) s d opts))).
      - intros cb st. rewrite copyDirItems_forEachK by lia. reflexivity.
      - apply (bseq_forEachK _ Bracketed_nil Bracketed_app).
        intros item. unfold callback_child.
        apply (bseq_checkPaths Bracketed). intros [e|[a b]];
          [apply (bseq_ret _ Bracketed_nil) | apply Hstart]. }
    unfold CopyCb.getStatsForCopy_body, CopyCb.onDir, CopyCb.mkDirAndCopy,
      CopyCb.setDestMode.
    fscb_unfold.
    destruct (dereference opts); cbv beta;
    repeat first
      [ bseq_step
      | apply bseq_onFile
      | apply bseq_onLink
      | apply Hdir
      | apply (bseq_then _ Bracketed_app
                 (CopyCb.copyDir (CopyCb.getStatsForCopy fuel) s d opts)
                 (fun r cb => match r with
                              | CbErr err => cb (CbErr err)
                              | CbOk _ =>
                                  FsCb.mutate (EvChmod d (mode _))
                                    (fs_chmod d (mode _)) cb
                              end)); [apply Hdir | intro] ].
Qed.

(** X23: in the promise and callback dialects no run leaves the
    descriptor calls incomplete.  The calls an entry point issues lead
    from the filesystem it started on to the one it ends on, and every
    [open] among them either failed or is followed at once by [futimes]
    and [close] on the descriptor it returned; [futimes] and [close] occur
    nowhere else.  An [open] that succeeded and is followed by nothing, and
    the calls the blocking dialect is left with when [futimes] fails (an
    [open] and a [futimes] with no [close]) are not of that form. *)
Theorem descriptor_calls_come_in_complete_triples (fuel : nat)
  (src dest : string) (opts : Opts World) (st : St World) :
  (exists rest,
     trace (snd (Copy.copyFn fuel src dest opts st)) = trace st ++ rest /\
     Bracketed (world st) rest
       (world (snd (Copy.copyFn fuel src dest opts st)))) /\
  match final_state (CopyCb.copyPromises fuel src dest opts st) with
  | Some st' =>
      exists rest,
        trace st' = trace st ++ rest /\
        Bracketed (world st) rest (world st')
  | None => True
  end /\
  (forall (w w' : World) path flags fd,
     fst (fs_open path flags w) = SysOk fd ->
     ~ Bracketed w [EvOpen path flags] w') /\
  (forall (w w' : World) path flags fd a m,
     ~ Bracketed w [EvOpen path flags; EvFutimes fd a m] w').
Proof.
  refine (conj _ (conj _ (conj _ _))).
  3: { intros w w' path flags fd. apply Bracketed_open_alone. }
  3: { intros w w' path flags fd a m. apply Bracketed_no_close. }
  - revert st. change (appends_seq Bracketed (Copy.copyFn fuel src dest opts)).
    unfold Copy.copyFn, Copy.handleFilter, Copy.checkParentDir,
      Copy.pathExists.
    apply (seq_bind _ Bracketed_app).
    { destruct (preserveTimestamps opts && (process_arch =? "ia32"));
        [|apply (seq_pure _ Bracketed_nil); reflexivity].
      intros st. eexists. split; [reflexivity|].
      apply (Bracketed_one (EvWarning _ _)). exact I. }
    intros _. apply (seq_bind _ Bracketed_app); [apply seq_checkPaths|].
    intros [s d]. apply (seq_bind _ Bracketed_app).
    { apply (seq_pure _ Bracketed_nil). intros st.
      apply checkParentPaths_reads. }
    intros _. fs_unfold.
    repeat first [apply seq_getStatsForCopy | seq_step].
  - unfold CopyCb.copyPromises. rewrite copyFn_cb_run. cbv zeta.
    set (st1 := mkSt (world st) (trace st ++ console_warning_events opts)).
    assert (Hwarn : Bracketed (world st) (console_warning_events opts)
                      (world st)).
    { unfold console_warning_events.
      destruct (preserveTimestamps opts && (process_arch =? "ia32"));
        [|apply Bracketed_nil].
      apply (Bracketed_one (EvWarning _ _)). exact I. }
    assert (Hfin : forall x, grows_seq Bracketed st1 x ->
              match final_state x with
              | Some st' =>
                  exists rest,
                    trace st' = trace st ++ rest /\
                    Bracketed (world st) rest (world st')
              | None => True
              end).
    { intros [r s|m s|]; simpl; auto;
        intros (rest & H & HF);
        exists (console_warning_events opts ++ rest);
        (split; [rewrite H, app_assoc; reflexivity
                | exact (Bracketed_app _ _ _ _ _ Hwarn HF)]). }
    assert (Hparent : forall d,
              behaves_seq Bracketed
                (CopyCb.checkParentDir fuel d src dest opts)).
    { intros d. unfold CopyCb.checkParentDir, CopyCb.pathExists.
      fscb_unfold.
      repeat first [apply bseq_getStatsForCopy | bseq_step]. }
    destruct (fst (Copy.checkPaths src dest opts st)) as [[s d]|e|];
      [|apply Hfin; apply (grows_seq_refl _ Bracketed_nil)|exact I].
    destruct (fst (Copy.checkParentPaths fuel src s dest st)) as [[]|e|];
      [|apply Hfin; apply (grows_seq_refl _ Bracketed_nil)|exact I].
    destruct (Hparent d st1) as (x & Hx & Hg).
    destruct (filter opts) as [f|].
    + unfold CopyCb.handleFilter. destruct (f src dest (world st1)).
      * rewrite Hx, then_cb_Called. apply Hfin. exact Hg.
      * apply Hfin. apply (grows_seq_refl _ Bracketed_nil).
    + rewrite Hx, then_cb_Called. apply Hfin. exact Hg.
Qed.
End BracketedFacts.

(** ** The target of a copied link *)

Section InvLangLaws.
Context {World : Type}.
Variables (Inv : World -> Prop) (Q : Event -> Prop).


End InvLangLaws.

(** With [opts.dereference] the dispatcher classifies the source by [stat]:
    where [stat] never reports a link, the link copier is never entered
    and no link is created. *)
Section FollowedFacts.
Context {World : Type} {FS : FsApi World} {P : PathApi} {E : ProcessEnv}.
Variable Inv : World -> Prop.
Variable opts : Opts World.
Hypothesis Hderef : dereference opts = true.
Hypothesis stat_follows :
  forall p w s, Inv w -> fs_stat p w = SysOk s -> isSymbolicLink s = false.
Hypothesis Inv_kept :
  forall ev w, no_symlink ev -> Inv w -> Inv (apply_event ev w).

Let L := inv_lang Inv no_symlink.













End FollowedFacts.

Section LinkTargetFacts.
Context {World : Type} {FS : FsApi World} {P : PathApi} {E : ProcessEnv}.

End LinkTargetFacts.

(** *** The in-memory filesystem follows links *)

Section RootKept.












End RootKept.

Section LinkTargetRuns.
#[local] Existing Instance fs0.
#[local] Existing Instance path0.
#[local] Existing Instance env0.


End LinkTargetRuns.
